(** * Duelists: combat core of the silhouette fighting game

    A shallow embedding of the fighter state machine ([player.py]), of the
    bot policy ([Bot] in [player.py]) and of the collision resolver
    ([Game.check_collisions] and [Game.check_block] in [game_state.py]),
    together with the monolithic sibling implementation of the same core
    ([duelist_game.py]): its fighter, its bot, its frame loop with the end
    of a match, and its main menu and settings menu.  The hit effects of
    both implementations and the resolution table and display modes of
    [settings.py] are embedded as well.

    Conventions of the embedding.
    - Python [int] values are [Z]; the horizontal position [x], the
      opponent position, [speed], [aggression] and [caution] are Python
      floats and are embedded as exact rationals [Q].  All speeds of the six
      body types are multiples of one half, so the position arithmetic is
      exact in binary floating point as well.
    - Mutation of [self] is explicit state passing: a method takes the
      object and returns the updated object.
    - [random.random()] and [random.randint] read an injected source of
      draws (module [Random]).
    - A Python exception is an [outcome] returned next to the state reached
      when it was raised (assignments made before the raise persist).
    - [update_body_parts] yields the arm pose next to drawing data.  The
      pose is kept beside the fighter record and feeds [get_attack_rect];
      the rectangles are those of [pygame.Rect] (module [Rect]).  The
      resolver [check_collisions] takes the results of its two rectangle
      tests as booleans; the frame functions compute them from the
      rectangles.  Colour palettes are left out.
    - An attribute that an object does not have is looked up in the list
      of the names it has, and the read raises [AttributeError]. *)

From Stdlib Require Import ZArith QArith Qabs Qround Qminmax.
From Stdlib Require Import Bool List String Lia Lqa.
Import ListNotations.

Open Scope string_scope.
Open Scope Z_scope.

(** ** Shared vocabulary *)

(** Strict comparison of rationals as a boolean, Python's [a < b]. *)
Definition Qltb (a b : Q) : bool := negb (Qle_bool b a).

(** [enums.py]: [BodyType]. *)
Inductive BodyType : Type :=
| ATHLETIC | LEAN | HEAVY | SUMO | NINJA | ROBOTIC.

(** [enums.py]: the members of [AnimationState] that the core assigns. *)
Inductive AnimationState : Type :=
| IDLE | WALKING | ATTACKING | BLOCKING | HURT.

(** Exceptions the core can raise. *)
Inductive exn : Type :=
| AttributeError | ValueError | ZeroDivisionError.

(** How a call ended. *)
Inductive outcome : Type :=
| Returned
| Raised (e : exn).

(** [enums.py]: [GameState]. *)
Inductive GameState : Type :=
| MENU
| CHARACTER_SELECT_P1
| CHARACTER_SELECT_P2
| PLAYER_VS_PLAYER
| PLAYER_VS_BOT
| SETTINGS
| CONTROLS
| EXIT.

(** The [pygame] key codes the handlers compare [event.key] with, and one
    value for every other key. *)
Inductive key : Type :=
| K_UP | K_DOWN | K_LEFT | K_RIGHT
| K_w | K_a | K_s | K_d
| K_RETURN | K_SPACE | K_ESCAPE | K_LALT | K_RALT
| K_other.

(** The events a keyboard handler tells apart by [event.type]. *)
Inductive event : Type :=
| KEYDOWN (k : key)
| KEYUP (k : key)
| OTHER_EVENT.

(** Python's [l[i]]: a negative index counts from the end; [None] is
    [IndexError]. *)
Definition getitem {A : Type} (l : list A) (i : Z) : option A :=
  let n := Z.of_nat (List.length l) in
  if (0 <=? i) && (i <? n) then nth_error l (Z.to_nat i)
  else if (- n <=? i) && (i <? 0) then nth_error l (Z.to_nat (n + i))
  else None.

(** ** The random source *)

Module Random.

(** The draws of [random.random()], in order; each lies in [0, 1). *)
Definition source : Type := nat -> Q.

(** A computation that consumes draws. *)
Definition M (A : Type) : Type := source -> A * source.

Definition ret {A : Type} (a : A) : M A := fun rs => (a, rs).

Definition bind {A B : Type} (c : M A) (k : A -> M B) : M B :=
  fun rs => let (a, rs') := c rs in k a rs'.

(** [random.random()]. *)
Definition random : M Q :=
  fun rs => (rs 0%nat, fun n => rs (S n)).

(** [random.randint(a, b)]: a value of [a..b] taken from one draw;
    [ValueError] (empty range) when [a > b]. *)
Definition randint (a b : Z) : M (option Z) :=
  if b <? a then ret None
  else bind random (fun u =>
         ret (Some (a + Qfloor (u * inject_Z (b - a + 1))))).

(** The source that always draws [u]. *)
Definition constant (u : Q) : source := fun _ => u.

(** The source that draws the elements of [l], then [0] forever. *)
Definition of_list (l : list Q) : source := fun n => nth n l 0%Q.

End Random.

Declare Scope rand_scope.
Delimit Scope rand_scope with rand.
Notation "x <- c ;; k" := (Random.bind c (fun x => k))
  (at level 61, c at next level, right associativity) : rand_scope.

(** ** Rectangles of [pygame] *)

Module Rect.

(** A [pygame.Rect]: integer position and size. *)
Record t : Type := mk {
  left : Z;
  top : Z;
  width : Z;
  height : Z
}.

(** The conversion [pygame.Rect] applies to a float argument: the
    fraction is dropped, towards zero. *)
Definition truncate (v : Q) : Z :=
  if Qle_bool 0 v then Qfloor v else Qceiling v.

(** [pygame.Rect(x, y, w, h)] on float arguments. *)
Definition of_floats (x y w h : Q) : t :=
  mk (truncate x) (truncate y) (truncate w) (truncate h).

(** [a.colliderect(b)]: the interiors overlap; a rectangle of no width or
    no height meets nothing. *)
Definition colliderect (a b : t) : bool :=
  negb ((a.(width) =? 0) || (a.(height) =? 0)
        || (b.(width) =? 0) || (b.(height) =? 0))
  && (Z.min a.(left) (a.(left) + a.(width))
      <? Z.max b.(left) (b.(left) + b.(width)))
  && (Z.min a.(top) (a.(top) + a.(height))
      <? Z.max b.(top) (b.(top) + b.(height)))
  && (Z.min b.(left) (b.(left) + b.(width))
      <? Z.max a.(left) (a.(left) + a.(width)))
  && (Z.min b.(top) (b.(top) + b.(height))
      <? Z.max a.(top) (a.(top) + a.(height))).

End Rect.

(** ** The modular implementation: [player.py] *)

Module BodyParameters.

(** The dataclass [BodyParameters]. *)
Record t : Type := mk {
  width : Z;
  height : Z;
  speed : Q;
  health : Z;
  max_health : Z;
  head_radius : Z;
  shoulder_width : Z;
  waist_width : Z;
  arm_thickness : Z;
  leg_thickness : Z;
  arm_length : Z;
  damage : Z
}.

End BodyParameters.

Module BodyTypeParameters.

(** The table [PARAMETERS]. *)
Definition PARAMETERS (body_type : BodyType) : BodyParameters.t :=
  match body_type with
  | ATHLETIC =>
      BodyParameters.mk 52 130 (55 # 10) 100 100 18 45 40 16 18 55 10
  | LEAN =>
      BodyParameters.mk 42 140 (6 # 1) 90 90 16 35 32 12 14 60 9
  | HEAVY =>
      BodyParameters.mk 65 125 (45 # 10) 120 120 22 55 50 20 22 50 12
  | SUMO =>
      BodyParameters.mk 75 115 (35 # 10) 150 150 25 60 70 18 20 45 15
  | NINJA =>
      BodyParameters.mk 45 135 (65 # 10) 85 85 17 38 35 13 15 65 8
  | ROBOTIC =>
      BodyParameters.mk 58 145 (5 # 1) 110 110 20 50 45 17 19 58 11
  end.

(** [get_parameters]: every [BodyType] is a key of the table, so the
    [ATHLETIC] default of [dict.get] is never taken. *)
Definition get_parameters (body_type : BodyType) : BodyParameters.t :=
  PARAMETERS body_type.

End BodyTypeParameters.

Module Player.

(** The instance attributes [Player.__init__] assigns that the combat core
    reads or writes.  The geometry of a fighter lives in [params]. *)
Record t : Type := mk {
  x : Q;
  y : Z;
  is_left : bool;
  body_type : BodyType;
  params : BodyParameters.t;
  moving_left : bool;
  moving_right : bool;
  attacking : bool;
  blocking : bool;
  block_direction : string;
  attack_cooldown : Z;
  block_cooldown : Z;
  attack_animation : Z;
  already_hit_in_current_attack : bool;
  attacking_with_right : bool;
  animation_state : AnimationState;
  health : Z;
  max_health : Z
}.

(** Every name [__init__] binds on the instance (through [self.name = ...]).
    Looking up any other data attribute raises [AttributeError]. *)
Definition attributes : list string :=
  [ "x"; "y"; "is_left"; "body_type"; "color_palette_name";
    "color_palette"; "params"; "moving_left"; "moving_right"; "attacking";
    "blocking"; "block_direction"; "attack_cooldown"; "block_cooldown";
    "attack_animation"; "already_hit_in_current_attack";
    "attacking_with_right"; "animation_state"; "body_parts";
    "arm_positions"; "health"; "max_health" ].

(** [hasattr(player, name)] for a data attribute. *)
Definition hasattr (name : string) : bool :=
  existsb (String.eqb name) attributes.

(** Assignment to one attribute. *)
Definition set_x (v : Q) (self : t) : t :=
  mk v self.(y) self.(is_left) self.(body_type) self.(params)
  self.(moving_left) self.(moving_right) self.(attacking) self.(blocking)
  self.(block_direction) self.(attack_cooldown) self.(block_cooldown)
  self.(attack_animation) self.(already_hit_in_current_attack)
  self.(attacking_with_right) self.(animation_state) self.(health)
  self.(max_health).

Definition set_y (v : Z) (self : t) : t :=
  mk self.(x) v self.(is_left) self.(body_type) self.(params)
  self.(moving_left) self.(moving_right) self.(attacking) self.(blocking)
  self.(block_direction) self.(attack_cooldown) self.(block_cooldown)
  self.(attack_animation) self.(already_hit_in_current_attack)
  self.(attacking_with_right) self.(animation_state) self.(health)
  self.(max_health).

Definition set_moving_left (v : bool) (self : t) : t :=
  mk self.(x) self.(y) self.(is_left) self.(body_type) self.(params) v
  self.(moving_right) self.(attacking) self.(blocking)
  self.(block_direction) self.(attack_cooldown) self.(block_cooldown)
  self.(attack_animation) self.(already_hit_in_current_attack)
  self.(attacking_with_right) self.(animation_state) self.(health)
  self.(max_health).

Definition set_moving_right (v : bool) (self : t) : t :=
  mk self.(x) self.(y) self.(is_left) self.(body_type) self.(params)
  self.(moving_left) v self.(attacking) self.(blocking)
  self.(block_direction) self.(attack_cooldown) self.(block_cooldown)
  self.(attack_animation) self.(already_hit_in_current_attack)
  self.(attacking_with_right) self.(animation_state) self.(health)
  self.(max_health).

Definition set_attacking (v : bool) (self : t) : t :=
  mk self.(x) self.(y) self.(is_left) self.(body_type) self.(params)
  self.(moving_left) self.(moving_right) v self.(blocking)
  self.(block_direction) self.(attack_cooldown) self.(block_cooldown)
  self.(attack_animation) self.(already_hit_in_current_attack)
  self.(attacking_with_right) self.(animation_state) self.(health)
  self.(max_health).

Definition set_blocking (v : bool) (self : t) : t :=
  mk self.(x) self.(y) self.(is_left) self.(body_type) self.(params)
  self.(moving_left) self.(moving_right) self.(attacking) v
  self.(block_direction) self.(attack_cooldown) self.(block_cooldown)
  self.(attack_animation) self.(already_hit_in_current_attack)
  self.(attacking_with_right) self.(animation_state) self.(health)
  self.(max_health).

Definition set_block_direction (v : string) (self : t) : t :=
  mk self.(x) self.(y) self.(is_left) self.(body_type) self.(params)
  self.(moving_left) self.(moving_right) self.(attacking) self.(blocking)
  v self.(attack_cooldown) self.(block_cooldown) self.(attack_animation)
  self.(already_hit_in_current_attack) self.(attacking_with_right)
  self.(animation_state) self.(health) self.(max_health).

Definition set_attack_cooldown (v : Z) (self : t) : t :=
  mk self.(x) self.(y) self.(is_left) self.(body_type) self.(params)
  self.(moving_left) self.(moving_right) self.(attacking) self.(blocking)
  self.(block_direction) v self.(block_cooldown) self.(attack_animation)
  self.(already_hit_in_current_attack) self.(attacking_with_right)
  self.(animation_state) self.(health) self.(max_health).

Definition set_block_cooldown (v : Z) (self : t) : t :=
  mk self.(x) self.(y) self.(is_left) self.(body_type) self.(params)
  self.(moving_left) self.(moving_right) self.(attacking) self.(blocking)
  self.(block_direction) self.(attack_cooldown) v self.(attack_animation)
  self.(already_hit_in_current_attack) self.(attacking_with_right)
  self.(animation_state) self.(health) self.(max_health).

Definition set_attack_animation (v : Z) (self : t) : t :=
  mk self.(x) self.(y) self.(is_left) self.(body_type) self.(params)
  self.(moving_left) self.(moving_right) self.(attacking) self.(blocking)
  self.(block_direction) self.(attack_cooldown) self.(block_cooldown) v
  self.(already_hit_in_current_attack) self.(attacking_with_right)
  self.(animation_state) self.(health) self.(max_health).

Definition set_already_hit_in_current_attack (v : bool) (self : t) : t :=
  mk self.(x) self.(y) self.(is_left) self.(body_type) self.(params)
  self.(moving_left) self.(moving_right) self.(attacking) self.(blocking)
  self.(block_direction) self.(attack_cooldown) self.(block_cooldown)
  self.(attack_animation) v self.(attacking_with_right)
  self.(animation_state) self.(health) self.(max_health).

Definition set_attacking_with_right (v : bool) (self : t) : t :=
  mk self.(x) self.(y) self.(is_left) self.(body_type) self.(params)
  self.(moving_left) self.(moving_right) self.(attacking) self.(blocking)
  self.(block_direction) self.(attack_cooldown) self.(block_cooldown)
  self.(attack_animation) self.(already_hit_in_current_attack) v
  self.(animation_state) self.(health) self.(max_health).

Definition set_animation_state (v : AnimationState) (self : t) : t :=
  mk self.(x) self.(y) self.(is_left) self.(body_type) self.(params)
  self.(moving_left) self.(moving_right) self.(attacking) self.(blocking)
  self.(block_direction) self.(attack_cooldown) self.(block_cooldown)
  self.(attack_animation) self.(already_hit_in_current_attack)
  self.(attacking_with_right) v self.(health) self.(max_health).

Definition set_health (v : Z) (self : t) : t :=
  mk self.(x) self.(y) self.(is_left) self.(body_type) self.(params)
  self.(moving_left) self.(moving_right) self.(attacking) self.(blocking)
  self.(block_direction) self.(attack_cooldown) self.(block_cooldown)
  self.(attack_animation) self.(already_hit_in_current_attack)
  self.(attacking_with_right) self.(animation_state) v self.(max_health).

(** [Player.__init__]. *)
Definition init (x0 : Q) (y0 : Z) (is_left0 : bool) (bt : BodyType) : t :=
  let prm := BodyTypeParameters.get_parameters bt in
  mk x0 y0 is_left0 bt prm
     false false false false "left" 0 0 0 false true IDLE
     prm.(BodyParameters.health) prm.(BodyParameters.max_health).

(** [self.x + self.params.width // 2], the horizontal centre. *)
Definition center_x (self : t) : Q :=
  (self.(x) + inject_Z (self.(params).(BodyParameters.width) / 2))%Q.

(** The side of [opponent_x] relative to the centre, as [block] and
    [update] assign it to [block_direction]. *)
Definition side_of (opponent_x : Q) (self : t) : string :=
  if Qltb opponent_x (center_x self) then "left" else "right".

Definition determine_attack_hand (opponent_x : Q) (self : t) : t :=
  let self :=
    if Qltb opponent_x (center_x self)
    then set_attacking_with_right false self
    else set_attacking_with_right true self in
  if self.(attacking_with_right)
  then set_block_direction "left" self
  else set_block_direction "right" self.

Definition move_left (self : t) : t :=
  set_animation_state WALKING (set_moving_right false (set_moving_left true self)).

Definition move_right (self : t) : t :=
  set_animation_state WALKING (set_moving_left false (set_moving_right true self)).

Definition stop_moving (self : t) : t :=
  let self := set_moving_right false (set_moving_left false self) in
  if negb self.(attacking) && negb self.(blocking)
  then set_animation_state IDLE self
  else self.

Definition attack (opponent_x : Q) (self : t) : t :=
  if self.(attack_cooldown) <=? 0 then
    let self := determine_attack_hand opponent_x self in
    let self := set_attacking true self in
    let self := set_attack_animation 15 self in
    let self := set_attack_cooldown 30 self in
    let self := set_already_hit_in_current_attack false self in
    set_animation_state ATTACKING self
  else self.

Definition block (opponent_x : Q) (self : t) : t :=
  if self.(block_cooldown) <=? 0 then
    let self := set_block_direction (side_of opponent_x self) self in
    let self := set_blocking true self in
    let self := set_block_cooldown 40 self in
    set_animation_state BLOCKING self
  else self.

(** The four stages of [update], in source order. *)

(** Horizontal movement, gated on the current position, and the snap to
    the ground line. *)
Definition update_position (ground_y screen_width : Z) (self : t) : t :=
  let speed := self.(params).(BodyParameters.speed) in
  let self :=
    if self.(moving_left) && Qltb 0 self.(x)
    then set_x (self.(x) - speed)%Q self else self in
  let self :=
    if self.(moving_right)
       && Qltb self.(x)
            (inject_Z (screen_width - self.(params).(BodyParameters.width)))
    then set_x (self.(x) + speed)%Q self else self in
  set_y (ground_y - self.(params).(BodyParameters.height)) self.

(** The attack animation counter and the attack cooldown. *)
Definition update_attack (self : t) : t :=
  let self :=
    if self.(attacking) && (0 <? self.(attack_animation)) then
      let self := set_attack_animation (self.(attack_animation) - 1) self in
      if self.(attack_animation) <=? 0 then
        let self := set_attacking false self in
        let self := set_already_hit_in_current_attack false self in
        if negb self.(moving_left) && negb self.(moving_right)
        then set_animation_state IDLE self
        else self
      else self
    else self in
  if 0 <? self.(attack_cooldown)
  then set_attack_cooldown (self.(attack_cooldown) - 1) self
  else self.

(** The block cooldown, which also ends the block. *)
Definition update_block (self : t) : t :=
  if 0 <? self.(block_cooldown) then
    let self := set_block_cooldown (self.(block_cooldown) - 1) self in
    if self.(block_cooldown) <=? 0 then
      let self := set_blocking false self in
      if negb self.(moving_left) && negb self.(moving_right)
         && negb self.(attacking)
      then set_animation_state IDLE self
      else self
    else self
  else self.

(** A live block keeps facing the opponent. *)
Definition update_block_direction (opponent_x : option Q) (self : t) : t :=
  match opponent_x with
  | Some ox =>
      if self.(blocking)
      then set_block_direction (side_of ox self) self
      else self
  | None => self
  end.

Definition update (ground_y screen_width : Z) (opponent_x : option Q)
           (self : t) : t :=
  update_block_direction opponent_x
    (update_block
       (update_attack
          (update_position ground_y screen_width self))).

(** [take_damage(damage=None)]: the returned boolean and the new state. *)
Definition take_damage (damage : option Z) (self : t) : bool * t :=
  if negb self.(blocking) then
    let damage :=
      match damage with
      | None => self.(params).(BodyParameters.damage)
      | Some d => d
      end in
    let self := set_health (Z.max 0 (self.(health) - damage)) self in
    (true, set_animation_state HURT self)
  else (false, self).

Definition heal (amount : Z) (self : t) : t :=
  set_health (Z.min self.(max_health) (self.(health) + amount)) self.

(** *** Collision geometry *)

(** One entry of [arm_positions]: [current_x] and [current_y]. *)
Record arm : Type := mk_arm {
  current_x : Q;
  current_y : Q
}.

(** The dictionary [arm_positions], which only [update_body_parts]
    writes.  [__init__] and [update] call [update_body_parts] as their
    last statement; [attack], [block] and the other methods do not, so
    between two updates the pose is the one of the last update.  The pose
    is kept beside the record [t]: [update_body_parts] returns it and
    [get_attack_rect] takes it. *)
Record arm_positions : Type := mk_arms {
  left_upper : arm;
  left_lower : arm;
  right_upper : arm;
  right_lower : arm
}.

(** [update_body_parts], as far as it writes [arm_positions]; the rest
    of it builds drawing data.  Python computes the pose in binary
    floating point and the embedding in exact rationals; the two can
    part only where a coordinate handed to [pygame.Rect] is exactly an
    integer, and then by one pixel. *)
Definition update_body_parts (self : t) : arm_positions :=
  (let center_x := center_x self in
  let base_y := inject_Z self.(y) in
  let attack_progress :=
    if self.(attacking)
    then inject_Z self.(attack_animation) / inject_Z 15
    else 0 in
  let attack_strength := 1 - Qabs (attack_progress - (5 # 10)) * 2 in
  let left_shoulder_x :=
    center_x
    - inject_Z (self.(params).(BodyParameters.shoulder_width) / 2)
    + 5 in
  let right_shoulder_x :=
    center_x
    + inject_Z (self.(params).(BodyParameters.shoulder_width) / 2)
    - 5 in
  let shoulder_y := base_y + 5 in
  let arm_length := inject_Z self.(params).(BodyParameters.arm_length) in
  if self.(attacking) then
    if self.(attacking_with_right) then
      let attack_offset_x := 50 * attack_strength in
      let attack_offset_y := - (20) * attack_strength in
      mk_arms
        (mk_arm (left_shoulder_x - 10) (shoulder_y + 5))
        (mk_arm (left_shoulder_x - 20) (shoulder_y + 30))
        (mk_arm (right_shoulder_x + attack_offset_x * (3 # 10))
                (shoulder_y + attack_offset_y * (3 # 10)))
        (mk_arm (right_shoulder_x + attack_offset_x * (7 # 10))
                (shoulder_y + attack_offset_y * (7 # 10)))
    else
      let attack_offset_x := - (50) * attack_strength in
      let attack_offset_y := - (20) * attack_strength in
      mk_arms
        (mk_arm (left_shoulder_x + attack_offset_x * (3 # 10))
                (shoulder_y + attack_offset_y * (3 # 10)))
        (mk_arm (left_shoulder_x + attack_offset_x * (7 # 10))
                (shoulder_y + attack_offset_y * (7 # 10)))
        (mk_arm (right_shoulder_x + 10) (shoulder_y + 5))
        (mk_arm (right_shoulder_x + 20) (shoulder_y + 30))
  else
    mk_arms
      (mk_arm left_shoulder_x shoulder_y)
      (mk_arm left_shoulder_x (shoulder_y + arm_length * (6 # 10)))
      (mk_arm right_shoulder_x shoulder_y)
      (mk_arm right_shoulder_x (shoulder_y + arm_length * (6 # 10))))%Q.

(** [get_rect]: the body with the head above it. *)
Definition get_rect (self : t) : Rect.t :=
  Rect.of_floats
    self.(x)
    (inject_Z (self.(y) - self.(params).(BodyParameters.head_radius) * 2))
    (inject_Z self.(params).(BodyParameters.width))
    (inject_Z (self.(params).(BodyParameters.height)
               + self.(params).(BodyParameters.head_radius) * 2)).

(** [get_attack_rect]: a 30 by 30 box around the tip of the striking
    hand, as [arm_positions] has it; empty when not attacking. *)
Definition get_attack_rect (self : t) (arms : arm_positions) : Rect.t :=
  if negb self.(attacking) then Rect.mk 0 0 0 0
  else
    let arm_length := inject_Z self.(params).(BodyParameters.arm_length) in
    let hand :=
      if self.(attacking_with_right)
      then arms.(right_lower)
      else arms.(left_lower) in
    let hand_x := hand.(current_x) in
    let hand_y := (hand.(current_y) + arm_length * (4 # 10))%Q in
    Rect.of_floats (hand_x - 15)%Q (hand_y - 15)%Q 30%Q 30%Q.

End Player.

Module Bot.

(** [class Bot(Player)]: the inherited fighter and the attributes the
    subclass adds. *)
Record t : Type := mk {
  as_player : Player.t;
  decision_cooldown : Z;
  difficulty : string;
  last_action : option string;
  aggression : Q;
  caution : Q;
  reaction_time : Z
}.

Definition set_as_player (v : Player.t) (self : t) : t :=
  mk v self.(decision_cooldown) self.(difficulty) self.(last_action)
     self.(aggression) self.(caution) self.(reaction_time).

Definition set_decision_cooldown (v : Z) (self : t) : t :=
  mk self.(as_player) v self.(difficulty) self.(last_action)
     self.(aggression) self.(caution) self.(reaction_time).

Definition set_last_action (v : string) (self : t) : t :=
  mk self.(as_player) self.(decision_cooldown) self.(difficulty) (Some v)
     self.(aggression) self.(caution) self.(reaction_time).

Definition set_aggression (v : Q) (self : t) : t :=
  mk self.(as_player) self.(decision_cooldown) self.(difficulty)
     self.(last_action) v self.(caution) self.(reaction_time).

Definition set_caution (v : Q) (self : t) : t :=
  mk self.(as_player) self.(decision_cooldown) self.(difficulty)
     self.(last_action) self.(aggression) v self.(reaction_time).

(** An inherited [Player] method called on the bot. *)
Definition inherited (f : Player.t -> Player.t) (self : t) : t :=
  set_as_player (f self.(as_player)) self.

(** The rows of [difficulty_settings]: aggression, caution, reaction time.
    An unknown name falls back to the ["medium"] row. *)
Definition difficulty_settings (name : string) : Q * Q * Z :=
  if String.eqb name "easy" then (4 # 10, 7 # 10, 40)
  else if String.eqb name "medium" then (6 # 10, 4 # 10, 25)
  else if String.eqb name "hard" then (8 # 10, 2 # 10, 15)
  else if String.eqb name "insane" then (9 # 10, 1 # 10, 8)
  else (6 # 10, 4 # 10, 25).

Definition set_difficulty (name : string) (self : t) : t :=
  let '(a, c, r) := difficulty_settings name in
  mk self.(as_player) self.(decision_cooldown) self.(difficulty)
     self.(last_action) a c r.

(** [Bot.__init__]. *)
Definition init (x0 : Q) (y0 : Z) (is_left0 : bool) (bt : BodyType)
           (name : string) : t :=
  set_difficulty name
    (mk (Player.init x0 y0 is_left0 bt) 0 name None 0 0 0).

(** The argument [player] of [make_decision] is whatever fighter the
    caller passes; only a [Bot] carries a [last_action] attribute. *)
Inductive fighter : Type :=
| a_player (p : Player.t)
| a_bot (b : t).

Definition fighter_x (f : fighter) : Q :=
  match f with
  | a_player p => p.(Player.x)
  | a_bot b => b.(as_player).(Player.x)
  end.

(** [player.last_action] where [hasattr(player, 'last_action')] holds. *)
Definition fighter_last_action (f : fighter) : option (option string) :=
  match f with
  | a_player _ => None
  | a_bot b => Some b.(last_action)
  end.

Definition is_action (name : string) (a : option string) : bool :=
  match a with
  | Some s => String.eqb s name
  | None => false
  end.

(** The step towards or away from the opponent that the source spells
    [if player_is_left: move_left() else: move_right()]. *)
Definition move_by (player_is_left : bool) (self : t) : t :=
  if player_is_left
  then inherited Player.move_left self
  else inherited Player.move_right self.

Local Open Scope rand_scope.
Import Random.

(** The branch for [distance < 80]. *)
Definition decide_very_close (px : Q) (player_is_left : bool) (self : t)
  : M t :=
  r1 <- random ;;
  if Qltb r1 (self.(aggression) * (12 # 10)) then
    r2 <- random ;;
    if Qltb r2 (8 # 10)
    then ret (set_last_action "attack" (inherited (Player.attack px) self))
    else ret (set_last_action "block" (inherited (Player.block px) self))
  else
    r3 <- random ;;
    if Qltb r3 (self.(caution) * (8 # 10))
    then ret (set_last_action "retreat" (move_by player_is_left self))
    else ret (set_last_action "wait" self).

(** The branch for [distance < 150]. *)
Definition decide_close (px : Q) (player_is_left : bool) (self : t)
  : M t :=
  r1 <- random ;;
  if Qltb r1 self.(aggression) then
    r2 <- random ;;
    if Qltb r2 (6 # 10)
    then ret (set_last_action "attack" (inherited (Player.attack px) self))
    else ret (set_last_action "advance" (move_by player_is_left self))
  else
    r3 <- random ;;
    if Qltb r3 self.(caution)
    then ret (set_last_action "block" (inherited (Player.block px) self))
    else ret (set_last_action "positioning" (move_by player_is_left self)).

(** The branch for [distance < 250]. *)
Definition decide_medium (px : Q) (player_is_left : bool) (self : t)
  : M t :=
  r1 <- random ;;
  if Qltb r1 (6 # 10)
  then ret (set_last_action "advance" (move_by player_is_left self))
  else
    r2 <- random ;;
    if Qltb r2 (3 # 10)
    then ret (set_last_action "prepare" (inherited (Player.block px) self))
    else ret (set_last_action "wait" self).

(** The branch for the far distance. *)
Definition decide_far (player_is_left : bool) (self : t) : M t :=
  r1 <- random ;;
  if Qltb r1 (8 # 10)
  then ret (set_last_action "advance" (move_by player_is_left self))
  else ret (set_last_action "wait" self).

(** The adaptation to the bot's own health; [health_percentage] is
    [self.health / self.max_health]. *)
Definition adapt_to_health (health_percentage : Q) (self : t) : t :=
  if Qltb health_percentage (3 # 10) then
    let self :=
      set_aggression (Qmin (95 # 100) (self.(aggression) + (2 # 10))) self in
    set_caution (Qmax (5 # 100) (self.(caution) - (1 # 10))) self
  else if Qltb health_percentage (6 # 10) then
    let self :=
      set_aggression (Qmin (8 # 10) (self.(aggression) + (1 # 10))) self in
    set_caution (Qmax (2 # 10) (self.(caution) - (5 # 100))) self
  else self.

(** The adaptation to the opponent's last action. *)
Definition adapt_to_opponent (player : fighter) (player_is_left : bool)
           (self : t) : M t :=
  match fighter_last_action player with
  | None => ret self
  | Some a =>
      if is_action "attack" a then
        r <- random ;;
        if Qltb r (7 # 10)
        then ret (set_last_action "counter_block"
                    (inherited (Player.block (fighter_x player)) self))
        else ret self
      else if is_action "block" a then
        r <- random ;;
        if Qltb r (6 # 10)
        then ret (set_last_action "flank"
                    (move_by (negb player_is_left) self))
        else ret self
      else ret self
  end.

Definition make_decision (player : fighter) (screen_width : Z) (self : t)
  : M (outcome * t) :=
  if 0 <? self.(decision_cooldown) then
    ret (Returned, set_decision_cooldown (self.(decision_cooldown) - 1) self)
  else
    let px := fighter_x player in
    let distance := Qabs (self.(as_player).(Player.x) - px) in
    let player_is_left := Qltb px self.(as_player).(Player.x) in
    let self := inherited Player.stop_moving self in
    let self := inherited (Player.set_attacking false) self in
    let self := inherited (Player.set_blocking false) self in
    self <- (if Qltb distance (inject_Z 80)
             then decide_very_close px player_is_left self
             else if Qltb distance (inject_Z 150)
             then decide_close px player_is_left self
             else if Qltb distance (inject_Z 250)
             then decide_medium px player_is_left self
             else decide_far player_is_left self) ;;
    if self.(as_player).(Player.max_health) =? 0
    then ret (Raised ZeroDivisionError, self)
    else
      let health_percentage :=
        (inject_Z self.(as_player).(Player.health)
         / inject_Z self.(as_player).(Player.max_health))%Q in
      let self := adapt_to_health health_percentage self in
      self <- adapt_to_opponent player player_is_left self ;;
      cooldown <- randint (Z.max 5 (self.(reaction_time) - 5))
                          (Z.min 30 (self.(reaction_time) + 5)) ;;
      match cooldown with
      | Some c => ret (Returned, set_decision_cooldown c self)
      | None => ret (Raised ValueError, self)
      end.

(** [Bot.update]: the inherited update, then the low-health reflex block.
    The draw is made only when the health test holds. *)
Definition update (ground_y screen_width : Z) (opponent_x : option Q)
           (self : t) : M t :=
  let self :=
    inherited (Player.update ground_y screen_width opponent_x) self in
  if Qltb (inject_Z self.(as_player).(Player.health))
          (inject_Z self.(as_player).(Player.max_health) * (3 # 10))
  then
    r <- random ;;
    if Qltb r (3 # 10) then
      match opponent_x with
      | Some ox => ret (inherited (Player.block ox) self)
      | None => ret self
      end
    else ret self
  else ret self.

End Bot.

(** ** The modular implementation: [settings.py] *)

Module VideoSettings.

Record t : Type := mk {
  screen_width : Z;
  screen_height : Z;
  fullscreen : bool;
  borderless : bool;
  vsync : bool;
  fps_limit : Z
}.

(** [__post_init__]. *)
Definition post_init (self : t) : t :=
  mk (Z.max 800 self.(screen_width)) (Z.max 600 self.(screen_height))
     self.(fullscreen) self.(borderless) self.(vsync)
     (Z.max 30 (Z.min 240 self.(fps_limit))).

(** [VideoSettings()]: the defaults of the dataclass. *)
Definition default : t := post_init (mk 1024 768 false false true 60).

End VideoSettings.

Module Settings.

(** The video part of [Settings] and its table of resolutions; the audio,
    gameplay and control parts are left out. *)
Record t : Type := mk {
  video : VideoSettings.t;
  available_resolutions : list (Z * Z)
}.

(** [Settings.__init__] when there is no settings file to load. *)
Definition init : t :=
  mk VideoSettings.default
     [(800, 600); (1024, 768); (1280, 720); (1366, 768); (1600, 900);
      (1920, 1080); (2560, 1440)].

(** Every name a [Settings] object answers to: the attributes
    [__init__] binds, the property [current_resolution] and the methods
    of the class.  Looking up any other name raises [AttributeError]; the
    sizes and the display modes are attributes of [video], not of the
    object itself. *)
Definition attributes : list string :=
  [ "audio"; "video"; "gameplay"; "controls"; "available_resolutions";
    "settings_file"; "current_resolution"; "set_resolution";
    "set_fullscreen"; "set_borderless"; "save"; "load";
    "reset_to_defaults"; "get_available_resolutions";
    "get_resolution_index"; "set_resolution_by_index" ].

(** [hasattr(settings, name)]. *)
Definition hasattr (name : string) : bool :=
  existsb (String.eqb name) attributes.

Definition set_resolution (width height : Z) (self : t) : t :=
  let v := self.(video) in
  mk (VideoSettings.mk width height v.(VideoSettings.fullscreen)
        v.(VideoSettings.borderless) v.(VideoSettings.vsync)
        v.(VideoSettings.fps_limit))
     self.(available_resolutions).

Definition set_fullscreen (fullscreen : bool) (self : t) : t :=
  let v := self.(video) in
  mk (VideoSettings.mk v.(VideoSettings.screen_width)
        v.(VideoSettings.screen_height) fullscreen
        (if fullscreen then false else v.(VideoSettings.borderless))
        v.(VideoSettings.vsync) v.(VideoSettings.fps_limit))
     self.(available_resolutions).

Definition set_borderless (borderless : bool) (self : t) : t :=
  let v := self.(video) in
  mk (VideoSettings.mk v.(VideoSettings.screen_width)
        v.(VideoSettings.screen_height)
        (if borderless then false else v.(VideoSettings.fullscreen))
        borderless
        v.(VideoSettings.vsync) v.(VideoSettings.fps_limit))
     self.(available_resolutions).

(** Python's [list.index] on the table: the position of the first equal
    pair; [None] is [ValueError]. *)
Fixpoint index (current : Z * Z) (l : list (Z * Z)) : option Z :=
  match l with
  | [] => None
  | r :: rest =>
      if (fst r =? fst current) && (snd r =? snd current) then Some 0
      else
        match index current rest with
        | Some i => Some (i + 1)
        | None => None
        end
  end.

Definition get_resolution_index (self : t) : Z :=
  let current :=
    (self.(video).(VideoSettings.screen_width),
     self.(video).(VideoSettings.screen_height)) in
  match index current self.(available_resolutions) with
  | Some i => i
  | None => 1
  end.

(** [set_resolution_by_index]: the returned flag and the settings.  The
    index is in range when the table is read, so the [IndexError] of
    [getitem] does not occur. *)
Definition set_resolution_by_index (index : Z) (self : t) : bool * t :=
  if (0 <=? index)
     && (index <? Z.of_nat (List.length self.(available_resolutions)))
  then
    match getitem self.(available_resolutions) index with
    | Some (width, height) => (true, set_resolution width height self)
    | None => (false, self)
    end
  else (false, self).

End Settings.

(** ** The modular implementation: [HitEffect] of [game_state.py] *)

Module HitEffect.

(** The colours of an effect are left out. *)
Record t : Type := mk {
  x : Q;
  y : Z;
  effect_type : string;
  timer : Z;
  max_timer : Z;
  size : Z
}.

Definition init (x0 : Q) (y0 : Z) (effect_type0 : string) : t :=
  mk x0 y0 effect_type0 15 15 35.

(** [update]: the returned flag and the effect. *)
Definition update (self : t) : bool * t :=
  let self :=
    mk self.(x) self.(y) self.(effect_type) (self.(timer) - 1)
       self.(max_timer) self.(size) in
  (0 <? self.(timer), self).

End HitEffect.

(** ** The modular implementation: the resolver of [game_state.py] *)

Module Game.

(** [Game.check_block]. *)
Definition check_block (defender attacker : Player.t) : bool :=
  if negb defender.(Player.blocking) then false
  else if attacker.(Player.attacking_with_right) then
    String.eqb defender.(Player.block_direction) "right"
    && Qltb attacker.(Player.x) defender.(Player.x)
  else
    String.eqb defender.(Player.block_direction) "left"
    && Qltb defender.(Player.x) attacker.(Player.x).

(** The arguments of [create_hit_effect] read [defender.width] and
    [defender.height] on the [Player] object itself. *)
Definition effect_position_readable : bool :=
  Player.hasattr "width" && Player.hasattr "height".

(** One half of [check_collisions]: the attack of [attacker] on
    [defender].  [hit] is the value of
    [attacker.get_attack_rect().colliderect(defender.get_rect())].
    The appended [HitEffect] and the [match_stats] counters are
    presentation state of [Game] and are not tracked. *)
Definition resolve_attack (hit : bool) (attacker defender : Player.t)
  : outcome * (Player.t * Player.t) :=
  if attacker.(Player.attacking)
     && negb attacker.(Player.already_hit_in_current_attack)
     && hit
  then
    if check_block defender attacker then
      let attacker :=
        Player.set_already_hit_in_current_attack true attacker in
      if effect_position_readable
      then (Returned, (attacker, defender))
      else (Raised AttributeError, (attacker, defender))
    else
      let (damage_dealt, defender) := Player.take_damage None defender in
      if damage_dealt then
        if effect_position_readable
        then (Returned,
              (Player.set_already_hit_in_current_attack true attacker,
               defender))
        else (Raised AttributeError, (attacker, defender))
      else (Returned, (attacker, defender))
  else (Returned, (attacker, defender)).

(** [Game.check_collisions]: first the attack of [player1], then the
    attack of [player2]; an exception of the first half skips the
    second. *)
Definition check_collisions (hit12 hit21 : bool)
           (player1 player2 : Player.t)
  : outcome * (Player.t * Player.t) :=
  match resolve_attack hit12 player1 player2 with
  | (Raised e, st) => (Raised e, st)
  | (Returned, (player1, player2)) =>
      let '(o, (player2, player1)) :=
        resolve_attack hit21 player2 player1 in
      (o, (player1, player2))
  end.

(** [Game.update_hit_effects]: the comprehension keeps the effects whose
    [update()] returns true, as [update()] has left them. *)
Definition update_hit_effects (hit_effects : list HitEffect.t)
  : list HitEffect.t :=
  flat_map (fun effect =>
              let (alive, effect) := HitEffect.update effect in
              if alive then [effect] else [])
           hit_effects.

(** The rectangle test of [check_collisions],
    [attacker.get_attack_rect().colliderect(defender.get_rect())], for an
    attacker whose [arm_positions] are [arms]. *)
Definition attack_meets (attacker : Player.t)
           (arms : Player.arm_positions) (defender : Player.t) : bool :=
  Rect.colliderect (Player.get_attack_rect attacker arms)
                   (Player.get_rect defender).

(** The two updates and the resolver of [update_pvp_mode], for a given
    screen width.  The resolver changes nothing the rectangles depend
    on, so both tests are taken on the fighters as updated. *)
Definition pvp_frame (ground_y screen_width : Z)
           (player1 player2 : Player.t)
  : outcome * (Player.t * Player.t) :=
  let player1 :=
    Player.update ground_y screen_width (Some player2.(Player.x))
      player1 in
  let arms1 := Player.update_body_parts player1 in
  let player2 :=
    Player.update ground_y screen_width (Some player1.(Player.x))
      player2 in
  let arms2 := Player.update_body_parts player2 in
  check_collisions (attack_meets player1 arms1 player2)
                   (attack_meets player2 arms2 player1)
                   player1 player2.

(** [self.settings.screen_width].  The [Settings] of [settings.py]
    keeps the width in [video] and has no attribute of that name, so
    the lookup raises [AttributeError] ([None]). *)
Definition settings_screen_width (settings : Settings.t) : option Z :=
  if Settings.hasattr "screen_width"
  then Some settings.(Settings.video).(VideoSettings.screen_width)
  else None.

(** [Game.update_pvp_mode]: the arguments of the first [update] are
    evaluated before any fighter is touched, and the read of the screen
    width among them raises. *)
Definition update_pvp_mode (settings : Settings.t) (ground_y : Z)
           (player1 player2 : Player.t)
  : outcome * (Player.t * Player.t) :=
  match settings_screen_width settings with
  | Some screen_width => pvp_frame ground_y screen_width player1 player2
  | None => (Raised AttributeError, (player1, player2))
  end.

Local Open Scope rand_scope.
Import Random.

(** The updates, the decision and the resolver of [update_pvb_mode], for
    a given screen width.  The pose of the bot is the one of its update:
    [make_decision] does not call [update_body_parts]. *)
Definition pvb_frame (ground_y screen_width : Z)
           (player1 : Player.t) (bot : Bot.t)
  : M (outcome * (Player.t * Bot.t)) :=
  let player1 :=
    Player.update ground_y screen_width
      (Some bot.(Bot.as_player).(Player.x)) player1 in
  let arms1 := Player.update_body_parts player1 in
  let arms2 :=
    Player.update_body_parts
      (Player.update ground_y screen_width (Some player1.(Player.x))
         bot.(Bot.as_player)) in
  bot <- Bot.update ground_y screen_width (Some player1.(Player.x)) bot ;;
  r <- Bot.make_decision (Bot.a_player player1) screen_width bot ;;
  match r with
  | (Raised e, bot) => ret (Raised e, (player1, bot))
  | (Returned, bot) =>
      let '(o, (player1, p2)) :=
        check_collisions
          (attack_meets player1 arms1 bot.(Bot.as_player))
          (attack_meets bot.(Bot.as_player) arms2 player1)
          player1 bot.(Bot.as_player) in
      ret (o, (player1, Bot.set_as_player p2 bot))
  end.

(** [Game.update_pvb_mode]: it reads the screen width first as well. *)
Definition update_pvb_mode (settings : Settings.t) (ground_y : Z)
           (player1 : Player.t) (bot : Bot.t)
  : M (outcome * (Player.t * Bot.t)) :=
  match settings_screen_width settings with
  | Some screen_width => pvb_frame ground_y screen_width player1 bot
  | None => ret (Raised AttributeError, (player1, bot))
  end.

End Game.

(** ** The monolithic implementation: [duelist_game.py] *)

Module Duelist.

(** [class Settings] of the monolith. *)
Module Settings.

Record t : Type := mk {
  screen_width : Z;
  screen_height : Z;
  fullscreen : bool;
  borderless : bool;
  current_resolution : Z * Z;
  available_resolutions : list (Z * Z)
}.

Definition init : t :=
  mk 1024 768 false false (1024, 768)
     [(800, 600); (1024, 768); (1280, 720); (1366, 768); (1600, 900);
      (1920, 1080); (2560, 1440)].

Definition set_resolution (width height : Z) (self : t) : t :=
  mk width height self.(fullscreen) self.(borderless) (width, height)
     self.(available_resolutions).

Definition set_fullscreen (fullscreen0 : bool) (self : t) : t :=
  mk self.(screen_width) self.(screen_height) fullscreen0 false
     self.(current_resolution) self.(available_resolutions).

Definition set_borderless (borderless0 : bool) (self : t) : t :=
  mk self.(screen_width) self.(screen_height) false borderless0
     self.(current_resolution) self.(available_resolutions).

End Settings.

Module Player.

(** The instance attributes of the monolithic [Player]: here
    [set_body_parameters] stores the geometry on the object itself. *)
Record t : Type := mk {
  x : Q;
  y : Z;
  is_left : bool;
  body_type : BodyType;
  width : Z;
  height : Z;
  speed : Q;
  health : Z;
  max_health : Z;
  head_radius : Z;
  shoulder_width : Z;
  waist_width : Z;
  arm_thickness : Z;
  leg_thickness : Z;
  arm_length : Z;
  moving_left : bool;
  moving_right : bool;
  attacking : bool;
  blocking : bool;
  block_direction : string;
  attack_cooldown : Z;
  block_cooldown : Z;
  attack_animation : Z;
  already_hit_in_current_attack : bool;
  attacking_with_right : bool
}.

Definition set_x (v : Q) (self : t) : t :=
  mk v self.(y) self.(is_left) self.(body_type) self.(width) self.(height)
  self.(speed) self.(health) self.(max_health) self.(head_radius)
  self.(shoulder_width) self.(waist_width) self.(arm_thickness)
  self.(leg_thickness) self.(arm_length) self.(moving_left)
  self.(moving_right) self.(attacking) self.(blocking)
  self.(block_direction) self.(attack_cooldown) self.(block_cooldown)
  self.(attack_animation) self.(already_hit_in_current_attack)
  self.(attacking_with_right).

Definition set_y (v : Z) (self : t) : t :=
  mk self.(x) v self.(is_left) self.(body_type) self.(width) self.(height)
  self.(speed) self.(health) self.(max_health) self.(head_radius)
  self.(shoulder_width) self.(waist_width) self.(arm_thickness)
  self.(leg_thickness) self.(arm_length) self.(moving_left)
  self.(moving_right) self.(attacking) self.(blocking)
  self.(block_direction) self.(attack_cooldown) self.(block_cooldown)
  self.(attack_animation) self.(already_hit_in_current_attack)
  self.(attacking_with_right).

Definition set_health (v : Z) (self : t) : t :=
  mk self.(x) self.(y) self.(is_left) self.(body_type) self.(width)
  self.(height) self.(speed) v self.(max_health) self.(head_radius)
  self.(shoulder_width) self.(waist_width) self.(arm_thickness)
  self.(leg_thickness) self.(arm_length) self.(moving_left)
  self.(moving_right) self.(attacking) self.(blocking)
  self.(block_direction) self.(attack_cooldown) self.(block_cooldown)
  self.(attack_animation) self.(already_hit_in_current_attack)
  self.(attacking_with_right).

Definition set_moving_left (v : bool) (self : t) : t :=
  mk self.(x) self.(y) self.(is_left) self.(body_type) self.(width)
  self.(height) self.(speed) self.(health) self.(max_health)
  self.(head_radius) self.(shoulder_width) self.(waist_width)
  self.(arm_thickness) self.(leg_thickness) self.(arm_length) v
  self.(moving_right) self.(attacking) self.(blocking)
  self.(block_direction) self.(attack_cooldown) self.(block_cooldown)
  self.(attack_animation) self.(already_hit_in_current_attack)
  self.(attacking_with_right).

Definition set_moving_right (v : bool) (self : t) : t :=
  mk self.(x) self.(y) self.(is_left) self.(body_type) self.(width)
  self.(height) self.(speed) self.(health) self.(max_health)
  self.(head_radius) self.(shoulder_width) self.(waist_width)
  self.(arm_thickness) self.(leg_thickness) self.(arm_length)
  self.(moving_left) v self.(attacking) self.(blocking)
  self.(block_direction) self.(attack_cooldown) self.(block_cooldown)
  self.(attack_animation) self.(already_hit_in_current_attack)
  self.(attacking_with_right).

Definition set_attacking (v : bool) (self : t) : t :=
  mk self.(x) self.(y) self.(is_left) self.(body_type) self.(width)
  self.(height) self.(speed) self.(health) self.(max_health)
  self.(head_radius) self.(shoulder_width) self.(waist_width)
  self.(arm_thickness) self.(leg_thickness) self.(arm_length)
  self.(moving_left) self.(moving_right) v self.(blocking)
  self.(block_direction) self.(attack_cooldown) self.(block_cooldown)
  self.(attack_animation) self.(already_hit_in_current_attack)
  self.(attacking_with_right).

Definition set_blocking (v : bool) (self : t) : t :=
  mk self.(x) self.(y) self.(is_left) self.(body_type) self.(width)
  self.(height) self.(speed) self.(health) self.(max_health)
  self.(head_radius) self.(shoulder_width) self.(waist_width)
  self.(arm_thickness) self.(leg_thickness) self.(arm_length)
  self.(moving_left) self.(moving_right) self.(attacking) v
  self.(block_direction) self.(attack_cooldown) self.(block_cooldown)
  self.(attack_animation) self.(already_hit_in_current_attack)
  self.(attacking_with_right).

Definition set_block_direction (v : string) (self : t) : t :=
  mk self.(x) self.(y) self.(is_left) self.(body_type) self.(width)
  self.(height) self.(speed) self.(health) self.(max_health)
  self.(head_radius) self.(shoulder_width) self.(waist_width)
  self.(arm_thickness) self.(leg_thickness) self.(arm_length)
  self.(moving_left) self.(moving_right) self.(attacking) self.(blocking)
  v self.(attack_cooldown) self.(block_cooldown) self.(attack_animation)
  self.(already_hit_in_current_attack) self.(attacking_with_right).

Definition set_attack_cooldown (v : Z) (self : t) : t :=
  mk self.(x) self.(y) self.(is_left) self.(body_type) self.(width)
  self.(height) self.(speed) self.(health) self.(max_health)
  self.(head_radius) self.(shoulder_width) self.(waist_width)
  self.(arm_thickness) self.(leg_thickness) self.(arm_length)
  self.(moving_left) self.(moving_right) self.(attacking) self.(blocking)
  self.(block_direction) v self.(block_cooldown) self.(attack_animation)
  self.(already_hit_in_current_attack) self.(attacking_with_right).

Definition set_block_cooldown (v : Z) (self : t) : t :=
  mk self.(x) self.(y) self.(is_left) self.(body_type) self.(width)
  self.(height) self.(speed) self.(health) self.(max_health)
  self.(head_radius) self.(shoulder_width) self.(waist_width)
  self.(arm_thickness) self.(leg_thickness) self.(arm_length)
  self.(moving_left) self.(moving_right) self.(attacking) self.(blocking)
  self.(block_direction) self.(attack_cooldown) v self.(attack_animation)
  self.(already_hit_in_current_attack) self.(attacking_with_right).

Definition set_attack_animation (v : Z) (self : t) : t :=
  mk self.(x) self.(y) self.(is_left) self.(body_type) self.(width)
  self.(height) self.(speed) self.(health) self.(max_health)
  self.(head_radius) self.(shoulder_width) self.(waist_width)
  self.(arm_thickness) self.(leg_thickness) self.(arm_length)
  self.(moving_left) self.(moving_right) self.(attacking) self.(blocking)
  self.(block_direction) self.(attack_cooldown) self.(block_cooldown) v
  self.(already_hit_in_current_attack) self.(attacking_with_right).

Definition set_already_hit_in_current_attack (v : bool) (self : t) : t :=
  mk self.(x) self.(y) self.(is_left) self.(body_type) self.(width)
  self.(height) self.(speed) self.(health) self.(max_health)
  self.(head_radius) self.(shoulder_width) self.(waist_width)
  self.(arm_thickness) self.(leg_thickness) self.(arm_length)
  self.(moving_left) self.(moving_right) self.(attacking) self.(blocking)
  self.(block_direction) self.(attack_cooldown) self.(block_cooldown)
  self.(attack_animation) v self.(attacking_with_right).

Definition set_attacking_with_right (v : bool) (self : t) : t :=
  mk self.(x) self.(y) self.(is_left) self.(body_type) self.(width)
  self.(height) self.(speed) self.(health) self.(max_health)
  self.(head_radius) self.(shoulder_width) self.(waist_width)
  self.(arm_thickness) self.(leg_thickness) self.(arm_length)
  self.(moving_left) self.(moving_right) self.(attacking) self.(blocking)
  self.(block_direction) self.(attack_cooldown) self.(block_cooldown)
  self.(attack_animation) self.(already_hit_in_current_attack) v.

(** [set_body_parameters] followed by the rest of [__init__]. *)
Definition init (x0 : Q) (y0 : Z) (is_left0 : bool) (bt : BodyType) : t :=
  let body (w h : Z) (s : Q) (hp hr sw ww at_ lt_ al : Z) : t :=
    mk x0 y0 is_left0 bt w h s hp hp hr sw ww at_ lt_ al
       false false false false "left" 0 0 0 false true in
  match bt with
  | ATHLETIC => body 52 130 (55 # 10) 100 18 45 40 16 18 55
  | LEAN => body 42 140 (6 # 1) 90 16 35 32 12 14 60
  | HEAVY => body 65 125 (45 # 10) 120 22 55 50 20 22 50
  | SUMO => body 75 115 (35 # 10) 150 25 60 70 18 20 45
  | NINJA => body 45 135 (65 # 10) 85 17 38 35 13 15 65
  | ROBOTIC => body 58 145 (5 # 1) 110 20 50 45 17 19 58
  end.

Definition center_x (self : t) : Q :=
  (self.(x) + inject_Z (self.(width) / 2))%Q.

Definition side_of (opponent_x : Q) (self : t) : string :=
  if Qltb opponent_x (center_x self) then "left" else "right".

Definition determine_attack_hand (opponent_x : Q) (self : t) : t :=
  let self :=
    if Qltb opponent_x (center_x self)
    then set_attacking_with_right false self
    else set_attacking_with_right true self in
  if self.(attacking_with_right)
  then set_block_direction "left" self
  else set_block_direction "right" self.

Definition move_left (self : t) : t :=
  set_moving_right false (set_moving_left true self).

Definition move_right (self : t) : t :=
  set_moving_left false (set_moving_right true self).

Definition stop_moving (self : t) : t :=
  set_moving_right false (set_moving_left false self).

Definition attack (opponent_x : Q) (self : t) : t :=
  if self.(attack_cooldown) <=? 0 then
    let self := determine_attack_hand opponent_x self in
    let self := set_attacking true self in
    let self := set_attack_animation 15 self in
    let self := set_attack_cooldown 30 self in
    set_already_hit_in_current_attack false self
  else self.

Definition block (opponent_x : Q) (self : t) : t :=
  if self.(block_cooldown) <=? 0 then
    let self := set_block_direction (side_of opponent_x self) self in
    let self := set_blocking true self in
    set_block_cooldown 40 self
  else self.

Definition update_position (ground_y screen_width : Z) (self : t) : t :=
  let self :=
    if self.(moving_left) && Qltb 0 self.(x)
    then set_x (self.(x) - self.(speed))%Q self else self in
  let self :=
    if self.(moving_right)
       && Qltb self.(x) (inject_Z (screen_width - self.(width)))
    then set_x (self.(x) + self.(speed))%Q self else self in
  set_y (ground_y - self.(height)) self.

Definition update_attack (self : t) : t :=
  let self :=
    if self.(attacking) && (0 <? self.(attack_animation)) then
      let self :=
        set_attack_animation (self.(attack_animation) - 1) self in
      if self.(attack_animation) <=? 0
      then set_already_hit_in_current_attack false
             (set_attacking false self)
      else self
    else self in
  if 0 <? self.(attack_cooldown)
  then set_attack_cooldown (self.(attack_cooldown) - 1) self
  else self.

Definition update_block (self : t) : t :=
  if 0 <? self.(block_cooldown) then
    let self := set_block_cooldown (self.(block_cooldown) - 1) self in
    if self.(block_cooldown) <=? 0
    then set_blocking false self
    else self
  else self.

Definition update_block_direction (opponent_x : option Q) (self : t)
  : t :=
  match opponent_x with
  | Some ox =>
      if self.(blocking)
      then set_block_direction (side_of ox self) self
      else self
  | None => self
  end.

Definition update (ground_y screen_width : Z) (opponent_x : option Q)
           (self : t) : t :=
  update_block_direction opponent_x
    (update_block
       (update_attack
          (update_position ground_y screen_width self))).

(** [take_damage(damage=10)]: the caller passes the amount. *)
Definition take_damage (damage : Z) (self : t) : bool * t :=
  if negb self.(blocking)
  then (true, set_health (Z.max 0 (self.(health) - damage)) self)
  else (false, self).

End Player.

Module Bot.

(** The monolithic [class Bot(Player)]. *)
Record t : Type := mk {
  as_player : Player.t;
  decision_cooldown : Z;
  aggression : Q;
  caution : Q;
  last_action : option string
}.

Definition set_as_player (v : Player.t) (self : t) : t :=
  mk v self.(decision_cooldown) self.(aggression) self.(caution)
     self.(last_action).

Definition set_decision_cooldown (v : Z) (self : t) : t :=
  mk self.(as_player) v self.(aggression) self.(caution) self.(last_action).

Definition set_aggression (v : Q) (self : t) : t :=
  mk self.(as_player) self.(decision_cooldown) v self.(caution)
     self.(last_action).

Definition set_caution (v : Q) (self : t) : t :=
  mk self.(as_player) self.(decision_cooldown) self.(aggression) v
     self.(last_action).

Definition set_last_action (v : string) (self : t) : t :=
  mk self.(as_player) self.(decision_cooldown) self.(aggression)
     self.(caution) (Some v).

(** An inherited [Player] method called on the bot. *)
Definition inherited (f : Player.t -> Player.t) (self : t) : t :=
  set_as_player (f self.(as_player)) self.

(** [Bot.__init__]. *)
Definition init (x0 : Q) (y0 : Z) (is_left0 : bool) (bt : BodyType) : t :=
  mk (Player.init x0 y0 is_left0 bt) 0 (6 # 10) (4 # 10) None.

Definition move_by (player_is_left : bool) (self : t) : t :=
  if player_is_left
  then inherited Player.move_left self
  else inherited Player.move_right self.

Local Open Scope rand_scope.
Import Random.

(** The branch for [distance < 100]. *)
Definition decide_close (px : Q) (player_is_left : bool) (self : t) : M t :=
  r1 <- random ;;
  if Qltb r1 self.(aggression) then
    r2 <- random ;;
    if Qltb r2 (7 # 10)
    then ret (set_last_action "attack" (inherited (Player.attack px) self))
    else ret (set_last_action "retreat" (move_by player_is_left self))
  else
    r3 <- random ;;
    if Qltb r3 self.(caution)
    then ret (set_last_action "block" (inherited (Player.block px) self))
    else ret (set_last_action "advance" (move_by player_is_left self)).

(** The branch for [distance < 250]. *)
Definition decide_medium (px : Q) (player_is_left : bool) (self : t)
  : M t :=
  r1 <- random ;;
  if Qltb r1 (4 # 10)
  then ret (set_last_action "advance" (move_by player_is_left self))
  else
    r2 <- random ;;
    if Qltb r2 (3 # 10)
    then ret (set_last_action "prepare" (inherited (Player.block px) self))
    else ret (set_last_action "wait" self).

(** The branch for the far distance. *)
Definition decide_far (player_is_left : bool) (self : t) : M t :=
  r1 <- random ;;
  if Qltb r1 (8 # 10)
  then ret (set_last_action "advance" (move_by player_is_left self))
  else ret (set_last_action "wait" self).

(** The adaptation that closes a decision: below 30 health points. *)
Definition adapt_to_health (self : t) : t :=
  if self.(as_player).(Player.health) <? 30 then
    let self :=
      set_aggression (Qmin (9 # 10) (self.(aggression) + (1 # 10))) self in
    set_caution (Qmax (1 # 10) (self.(caution) - (1 # 10))) self
  else self.

(** [make_decision]; [player_x] is [player.x].  The bounds of
    [random.randint(10, 25)] are never an empty range, so the [None] of
    the draw does not occur. *)
Definition make_decision (player_x : Q) (screen_width : Z) (self : t)
  : M t :=
  if 0 <? self.(decision_cooldown) then
    ret (set_decision_cooldown (self.(decision_cooldown) - 1) self)
  else
    let distance := Qabs (self.(as_player).(Player.x) - player_x) in
    let player_is_left := Qltb player_x self.(as_player).(Player.x) in
    let self := inherited Player.stop_moving self in
    let self := inherited (Player.set_attacking false) self in
    let self := inherited (Player.set_blocking false) self in
    self <- (if Qltb distance (inject_Z 100)
             then decide_close player_x player_is_left self
             else if Qltb distance (inject_Z 250)
             then decide_medium player_x player_is_left self
             else decide_far player_is_left self) ;;
    cooldown <- randint 10 25 ;;
    let self :=
      match cooldown with
      | Some c => set_decision_cooldown c self
      | None => self
      end in
    ret (adapt_to_health self).

End Bot.

Module Game.

(** An entry of [hit_effects]; the size and the colour of an effect are
    constants and are left out. *)
Record effect : Type := mk_effect {
  effect_x : Q;
  effect_y : Z;
  timer : Z
}.

(** [create_hit_effect] at the centre of the fighter that was hit. *)
Definition create_hit_effect (hit_player : Player.t)
           (hit_effects : list effect) : list effect :=
  hit_effects
  ++ [ mk_effect
         (hit_player.(Player.x)
          + inject_Z (hit_player.(Player.width) / 2))%Q
         (hit_player.(Player.y) + hit_player.(Player.height) / 2)
         15 ].

(** [update_hit_effects]. *)
Definition update_hit_effects (hit_effects : list effect) : list effect :=
  filter (fun e => 0 <? e.(timer))
         (map (fun e => mk_effect e.(effect_x) e.(effect_y)
                          (e.(timer) - 1))
              hit_effects).

(** The computation of [block_hit] in [check_collisions]. *)
Definition block_hit (attacker defender : Player.t) : bool :=
  if defender.(Player.blocking) then
    if attacker.(Player.attacking_with_right) then
      String.eqb defender.(Player.block_direction) "right"
      && Qltb attacker.(Player.x) defender.(Player.x)
    else
      String.eqb defender.(Player.block_direction) "left"
      && Qltb defender.(Player.x) attacker.(Player.x)
  else false.

(** One half of [check_collisions]; [hit] is the value of the
    rectangle test. *)
Definition resolve_attack (hit : bool) (attacker defender : Player.t)
           (hit_effects : list effect)
  : Player.t * Player.t * list effect :=
  if attacker.(Player.attacking)
     && negb attacker.(Player.already_hit_in_current_attack)
     && hit
  then
    if negb (block_hit attacker defender) then
      let (damage_dealt, defender) := Player.take_damage 10 defender in
      if damage_dealt then
        (Player.set_already_hit_in_current_attack true attacker,
         defender, create_hit_effect defender hit_effects)
      else (attacker, defender, hit_effects)
    else
      (Player.set_already_hit_in_current_attack true attacker,
       defender, hit_effects)
  else (attacker, defender, hit_effects).

Definition check_collisions (hit12 hit21 : bool)
           (player1 player2 : Player.t) (hit_effects : list effect)
  : Player.t * Player.t * list effect :=
  let '(player1, player2, hit_effects) :=
    resolve_attack hit12 player1 player2 hit_effects in
  let '(player2, player1, hit_effects) :=
    resolve_attack hit21 player2 player1 hit_effects in
  (player1, player2, hit_effects).

(** The two values [update_game] assigns to [winner] in a
    player-versus-player match (the source stores display names). *)
Inductive winner_name : Type :=
| PLAYER_1
| PLAYER_2.

(** The part of the game object a player-versus-player frame touches. *)
Record t : Type := mk {
  player1 : Player.t;
  player2 : Player.t;
  hit_effects : list effect;
  winner : option winner_name;
  battle_finished : bool
}.

(** The player-versus-player branch of [update_game]: both updates, then
the resolver; [hits] holds the values of the two rectangle tests of this
frame. *)
Definition update_players (ground_y screen_width : Z) (hits : bool * bool)
           (player1 player2 : Player.t) (hit_effects : list effect)
  : Player.t * Player.t * list effect :=
  let player1 :=
    Player.update ground_y screen_width (Some player2.(Player.x)) player1 in
  let player2 :=
    Player.update ground_y screen_width (Some player1.(Player.x)) player2 in
  check_collisions (fst hits) (snd hits) player1 player2 hit_effects.

(** [update_game] in the state [PLAYER_VS_PLAYER]. *)
Definition update_game (ground_y screen_width : Z) (hits : bool * bool)
           (self : t) : t :=
  if self.(battle_finished) then
    mk self.(player1) self.(player2)
       (update_hit_effects self.(hit_effects))
       self.(winner) self.(battle_finished)
  else
    let '(p1, p2, effects) :=
      update_players ground_y screen_width hits
        self.(player1) self.(player2)
        (update_hit_effects self.(hit_effects)) in
    if p1.(Player.health) <=? 0
    then mk p1 p2 effects (Some PLAYER_2) true
    else if p2.(Player.health) <=? 0
    then mk p1 p2 effects (Some PLAYER_1) true
    else mk p1 p2 effects self.(winner) self.(battle_finished).

(** Consecutive frames of the main loop with no key event in between,
    one entry of [hits] per frame. *)
Fixpoint frames (ground_y screen_width : Z) (hits : list (bool * bool))
         (self : t) : t :=
  match hits with
  | [] => self
  | h :: rest =>
      frames ground_y screen_width rest
        (update_game ground_y screen_width h self)
  end.

(** *** Menus *)

(** The value of [flags] that [init_screen] passes to
    [pygame.display.set_mode]. *)
Inductive screen_flags : Type :=
| NO_FLAGS
| FULLSCREEN
| NOFRAME.

(** The part of the game object the menu handlers touch; [screen] is the
    resolution and the flags of the last [set_mode] call. *)
Record menus : Type := mk_menus {
  state : GameState;
  menu_selection : Z;
  settings_selection : Z;
  controls_selection : Z;
  player1_selection : Z;
  player1_color_selection : Z;
  settings : Settings.t;
  screen : (Z * Z) * screen_flags;
  ground_y : Z
}.

Definition set_state (v : GameState) (self : menus) : menus :=
  mk_menus v self.(menu_selection) self.(settings_selection)
    self.(controls_selection) self.(player1_selection)
    self.(player1_color_selection) self.(settings) self.(screen)
    self.(ground_y).

Definition set_menu_selection (v : Z) (self : menus) : menus :=
  mk_menus self.(state) v self.(settings_selection)
    self.(controls_selection) self.(player1_selection)
    self.(player1_color_selection) self.(settings) self.(screen)
    self.(ground_y).

Definition set_settings_selection (v : Z) (self : menus) : menus :=
  mk_menus self.(state) self.(menu_selection) v
    self.(controls_selection) self.(player1_selection)
    self.(player1_color_selection) self.(settings) self.(screen)
    self.(ground_y).

Definition set_controls_selection (v : Z) (self : menus) : menus :=
  mk_menus self.(state) self.(menu_selection) self.(settings_selection)
    v self.(player1_selection) self.(player1_color_selection)
    self.(settings) self.(screen) self.(ground_y).

Definition set_player1_selection (v : Z) (self : menus) : menus :=
  mk_menus self.(state) self.(menu_selection) self.(settings_selection)
    self.(controls_selection) v self.(player1_color_selection)
    self.(settings) self.(screen) self.(ground_y).

Definition set_player1_color_selection (v : Z) (self : menus) : menus :=
  mk_menus self.(state) self.(menu_selection) self.(settings_selection)
    self.(controls_selection) self.(player1_selection) v
    self.(settings) self.(screen) self.(ground_y).

Definition set_settings (v : Settings.t) (self : menus) : menus :=
  mk_menus self.(state) self.(menu_selection) self.(settings_selection)
    self.(controls_selection) self.(player1_selection)
    self.(player1_color_selection) v self.(screen) self.(ground_y).

(** [init_screen]; the caption is left out. *)
Definition init_screen (self : menus) : menus :=
  let flags :=
    if self.(settings).(Settings.fullscreen) then FULLSCREEN
    else if self.(settings).(Settings.borderless) then NOFRAME
    else NO_FLAGS in
  mk_menus self.(state) self.(menu_selection) self.(settings_selection)
    self.(controls_selection) self.(player1_selection)
    self.(player1_color_selection) self.(settings)
    (self.(settings).(Settings.current_resolution), flags)
    (self.(settings).(Settings.screen_height) - 120).

(** The menus of [Game.__init__]. *)
Definition init_menus (settings0 : Settings.t) : menus :=
  init_screen
    (mk_menus MENU 0 0 0 0 0 settings0 ((0, 0), NO_FLAGS) 0).

(** [handle_menu_events]. *)
Definition handle_menu_events (e : event) (self : menus) : menus :=
  match e with
  | KEYDOWN k =>
      match k with
      | K_UP | K_w =>
          set_menu_selection ((self.(menu_selection) - 1) mod 5) self
      | K_DOWN | K_s =>
          set_menu_selection ((self.(menu_selection) + 1) mod 5) self
      | K_LEFT | K_a =>
          set_menu_selection ((self.(menu_selection) - 1) mod 5) self
      | K_RIGHT | K_d =>
          set_menu_selection ((self.(menu_selection) + 1) mod 5) self
      | K_RETURN | K_SPACE =>
          if self.(menu_selection) =? 0 then
            set_player1_color_selection 0
              (set_player1_selection 0 (set_state CHARACTER_SELECT_P1 self))
          else if self.(menu_selection) =? 1 then
            set_player1_color_selection 0
              (set_player1_selection 0 (set_state CHARACTER_SELECT_P1 self))
          else if self.(menu_selection) =? 2 then
            set_controls_selection 0 (set_state CONTROLS self)
          else if self.(menu_selection) =? 3 then
            set_settings_selection 0 (set_state SETTINGS self)
          else if self.(menu_selection) =? 4 then
            set_state EXIT self
          else self
      | _ => self
      end
  | _ => self
  end.

(** [handle_settings_events]; [None] is the [IndexError] of the table
    lookup.  The rebuilt background is drawing data and is left out. *)
Definition handle_settings_events (e : event) (self : menus)
  : option menus :=
  match e with
  | KEYDOWN k =>
      let items :=
        3 + Z.of_nat
              (List.length self.(settings).(Settings.available_resolutions))
      in
      match k with
      | K_ESCAPE => Some (set_state MENU self)
      | K_UP | K_w =>
          Some (set_settings_selection
                  ((self.(settings_selection) - 1) mod items) self)
      | K_DOWN | K_s =>
          Some (set_settings_selection
                  ((self.(settings_selection) + 1) mod items) self)
      | K_RETURN | K_SPACE =>
          if self.(settings_selection) =? 0 then
            Some (init_screen
                    (set_settings
                       (Settings.set_borderless false
                          (Settings.set_fullscreen false self.(settings)))
                       self))
          else if self.(settings_selection) =? 1 then
            Some (init_screen
                    (set_settings
                       (Settings.set_borderless true self.(settings)) self))
          else if self.(settings_selection) =? 2 then
            Some (init_screen
                    (set_settings
                       (Settings.set_fullscreen true self.(settings)) self))
          else
            let res_index := self.(settings_selection) - 3 in
            if res_index
               <? Z.of_nat
                    (List.length
                       self.(settings).(Settings.available_resolutions))
            then
              match getitem self.(settings).(Settings.available_resolutions)
                      res_index with
              | Some (width, height) =>
                  Some (init_screen
                          (set_settings
                             (Settings.set_resolution width height
                                self.(settings)) self))
              | None => None
              end
            else Some self
      | _ => Some self
      end
  | _ => Some self
  end.

(** [handle_controls_events]. *)
Definition handle_controls_events (e : event) (self : menus) : menus :=
  match e with
  | KEYDOWN k =>
      match k with
      | K_ESCAPE => set_state MENU self
      | K_UP | K_w =>
          set_controls_selection ((self.(controls_selection) - 1) mod 2)
            self
      | K_DOWN | K_s =>
          set_controls_selection ((self.(controls_selection) + 1) mod 2)
            self
      | K_RETURN | K_SPACE =>
          if self.(controls_selection) =? 0
          then set_state MENU self
          else self
      | _ => self
      end
  | _ => self
  end.

End Game.

End Duelist.


(** ** Derived notions used by the statements *)

(** The state after a call of [take_damage] with an explicit amount. *)
Definition damaged (amount : Z) (p : Player.t) : Player.t :=
  snd (Player.take_damage (Some amount) p).

(** The arguments of one call of [update]. *)
Definition update_args : Type := (Z * Z * option Q)%type.

(** Consecutive calls of [Player.update], one per entry of [args]. *)
Definition updates (args : list update_args) (p : Player.t) : Player.t :=
  fold_left (fun q '(g, w, ox) => Player.update g w ox q) args p.

(** The same for the monolithic [Player]. *)
Definition duelist_updates (args : list update_args)
           (p : Duelist.Player.t) : Duelist.Player.t :=
  fold_left (fun q '(g, w, ox) => Duelist.Player.update g w ox q) args p.

(** The methods of [Player] that change a fighter, as the game calls them. *)
Inductive player_op : Type :=
| op_move_left
| op_move_right
| op_stop_moving
| op_attack (opponent_x : Q)
| op_block (opponent_x : Q)
| op_update (ground_y screen_width : Z) (opponent_x : option Q)
| op_take_damage (damage : option Z)
| op_heal (amount : Z).

Definition apply_op (op : player_op) (p : Player.t) : Player.t :=
  match op with
  | op_move_left => Player.move_left p
  | op_move_right => Player.move_right p
  | op_stop_moving => Player.stop_moving p
  | op_attack ox => Player.attack ox p
  | op_block ox => Player.block ox p
  | op_update g w ox => Player.update g w ox p
  | op_take_damage d => snd (Player.take_damage d p)
  | op_heal a => Player.heal a p
  end.

(** The methods that change a bot: the inherited ones, its own [update] and
    [make_decision]. *)
Inductive bot_op : Type :=
| op_inherited (op : player_op)
| op_bot_update (ground_y screen_width : Z) (opponent_x : option Q)
| op_make_decision (player : Bot.fighter) (screen_width : Z).

Definition apply_bot_op (op : bot_op) (b : Bot.t)
  : Random.M (outcome * Bot.t) :=
  match op with
  | op_inherited o => Random.ret (Returned, Bot.inherited (apply_op o) b)
  | op_bot_update g w ox =>
      Random.bind (Bot.update g w ox b) (fun b' => Random.ret (Returned, b'))
  | op_make_decision player w => Bot.make_decision player w b
  end.

(** A sequence of calls on a bot; an exception ends it. *)
Fixpoint apply_bot_ops (ops : list bot_op) (b : Bot.t)
  : Random.M (outcome * Bot.t) :=
  match ops with
  | [] => Random.ret (Returned, b)
  | op :: rest =>
      Random.bind (apply_bot_op op b) (fun r =>
        match r with
        | (Returned, b') => apply_bot_ops rest b'
        | (Raised e, b') => Random.ret (Raised e, b')
        end)
  end.


(** The fighters of the examples stand on the ground line [630] of a
    [1024] wide arena; [athlete] is an athletic player at [x = 200]. *)
Definition ground_y : Z := 630.
Definition screen_width : Z := 1024.
Definition fighter_at (x0 : Z) (bt : BodyType) : Player.t :=
  Player.init (inject_Z x0) (ground_y - 100) true bt.
Definition athlete : Player.t := fighter_at 200 ATHLETIC.

(** The athlete after the key for moving left was held for 36 frames. *)
Definition left_runner : Player.t :=
  updates (repeat (ground_y, screen_width, None) 36)
          (Player.move_left athlete).

(** The calls that advance a fighter by one frame. *)
Definition is_update (op : bot_op) : Prop :=
  match op with
  | op_inherited (op_update _ _ _) | op_bot_update _ _ _ => True
  | _ => False
  end.

Definition is_decision (op : bot_op) : Prop :=
  match op with
  | op_make_decision _ _ => True
  | _ => False
  end.

(** The bot after a call, whichever way the call ended. *)
Definition bot_after (op : bot_op) (b : Bot.t) (rs : Random.source) : Bot.t :=
  snd (fst (apply_bot_op op b rs)).

(** A medium robotic bot at [x = 724] with 20 health left, and the same
    bot after the reflex block of [Bot.update] (every draw is 0). *)
Definition weak_bot : Bot.t :=
  Bot.inherited (Player.set_health 20)
    (Bot.init (inject_Z 724) (ground_y - 100) false ROBOTIC "medium").

Definition weak_bot_blocking : Bot.t :=
  fst (Bot.update ground_y screen_width (Some (inject_Z 200)) weak_bot
         (Random.constant 0)).

(** One tick on a fighter of the examples: its [update] against an
    opponent at [opponent_x]. *)
Definition ticked (opponent_x : Z) (p : Player.t) : Player.t :=
  Player.update ground_y screen_width (Some (inject_Z opponent_x)) p.

(** Whether the attack rectangle of a fighter that comes out of [update]
    meets the body rectangle of the defender. *)
Definition reaches (attacker defender : Player.t) : bool :=
  Game.attack_meets attacker (Player.update_body_parts attacker) defender.

(** The scenario of the resolver examples, at the tick after the commands:
    player 1 stands at [x = 200] (where [start_player_vs_player] puts it)
    and has called [attack(240)], so it strikes with the right hand;
    player 2 stands at [x = 240], idle ([bystander]) or after calling
    [block(200)], which guards the left ([guard]).  On this tick the
    attack rectangle spans 232..262 horizontally and the body of player 2
    starts at 240. *)
Definition striker : Player.t :=
  ticked 240 (Player.attack (inject_Z 240) (fighter_at 200 ATHLETIC)).

Definition bystander : Player.t := ticked 200 (fighter_at 240 ATHLETIC).

Definition guard : Player.t :=
  ticked 200 (Player.block (inject_Z 200) (fighter_at 240 ATHLETIC)).

(** The same commands at the positions [x = 100] and [x = 200], where
    the fighters are out of reach of each other. *)
Definition far_striker : Player.t :=
  Player.attack (inject_Z 200) (fighter_at 100 ATHLETIC).

Definition far_guard : Player.t :=
  ticked 100 (Player.block (inject_Z 100) athlete).

(** The swing of [far_striker] on each of its frames. *)
Definition far_swing : list Player.t :=
  map (fun n => updates (repeat (ground_y, screen_width,
                                 Some (inject_Z 200)) n) far_striker)
      (seq 1 15).

(** A ninja (damage 8) strikes at a sumo (damage 15), fresh or with 10
    health left after [take_damage(140)]. *)
Definition ninja_striker : Player.t :=
  ticked 240 (Player.attack (inject_Z 240) (fighter_at 200 NINJA)).

Definition sumo : Player.t := ticked 200 (fighter_at 240 SUMO).

Definition weak_sumo : Player.t :=
  ticked 200 (damaged 140 (fighter_at 240 SUMO)).

(** A monolithic match in which player 1 has just called [attack]. *)
Definition duelist_swing (opponent_x : Q) (p1 p2 : Duelist.Player.t)
           (effects : list Duelist.Game.effect) : Duelist.Game.t :=
  Duelist.Game.mk (Duelist.Player.attack opponent_x p1) p2 effects None false.

(** No swing of player 1 can land: it is over, or marked as used. *)
Definition duelist_swing_spent (p : Duelist.Player.t) : Prop :=
  Duelist.Player.attacking p = false
  \/ Duelist.Player.already_hit_in_current_attack p = true.

(** What stays true of a monolithic match once the swing of player 1 has
    landed: player 2 has health [h] and does not block, and the swing is
    spent. *)
Definition duelist_after_hit (h : Z) (g : Duelist.Game.t) : Prop :=
  Duelist.Player.health (Duelist.Game.player2 g) = h
  /\ Duelist.Player.blocking (Duelist.Game.player2 g) = false
  /\ duelist_swing_spent (Duelist.Game.player1 g).

(** What the adaptation of a bot reads besides its own two weights: the
    health, the maximum health and the body parameters of the fighter. *)
Definition same_vitals (p q : Player.t) : Prop :=
  Player.health q = Player.health p
  /\ Player.max_health q = Player.max_health p
  /\ Player.params q = Player.params p.

(** The bot kept its weights and its fighter kept its vitals. *)
Definition same_weights (b c : Bot.t) : Prop :=
  Bot.aggression c = Bot.aggression b
  /\ Bot.caution c = Bot.caution b
  /\ Bot.reaction_time c = Bot.reaction_time b
  /\ same_vitals (Bot.as_player b) (Bot.as_player c).

(** [self.health / self.max_health]. *)
Definition health_percentage (b : Bot.t) : Q :=
  (inject_Z (Player.health (Bot.as_player b))
   / inject_Z (Player.max_health (Bot.as_player b)))%Q.


(** The bot after a sequence of calls, whichever way it ended. *)
Definition bot_after_ops (ops : list bot_op) (b : Bot.t)
           (rs : Random.source) : Bot.t :=
  snd (fst (apply_bot_ops ops b rs)).

(** A bot of the highest difficulty at half of its health, after
    [take_damage(50)]. *)
Definition insane_bot : Bot.t :=
  Bot.inherited (damaged 50)
    (Bot.init (inject_Z 724) (ground_y - 100) false ATHLETIC "insane").

(** ** Derived notions of the further properties *)

(** At most one of the two movement flags is set. *)
Definition one_direction (p : Player.t) : Prop :=
  Player.moving_left p && Player.moving_right p = false.

(** The two movement flags are kept. *)
Definition same_flags (p q : Player.t) : Prop :=
  Player.moving_left q = Player.moving_left p
  /\ Player.moving_right q = Player.moving_right p.

(** The fighter inside a bot moves in at most one direction. *)
Definition bot_one_direction (b : Bot.t) : Prop :=
  one_direction (Bot.as_player b).

(** The health lies between 0 and the maximum. *)
Definition health_in_range (p : Player.t) : Prop :=
  0 <= Player.health p <= Player.max_health p.

(** The amounts a call passes are not negative. *)
Definition nonneg_amounts (op : bot_op) : Prop :=
  match op with
  | op_inherited (op_take_damage (Some d)) => 0 <= d
  | op_inherited (op_heal a) => 0 <= a
  | _ => True
  end.

(** A defender at [x = 200] who blocks against an attacker standing at
    [x = 210], inside the defender's half width, and that attacker striking
    with the left hand. *)
Definition close_guard : Player.t := Player.block (inject_Z 210) athlete.

Definition close_striker : Player.t :=
  Player.attack (inject_Z 200) (fighter_at 210 ATHLETIC).

(** The attack of [attacker] is resolved this frame: the swing is live and
    unmarked, the rectangles intersect, and the defender either blocks the
    right side or does not block at all. *)
Definition resolves (hit : bool) (attacker defender : Player.t) : bool :=
  Player.attacking attacker
  && negb (Player.already_hit_in_current_attack attacker)
  && hit
  && (Game.check_block defender attacker
      || negb (Player.blocking defender)).

(** Every draw of the source lies in [0, 1), as [random.random()] returns
    it. *)
Definition unit_draws (rs : Random.source) : Prop :=
  forall n : nat, (0 <= rs n)%Q /\ (rs n < 1)%Q.

(** [rs'] is what is left of [rs] after some draws. *)
Definition rest_of (rs rs' : Random.source) : Prop :=
  exists k : nat, forall n : nat, rs' n = rs (k + n)%nat.

(** The bounds [make_decision] passes to [random.randint]. *)
Definition cooldown_low (reaction_time : Z) : Z := Z.max 5 (reaction_time - 5).
Definition cooldown_high (reaction_time : Z) : Z :=
  Z.min 30 (reaction_time + 5).

(** A bot of the lowest difficulty, as [Bot.__init__] builds it. *)
Definition easy_bot : Bot.t :=
  Bot.init (inject_Z 724) (ground_y - 100) false HEAVY "easy".

(** The position of the fighter is kept. *)
Definition same_place (p q : Player.t) : Prop :=
  Player.x q = Player.x p /\ Player.y q = Player.y p.

(** The attributes of a swing. *)
Definition swing_of (p : Player.t) : bool * Z * Z * bool :=
  (Player.attacking p, Player.attack_animation p, Player.attack_cooldown p,
   Player.already_hit_in_current_attack p).

(** A hard bot at 20 frames into its attack cooldown whose swing of 15
    frames would still be running. *)
Definition swinging_bot : Bot.t :=
  Bot.inherited
    (fun p => updates (repeat (ground_y, screen_width, None) 10)
                (Player.attack (inject_Z 200) p))
    (Bot.init (inject_Z 260) (ground_y - 100) false NINJA "hard").

(** A course of the monolithic match as the bot sees it: before each
    decision the fighter inside the bot has changed in some way (updates,
    damage), then [make_decision] runs against the opponent's [x]. *)
Definition duelist_step : Type :=
  ((Duelist.Player.t -> Duelist.Player.t) * Q * Z)%type.

Fixpoint duelist_decisions (steps : list duelist_step) (b : Duelist.Bot.t)
  : Random.M Duelist.Bot.t :=
  match steps with
  | [] => Random.ret b
  | (change, player_x, w) :: rest =>
      Random.bind
        (Duelist.Bot.make_decision player_x w (Duelist.Bot.inherited change b))
        (duelist_decisions rest)
  end.

(** The weights of the monolithic bot are within its caps. *)
Definition duelist_within_caps (b : Duelist.Bot.t) : Prop :=
  (0 <= Duelist.Bot.aggression b)%Q
  /\ (Duelist.Bot.aggression b <= 9 # 10)%Q
  /\ (1 # 10 <= Duelist.Bot.caution b)%Q
  /\ (Duelist.Bot.caution b <= 1)%Q.

(** The monolithic bot kept its two weights. *)
Definition duelist_same_weights (b c : Duelist.Bot.t) : Prop :=
  Duelist.Bot.aggression c = Duelist.Bot.aggression b
  /\ Duelist.Bot.caution c = Duelist.Bot.caution b.

(** The fighter stands at [x0] with no movement flag set. *)
Definition duelist_rests (x0 : Q) (p : Duelist.Player.t) : Prop :=
  Duelist.Player.x p = x0
  /\ Duelist.Player.moving_left p = false
  /\ Duelist.Player.moving_right p = false.

(** The fighter stands at [x0] and, if it moves at all, it moves to the
    side [left] tells and to that side only. *)
Definition duelist_heads (left : bool) (x0 : Q) (p : Duelist.Player.t)
  : Prop :=
  Duelist.Player.x p = x0
  /\ (Duelist.Player.moving_left p = true ->
      left = true /\ Duelist.Player.moving_right p = false)
  /\ (Duelist.Player.moving_right p = true ->
      left = false /\ Duelist.Player.moving_left p = false).

(** A hit effect of the monolith [n] calls of [update_hit_effects]
    later. *)
Definition aged (n : Z) (e : Duelist.Game.effect) : Duelist.Game.effect :=
  Duelist.Game.mk_effect (Duelist.Game.effect_x e) (Duelist.Game.effect_y e)
    (Duelist.Game.timer e - n).

(** What is left of a list of effects after [n] calls. *)
Definition faded (n : Z) (l : list Duelist.Game.effect)
  : list Duelist.Game.effect :=
  map (aged n) (filter (fun e => n <? Duelist.Game.timer e) l).

(** The same for the [HitEffect] objects of the modular game. *)
Definition hit_effect_aged (n : Z) (e : HitEffect.t) : HitEffect.t :=
  HitEffect.mk (HitEffect.x e) (HitEffect.y e) (HitEffect.effect_type e)
    (HitEffect.timer e - n) (HitEffect.max_timer e) (HitEffect.size e).

Definition hit_effects_faded (n : Z) (l : list HitEffect.t)
  : list HitEffect.t :=
  map (hit_effect_aged n) (filter (fun e => n <? HitEffect.timer e) l).

(** The verdict of a monolithic match agrees with the health of the
    fighters: no winner while both stand, and player 1 is named the winner
    only while standing. *)
Definition verdict_sound (s : Duelist.Game.t) : Prop :=
  let h1 := Duelist.Player.health (Duelist.Game.player1 s) in
  let h2 := Duelist.Player.health (Duelist.Game.player2 s) in
  match Duelist.Game.winner s with
  | None => Duelist.Game.battle_finished s = false /\ 0 < h1 /\ 0 < h2
  | Some Duelist.Game.PLAYER_1 =>
      Duelist.Game.battle_finished s = true /\ 0 < h1 /\ h2 <= 0
  | Some Duelist.Game.PLAYER_2 =>
      Duelist.Game.battle_finished s = true /\ h1 <= 0
  end.

(** The start of a player-versus-player match of the monolith, as
    [start_player_vs_player] builds it on the default screen. *)
Definition duelist_match (bt1 bt2 : BodyType) : Duelist.Game.t :=
  Duelist.Game.mk
    (Duelist.Player.init (inject_Z 200) (648 - 100) true bt1)
    (Duelist.Player.init (inject_Z (1024 - 300)) (648 - 100) false bt2)
    [] None false.

(** The settings of the monolith are coherent: at most one of the two
    display modes is on, and the current resolution is the stored width
    and height and is an entry of the table. *)
Definition settings_coherent (st : Duelist.Settings.t) : Prop :=
  Duelist.Settings.fullscreen st && Duelist.Settings.borderless st = false
  /\ Duelist.Settings.current_resolution st
     = (Duelist.Settings.screen_width st, Duelist.Settings.screen_height st)
  /\ In (Duelist.Settings.current_resolution st)
        (Duelist.Settings.available_resolutions st).

(** The window that [init_screen] opens for given settings. *)
Definition window_of (st : Duelist.Settings.t)
  : (Z * Z) * Duelist.Game.screen_flags :=
  (Duelist.Settings.current_resolution st,
   if Duelist.Settings.fullscreen st then Duelist.Game.FULLSCREEN
   else if Duelist.Settings.borderless st then Duelist.Game.NOFRAME
   else Duelist.Game.NO_FLAGS).

(** The settings menu is in order: the selection is an entry of the menu,
    the settings are coherent, and the window and the ground line are
    those of the settings. *)
Definition settings_menu_ok (m : Duelist.Game.menus) : Prop :=
  let st := Duelist.Game.settings m in
  0 <= Duelist.Game.settings_selection m
       < 3 + Z.of_nat (List.length (Duelist.Settings.available_resolutions st))
  /\ settings_coherent st
  /\ Duelist.Game.screen m = window_of st
  /\ Duelist.Game.ground_y m = Duelist.Settings.screen_height st - 120.

(** The events of a stay in the settings menu, handled in order. *)
Fixpoint settings_events (es : list event) (m : Duelist.Game.menus)
  : option Duelist.Game.menus :=
  match es with
  | [] => Some m
  | e :: rest =>
      match Duelist.Game.handle_settings_events e m with
      | Some m' => settings_events rest m'
      | None => None
      end
  end.

(** The table of resolutions of [settings.py]. *)
Definition listed (s : Settings.t) : Prop :=
  Settings.available_resolutions s
  = Settings.available_resolutions Settings.init.

(** What the frames between the decisions do to the fighter of the
    monolithic bot. *)
Definition duelist_changes (steps : list duelist_step)
           (p : Duelist.Player.t) : Duelist.Player.t :=
  fold_left (fun q step => fst (fst step) q) steps p.

(** The two calls of [settings.py] that switch the display mode. *)
Inductive mode_call : Type :=
| call_set_fullscreen (fullscreen : bool)
| call_set_borderless (borderless : bool).

Definition apply_mode_call (s : Settings.t) (c : mode_call) : Settings.t :=
  match c with
  | call_set_fullscreen f => Settings.set_fullscreen f s
  | call_set_borderless b => Settings.set_borderless b s
  end.

Definition apply_mode_calls (calls : list mode_call) (s : Settings.t)
  : Settings.t :=
  fold_left apply_mode_call calls s.

(** At most one of the two display modes of [settings.py] is on. *)
Definition one_mode (s : Settings.t) : Prop :=
  VideoSettings.fullscreen (Settings.video s)
  && VideoSettings.borderless (Settings.video s) = false.

(** * Properties *)

(** ** Comparison of rationals *)

Lemma Qltb_lt (a b : Q) : Qltb a b = true <-> (a < b)%Q.
Proof.
  unfold Qltb. rewrite negb_true_iff, <- not_true_iff_false, Qle_bool_iff.
  split; [apply Qnot_le_lt | apply Qlt_not_le].
Qed.

Lemma Qltb_ge (a b : Q) : Qltb a b = false <-> (b <= a)%Q.
Proof.
  unfold Qltb. rewrite negb_false_iff. apply Qle_bool_iff.
Qed.

(** ** Damage *)

Lemma take_damage_health_nonneg (damage : option Z) (p : Player.t) :
  0 <= Player.health p ->
  0 <= Player.health (snd (Player.take_damage damage p)).
Proof.
  unfold Player.take_damage.
  destruct (Player.blocking p); cbn; intros; lia.
Qed.

Lemma damaged_stays_down (amounts : list Z) :
  forall p : Player.t,
    Player.blocking p = false -> Player.health p = 0 ->
    Forall (fun a => 0 <= a) amounts ->
    Player.health (fold_left (fun q a => damaged a q) amounts p) = 0
    /\ Player.blocking (fold_left (fun q a => damaged a q) amounts p)
       = false.
Proof.
  induction amounts as [| a rest IH]; intros p Hb Hh Hpos; simpl.
  - auto.
  - inversion Hpos as [| ? ? Ha Hrest]; subst.
    apply IH; auto; unfold damaged, Player.take_damage; rewrite Hb; cbn;
      [assumption | lia].
Qed.

(** C3, as the code has it.  [take_damage] with an amount returns false
    and changes nothing while the fighter blocks; otherwise it returns
    true and sets health to [max 0 (health - amount)], for every amount.
    Health that is not negative stays so, and once health is 0 any further
    amounts that are not negative leave it at 0, while every call on the
    fighter, who does not block, still returns true. *)
Theorem take_damage_clamps (p : Player.t) (amount : Z) :
  (Player.blocking p = true ->
   Player.take_damage (Some amount) p = (false, p))
  /\ (Player.blocking p = false ->
      fst (Player.take_damage (Some amount) p) = true
      /\ Player.health (damaged amount p)
         = Z.max 0 (Player.health p - amount))
  /\ (0 <= Player.health p -> 0 <= Player.health (damaged amount p))
  /\ (forall amounts : list Z,
        Player.blocking p = false -> Player.health p = 0 ->
        Forall (fun a => 0 <= a) amounts ->
        Player.health (fold_left (fun q a => damaged a q) amounts p) = 0
        /\ forall a : Z,
             fst (Player.take_damage (Some a)
                    (fold_left (fun q a => damaged a q) amounts p)) = true).
Proof.
  repeat split.
  - intros Hb. unfold Player.take_damage. now rewrite Hb.
  - unfold Player.take_damage. now rewrite H.
  - unfold damaged, Player.take_damage. now rewrite H.
  - apply take_damage_health_nonneg.
  - now apply damaged_stays_down.
  - intros a. destruct (damaged_stays_down amounts p) as [_ Hb]; auto.
    unfold Player.take_damage. now rewrite Hb.
Qed.

Lemma take_damage_clamps_witness :
  Player.health (damaged 250 athlete) = 0
  /\ Player.health
       (fold_left (fun q a => damaged a q) [10; 0; 15] (damaged 250 athlete))
     = 0.
Proof.
  destruct (take_damage_clamps athlete 250) as [_ [Hhit _]].
  destruct (take_damage_clamps (damaged 250 athlete) 0) as [_ [_ [_ Hdown]]].
  split.
  - destruct Hhit as [_ ->]; reflexivity.
  - apply (Hdown [10; 0; 15]); [reflexivity | reflexivity |].
    repeat constructor; lia.
Defined.

(** C3 as stated fails for a negative amount: the athlete whose health has
    reached 0 and who does not block gets health 5 back from
    [take_damage(-5)], which [max(0, health - amount)] lets through. *)
Lemma negative_damage_raises_health :
  let p := damaged 100 athlete in
  Player.health p = 0
  /\ Player.blocking p = false
  /\ Player.take_damage (Some (-5)) p
     = (true, Player.set_animation_state HURT (Player.set_health 5 p))
  /\ Player.health (damaged (-5) p) = 5.
Proof. vm_compute. repeat split. Qed.

(** ** The stages of [update], attribute by attribute *)

(** Case analysis on every boolean test of the goal, then evaluation of
    the attribute reads. *)
Ltac split_tests :=
  cbv zeta;
  repeat match goal with
         | |- context [if ?b then _ else _] => destruct b eqn:?
         end;
  cbn in *.

(** Splitting of every conjunction among the hypotheses. *)
Ltac split_hyps :=
  repeat match goal with
         | H : _ /\ _ |- _ => destruct H
         end.

(** The movement stage changes [x] and [y] only. *)
Lemma update_position_frame (g w : Z) (p : Player.t) :
  let q := Player.update_position g w p in
  Player.params q = Player.params p
  /\ Player.moving_left q = Player.moving_left p
  /\ Player.moving_right q = Player.moving_right p
  /\ Player.attacking q = Player.attacking p
  /\ Player.blocking q = Player.blocking p
  /\ Player.block_direction q = Player.block_direction p
  /\ Player.attack_cooldown q = Player.attack_cooldown p
  /\ Player.block_cooldown q = Player.block_cooldown p
  /\ Player.attack_animation q = Player.attack_animation p
  /\ Player.already_hit_in_current_attack q
     = Player.already_hit_in_current_attack p
  /\ Player.attacking_with_right q = Player.attacking_with_right p
  /\ Player.health q = Player.health p
  /\ Player.max_health q = Player.max_health p.
Proof.
  unfold Player.update_position. split_tests; repeat split; congruence.
Qed.

(** The attack stage leaves the position, the block and the health alone. *)
Lemma update_attack_frame (p : Player.t) :
  let q := Player.update_attack p in
  Player.x q = Player.x p
  /\ Player.params q = Player.params p
  /\ Player.moving_left q = Player.moving_left p
  /\ Player.moving_right q = Player.moving_right p
  /\ Player.blocking q = Player.blocking p
  /\ Player.block_direction q = Player.block_direction p
  /\ Player.block_cooldown q = Player.block_cooldown p
  /\ Player.attacking_with_right q = Player.attacking_with_right p
  /\ Player.health q = Player.health p
  /\ Player.max_health q = Player.max_health p.
Proof.
  unfold Player.update_attack. split_tests; repeat split; congruence.
Qed.

(** The block stage leaves the position, the attack and the health alone. *)
Lemma update_block_frame (p : Player.t) :
  let q := Player.update_block p in
  Player.x q = Player.x p
  /\ Player.params q = Player.params p
  /\ Player.moving_left q = Player.moving_left p
  /\ Player.moving_right q = Player.moving_right p
  /\ Player.attacking q = Player.attacking p
  /\ Player.block_direction q = Player.block_direction p
  /\ Player.attack_cooldown q = Player.attack_cooldown p
  /\ Player.attack_animation q = Player.attack_animation p
  /\ Player.already_hit_in_current_attack q
     = Player.already_hit_in_current_attack p
  /\ Player.attacking_with_right q = Player.attacking_with_right p
  /\ Player.health q = Player.health p
  /\ Player.max_health q = Player.max_health p.
Proof.
  unfold Player.update_block. split_tests; repeat split; congruence.
Qed.

(** The last stage changes [block_direction] only. *)
Lemma update_block_direction_frame (ox : option Q) (p : Player.t) :
  let q := Player.update_block_direction ox p in
  Player.x q = Player.x p
  /\ Player.params q = Player.params p
  /\ Player.moving_left q = Player.moving_left p
  /\ Player.moving_right q = Player.moving_right p
  /\ Player.attacking q = Player.attacking p
  /\ Player.blocking q = Player.blocking p
  /\ Player.attack_cooldown q = Player.attack_cooldown p
  /\ Player.block_cooldown q = Player.block_cooldown p
  /\ Player.attack_animation q = Player.attack_animation p
  /\ Player.already_hit_in_current_attack q
     = Player.already_hit_in_current_attack p
  /\ Player.attacking_with_right q = Player.attacking_with_right p
  /\ Player.health q = Player.health p
  /\ Player.max_health q = Player.max_health p.
Proof.
  unfold Player.update_block_direction.
  destruct ox; split_tests; repeat split; congruence.
Qed.

(** The four frames along one call of [update]. *)
Ltac update_frames g w ox p :=
  unfold Player.update;
  pose proof (update_position_frame g w p);
  pose proof (update_attack_frame (Player.update_position g w p));
  pose proof (update_block_frame
                (Player.update_attack (Player.update_position g w p)));
  pose proof (update_block_direction_frame ox
                (Player.update_block
                   (Player.update_attack (Player.update_position g w p))));
  cbv zeta in *; split_hyps.

(** Rewriting of the goal with every equation among the hypotheses. *)
Ltac rewrite_frames :=
  repeat match goal with
         | H : _ = _ |- _ => rewrite H
         end.

(** The counters and flags each stage owns. *)
Lemma update_attack_attack_cooldown (p : Player.t) :
  Player.attack_cooldown (Player.update_attack p)
  = if 0 <? Player.attack_cooldown p
    then Player.attack_cooldown p - 1
    else Player.attack_cooldown p.
Proof.
  unfold Player.update_attack. split_tests; congruence.
Qed.

Lemma update_block_block_cooldown (p : Player.t) :
  Player.block_cooldown (Player.update_block p)
  = if 0 <? Player.block_cooldown p
    then Player.block_cooldown p - 1
    else Player.block_cooldown p.
Proof.
  unfold Player.update_block. split_tests; congruence.
Qed.

Lemma update_block_blocking (p : Player.t) :
  Player.blocking (Player.update_block p)
  = if (0 <? Player.block_cooldown p) && (Player.block_cooldown p - 1 <=? 0)
    then false
    else Player.blocking p.
Proof.
  unfold Player.update_block. split_tests; congruence.
Qed.

(** What a whole [update] does to the attributes the claims speak of. *)
Lemma update_attack_cooldown (g w : Z) (ox : option Q) (p : Player.t) :
  Player.attack_cooldown (Player.update g w ox p)
  = if 0 <? Player.attack_cooldown p
    then Player.attack_cooldown p - 1
    else Player.attack_cooldown p.
Proof.
  pose proof (update_attack_attack_cooldown (Player.update_position g w p)).
  update_frames g w ox p. rewrite_frames. reflexivity.
Qed.

Lemma update_block_cooldown (g w : Z) (ox : option Q) (p : Player.t) :
  Player.block_cooldown (Player.update g w ox p)
  = if 0 <? Player.block_cooldown p
    then Player.block_cooldown p - 1
    else Player.block_cooldown p.
Proof.
  pose proof (update_block_block_cooldown
                (Player.update_attack (Player.update_position g w p))).
  update_frames g w ox p. rewrite_frames. reflexivity.
Qed.

Lemma update_blocking (g w : Z) (ox : option Q) (p : Player.t) :
  Player.blocking (Player.update g w ox p)
  = if (0 <? Player.block_cooldown p) && (Player.block_cooldown p - 1 <=? 0)
    then false
    else Player.blocking p.
Proof.
  pose proof (update_block_blocking
                (Player.update_attack (Player.update_position g w p))).
  update_frames g w ox p. rewrite_frames. reflexivity.
Qed.

Lemma update_health (g w : Z) (ox : option Q) (p : Player.t) :
  Player.health (Player.update g w ox p) = Player.health p
  /\ Player.max_health (Player.update g w ox p) = Player.max_health p
  /\ Player.params (Player.update g w ox p) = Player.params p.
Proof.
  update_frames g w ox p. rewrite_frames. auto.
Qed.

Lemma update_x (g w : Z) (ox : option Q) (p : Player.t) :
  Player.x (Player.update g w ox p) = Player.x (Player.update_position g w p).
Proof.
  update_frames g w ox p. rewrite_frames. reflexivity.
Qed.

(** ** Attack: cooldown gate and choice of the hand *)

Lemma updates_attack_cooldown (args : list update_args) :
  forall p : Player.t,
    0 <= Player.attack_cooldown p ->
    Player.attack_cooldown (updates args p)
    = Z.max 0 (Player.attack_cooldown p - Z.of_nat (List.length args)).
Proof.
  unfold updates.
  induction args as [| [[g w] ox] rest IH]; intros p Hp.
  - simpl. lia.
  - cbn [fold_left List.length]. rewrite IH; rewrite update_attack_cooldown;
      destruct (0 <? Player.attack_cooldown p) eqn:E;
      try apply Z.ltb_lt in E; try apply Z.ltb_ge in E; lia.
Qed.

Lemma attack_starts_cooldown (ox : Q) (p : Player.t) :
  Player.attack_cooldown p <= 0 ->
  Player.attack_cooldown (Player.attack ox p) = 30
  /\ Player.attack_animation (Player.attack ox p) = 15
  /\ Player.attacking (Player.attack ox p) = true
  /\ Player.already_hit_in_current_attack (Player.attack ox p) = false.
Proof.
  intros H. unfold Player.attack.
  apply Z.leb_le in H. rewrite H. cbn. auto.
Qed.

(** C6. While the attack cooldown is positive, [attack] returns the fighter
    unchanged, so none of its fields moves.  In particular a second call
    made after fewer than 30 updates of a started attack is such a call. *)
Theorem attack_on_cooldown_is_noop (p : Player.t) (opponent_x : Q) :
  (0 < Player.attack_cooldown p -> Player.attack opponent_x p = p)
  /\ (forall (p0 : Player.t) (ox0 : Q) (args : list update_args),
        Player.attack_cooldown p0 <= 0 ->
        (List.length args < 30)%nat ->
        p = updates args (Player.attack ox0 p0) ->
        Player.attack opponent_x p = p).
Proof.
  assert (Hgate : 0 < Player.attack_cooldown p ->
                  Player.attack opponent_x p = p).
  { intros H. unfold Player.attack.
    apply Z.leb_gt in H. now rewrite H. }
  split; [exact Hgate |].
  intros p0 ox0 args H0 Hlen ->. apply Hgate.
  destruct (attack_starts_cooldown ox0 p0 H0) as [Hcd _].
  rewrite updates_attack_cooldown; rewrite Hcd; lia.
Qed.

Lemma attack_on_cooldown_is_noop_witness :
  let p := updates [(ground_y, screen_width, None);
                    (ground_y, screen_width, Some (inject_Z 40))]
             (Player.attack (inject_Z 500) athlete) in
  Player.attack (inject_Z 40) p = p.
Proof.
  intro p.
  apply (proj2 (attack_on_cooldown_is_noop p (inject_Z 40))
           athlete (inject_Z 500)
           [(ground_y, screen_width, None);
            (ground_y, screen_width, Some (inject_Z 40))]).
  - cbn. lia.
  - cbn. lia.
  - reflexivity.
Defined.

(** The same gate in the monolithic implementation. *)
Lemma duelist_attack_on_cooldown_is_noop
      (p : Duelist.Player.t) (opponent_x : Q) :
  0 < Duelist.Player.attack_cooldown p ->
  Duelist.Player.attack opponent_x p = p.
Proof.
  intros H. unfold Duelist.Player.attack.
  apply Z.leb_gt in H. now rewrite H.
Qed.

(** C8. With no attack cooldown, [attack] strikes with the right hand
    exactly when the opponent is not left of [x + width // 2], the
    fighter's horizontal centre, and with the left hand exactly when it
    is; it sets [block_direction] to the side opposite to the striking
    hand. *)
Theorem attack_selects_hand (p : Player.t) (opponent_x : Q) :
  Player.attack_cooldown p = 0 ->
  let q := Player.attack opponent_x p in
  let centre :=
    (Player.x p + inject_Z (BodyParameters.width (Player.params p) / 2))%Q in
  (Player.attacking_with_right q = true <-> ~ (opponent_x < centre)%Q)
  /\ (Player.attacking_with_right q = false <-> (opponent_x < centre)%Q)
  /\ (Player.attacking_with_right q = true ->
      Player.block_direction q = "left")
  /\ (Player.attacking_with_right q = false ->
      Player.block_direction q = "right").
Proof.
  intros Hcd q centre. subst q. unfold Player.attack.
  rewrite Hcd. cbn [Z.leb Z.compare].
  unfold Player.determine_attack_hand.
  change (Player.center_x p) with centre.
  destruct (Qltb opponent_x centre) eqn:E; cbn.
  - apply Qltb_lt in E. repeat split; try discriminate; tauto.
  - apply Qltb_ge in E.
    assert (Hn : ~ (opponent_x < centre)%Q)
      by (intros Hlt; apply (Qlt_not_le _ _ Hlt E)).
    repeat split; try discriminate; auto.
    intros Hlt. contradiction.
Qed.

(** The athlete stands at [x = 200] and is 52 wide, so the centre is at
    226: an opponent at 213, right of [x] but left of the centre, draws
    the left hand, and one at 226 the right hand. *)
Lemma attack_selects_hand_witness :
  (Player.x athlete == 200)%Q
  /\ BodyParameters.width (Player.params athlete) = 52
  /\ Player.attacking_with_right (Player.attack (inject_Z 213) athlete)
     = false
  /\ Player.block_direction (Player.attack (inject_Z 213) athlete)
     = "right"
  /\ Player.attacking_with_right (Player.attack (inject_Z 226) athlete)
     = true
  /\ Player.block_direction (Player.attack (inject_Z 226) athlete)
     = "left".
Proof.
  destruct (attack_selects_hand athlete (inject_Z 213) eq_refl)
    as [_ [Hnear [_ Hright]]].
  destruct (attack_selects_hand athlete (inject_Z 226) eq_refl)
    as [Hfar [_ [Hleft _]]].
  assert (H1 : Player.attacking_with_right
                 (Player.attack (inject_Z 213) athlete) = false).
  { apply Hnear. reflexivity. }
  assert (H2 : Player.attacking_with_right
                 (Player.attack (inject_Z 226) athlete) = true).
  { apply Hfar. intros Hlt. discriminate Hlt. }
  split; [reflexivity | split; [reflexivity |]].
  split; [exact H1 | split; [exact (Hright H1) |]].
  split; [exact H2 | exact (Hleft H2)].
Defined.

(** ** Movement and the arena bounds *)

(** The position after the movement stage, by the two gates. *)
Lemma update_position_x (g w : Z) (p : Player.t) :
  let speed := BodyParameters.speed (Player.params p) in
  let bound := inject_Z (w - BodyParameters.width (Player.params p)) in
  let x1 :=
    if Player.moving_left p && Qltb 0 (Player.x p)
    then (Player.x p - speed)%Q else Player.x p in
  Player.x (Player.update_position g w p)
  = if Player.moving_right p && Qltb x1 bound then (x1 + speed)%Q else x1.
Proof.
  unfold Player.update_position. split_tests; congruence.
Qed.

(** C4, as the code has it.  A fighter inside the arena bounds
    [0 <= x <= arena_width - width] is, after [update], less than one step
    of [speed] outside them: each move is gated on the position before the
    step and the result is not clamped. *)
Theorem update_overshoots_less_than_a_step
        (g w : Z) (ox : option Q) (p : Player.t) :
  let speed := BodyParameters.speed (Player.params p) in
  let bound := inject_Z (w - BodyParameters.width (Player.params p)) in
  (0 < speed)%Q ->
  (0 <= Player.x p)%Q -> (Player.x p <= bound)%Q ->
  (- speed < Player.x (Player.update g w ox p))%Q
  /\ (Player.x (Player.update g w ox p) < bound + speed)%Q.
Proof.
  intros speed bound Hs H0 Hb.
  rewrite update_x, update_position_x. fold speed. fold bound.
  destruct (Player.moving_left p && Qltb 0 (Player.x p)) eqn:EL;
    destruct (Player.moving_right p) eqn:ER; cbn [andb];
    match goal with
    | |- context [Qltb ?a ?b] =>
        destruct (Qltb a b) eqn:E;
        [apply Qltb_lt in E | apply Qltb_ge in E]
    | _ => idtac
    end;
    try (apply andb_true_iff in EL; destruct EL as [_ EL];
         apply Qltb_lt in EL);
    split; lra.
Qed.

Lemma update_overshoots_less_than_a_step_witness :
  (- (55 # 10) < Player.x (Player.update ground_y screen_width None
                             left_runner))%Q
  /\ (Player.x (Player.update ground_y screen_width None left_runner)
      < inject_Z (screen_width - 52) + (55 # 10))%Q.
Proof.
  apply (update_overshoots_less_than_a_step
           ground_y screen_width None left_runner).
  - reflexivity.
  - vm_compute. discriminate.
  - vm_compute. discriminate.
Defined.

(** C4 as stated fails: the athlete who walks left from [x = 200] stands at
    [x = 2] after 36 frames, inside the bounds, and at [x = -7/2] after the
    next [update]. *)
Lemma update_leaves_arena :
  (0 <= Player.x left_runner)%Q
  /\ (Player.x left_runner
      <= inject_Z (screen_width
                   - BodyParameters.width (Player.params left_runner)))%Q
  /\ (Player.x (Player.update ground_y screen_width None left_runner)
      < 0)%Q.
Proof.
  repeat split; vm_compute; reflexivity || discriminate.
Qed.

(** The monolithic [update] moves the fighter by the same two gates. *)
Lemma duelist_update_leaves_arena :
  let p := Duelist.Player.set_x (inject_Z 2)
             (Duelist.Player.move_left
                (Duelist.Player.init (inject_Z 200) 530 true ATHLETIC)) in
  (Duelist.Player.x (Duelist.Player.update ground_y screen_width None p)
   < 0)%Q.
Proof. vm_compute. reflexivity. Qed.

(** ** Blocking *)

Lemma block_starts (ox : Q) (p : Player.t) :
  Player.block_cooldown p <= 0 ->
  Player.blocking (Player.block ox p) = true
  /\ Player.block_cooldown (Player.block ox p) = 40
  /\ Player.block_direction (Player.block ox p) = Player.side_of ox p.
Proof.
  intros H. unfold Player.block. apply Z.leb_le in H. rewrite H.
  cbn. auto.
Qed.

Lemma as_player_inherited (f : Player.t -> Player.t) (b : Bot.t) :
  Bot.as_player (Bot.inherited f b) = f (Bot.as_player b).
Proof. reflexivity. Qed.

(** [Bot.update] when the health test holds and the draw is below 0.3. *)
Lemma bot_update_reflex
      (g w : Z) (ox : Q) (b : Bot.t) (rs : Random.source) :
  (inject_Z (Player.health (Bot.as_player b))
   < inject_Z (Player.max_health (Bot.as_player b)) * (3 # 10))%Q ->
  (rs 0%nat < 3 # 10)%Q ->
  fst (Bot.update g w (Some ox) b rs)
  = Bot.inherited (Player.block ox)
      (Bot.inherited (Player.update g w (Some ox)) b).
Proof.
  intros Hlow Hdraw. unfold Bot.update. cbv zeta.
  rewrite as_player_inherited.
  destruct (update_health g w (Some ox) (Bot.as_player b)) as [Hh [Hm _]].
  rewrite Hh, Hm. apply Qltb_lt in Hlow. rewrite Hlow.
  unfold Random.bind, Random.random.
  apply Qltb_lt in Hdraw. rewrite Hdraw. reflexivity.
Qed.

(** C10. For a bot whose health is below three tenths of its maximum and
    whose block cooldown is 0, every source whose first draw is below 0.3
    makes [Bot.update] start a block (blocking, cooldown 40), whatever
    the decision cooldown, which the call leaves as it was; and there is
    such a source among those [random.random()] can give, with every draw
    in [0, 1). *)
Theorem bot_update_can_block
        (g w : Z) (opponent_x : Q) (b : Bot.t) :
  (inject_Z (Player.health (Bot.as_player b))
   < inject_Z (Player.max_health (Bot.as_player b)) * (3 # 10))%Q ->
  Player.block_cooldown (Bot.as_player b) = 0 ->
  (forall rs : Random.source,
      (rs 0%nat < 3 # 10)%Q ->
      let b' := fst (Bot.update g w (Some opponent_x) b rs) in
      Player.blocking (Bot.as_player b') = true
      /\ Player.block_cooldown (Bot.as_player b') = 40
      /\ Bot.decision_cooldown b' = Bot.decision_cooldown b)
  /\ exists rs : Random.source,
       unit_draws rs
       /\ let b' := fst (Bot.update g w (Some opponent_x) b rs) in
          Player.blocking (Bot.as_player b') = true
          /\ Player.block_cooldown (Bot.as_player b') = 40
          /\ Bot.decision_cooldown b' = Bot.decision_cooldown b.
Proof.
  intros Hlow Hcd.
  assert (Hall : forall rs : Random.source,
             (rs 0%nat < 3 # 10)%Q ->
             let b' := fst (Bot.update g w (Some opponent_x) b rs) in
             Player.blocking (Bot.as_player b') = true
             /\ Player.block_cooldown (Bot.as_player b') = 40
             /\ Bot.decision_cooldown b' = Bot.decision_cooldown b).
  { intros rs Hdraw. cbv zeta.
    rewrite (bot_update_reflex g w opponent_x b rs Hlow Hdraw).
    rewrite !as_player_inherited.
    destruct (block_starts opponent_x
                (Player.update g w (Some opponent_x) (Bot.as_player b)))
      as [Hb [Hc _]].
    - rewrite update_block_cooldown, Hcd. cbn. lia.
    - auto. }
  split; [exact Hall |].
  exists (Random.constant (1 # 10)). split.
  - intros n. unfold Random.constant. split; [discriminate | reflexivity].
  - apply Hall. reflexivity.
Qed.

(** The weak bot, seven ticks before its next decision, blocks on a first
    draw of 0.25. *)
Lemma bot_update_can_block_witness :
  let b := Bot.set_decision_cooldown 7 weak_bot in
  let b' := fst (Bot.update ground_y screen_width (Some (inject_Z 200)) b
                   (Random.constant (1 # 4))) in
  Bot.decision_cooldown b = 7
  /\ Player.blocking (Bot.as_player b) = false
  /\ Player.blocking (Bot.as_player b') = true
  /\ Player.block_cooldown (Bot.as_player b') = 40
  /\ Bot.decision_cooldown b' = Bot.decision_cooldown b.
Proof.
  intros b b'.
  split; [reflexivity | split; [reflexivity |]].
  exact (proj1 (bot_update_can_block ground_y screen_width (inject_Z 200)
                  b eq_refl eq_refl)
           (Random.constant (1 # 4)) eq_refl).
Defined.

(** [block] is gated by its cooldown. *)
Lemma block_on_cooldown_is_noop (ox : Q) (p : Player.t) :
  0 < Player.block_cooldown p -> Player.block ox p = p.
Proof.
  intros H. unfold Player.block. apply Z.leb_gt in H. now rewrite H.
Qed.

(** [block] never ends a block. *)
Lemma block_keeps_blocking (ox : Q) (p : Player.t) :
  Player.blocking p = true -> Player.blocking (Player.block ox p) = true.
Proof.
  intros H. unfold Player.block. split_tests; auto.
Qed.

(** Among the methods of [Player], only [update] ends a block, and only on
    the frame that takes the block cooldown from 1 to 0. *)
Lemma player_op_ends_block (op : player_op) (p : Player.t) :
  Player.blocking p = true ->
  Player.blocking (apply_op op p) = false ->
  is_update (op_inherited op)
  /\ Player.block_cooldown p = 1
  /\ Player.block_cooldown (apply_op op p) = 0.
Proof.
  intros Hb Hend. destruct op; cbn [apply_op] in *.
  - unfold Player.move_left in Hend. cbn in Hend. congruence.
  - unfold Player.move_right in Hend. cbn in Hend. congruence.
  - unfold Player.stop_moving in Hend. revert Hend. split_tests; congruence.
  - unfold Player.attack, Player.determine_attack_hand in Hend.
    revert Hend. split_tests; congruence.
  - rewrite block_keeps_blocking in Hend by assumption. discriminate.
  - rewrite update_blocking in Hend. rewrite update_block_cooldown.
    destruct (0 <? Player.block_cooldown p) eqn:E1;
      destruct (Player.block_cooldown p - 1 <=? 0) eqn:E2;
      cbn [andb] in Hend; try congruence.
    apply Z.ltb_lt in E1. apply Z.leb_le in E2. cbn. repeat split; lia.
  - unfold Player.take_damage in Hend. rewrite Hb in Hend. cbn in Hend.
    congruence.
  - unfold Player.heal in Hend. cbn in Hend. congruence.
Qed.

Lemma bot_after_update (g w : Z) (ox : option Q) (b : Bot.t)
      (rs : Random.source) :
  bot_after (op_bot_update g w ox) b rs = fst (Bot.update g w ox b rs).
Proof.
  unfold bot_after, apply_bot_op, Random.bind.
  destruct (Bot.update g w ox b rs) as [b' rs']. reflexivity.
Qed.

(** The fighter inside the bot after [Bot.update]: the updated fighter, on
    which the reflex may have called [block]. *)
Lemma bot_update_cases (g w : Z) (ox : option Q) (b : Bot.t)
      (rs : Random.source) :
  let p' := Player.update g w ox (Bot.as_player b) in
  let b' := fst (Bot.update g w ox b rs) in
  Bot.decision_cooldown b' = Bot.decision_cooldown b
  /\ (Bot.as_player b' = p'
      \/ exists o : Q, Bot.as_player b' = Player.block o p').
Proof.
  unfold Bot.update, Random.bind, Random.random, Random.ret.
  destruct ox as [o |]; split_tests; split; auto; right; now exists o.
Qed.

(** Among the calls on a bot, a block ends either with the frame that takes
    the block cooldown from 1 to 0, or in a decision that is actually
    taken. *)
Lemma bot_op_ends_block (op : bot_op) (b : Bot.t) (rs : Random.source) :
  Player.blocking (Bot.as_player b) = true ->
  Player.blocking (Bot.as_player (bot_after op b rs)) = false ->
  (is_update op
   /\ Player.block_cooldown (Bot.as_player b) = 1
   /\ Player.block_cooldown (Bot.as_player (bot_after op b rs)) = 0)
  \/ (is_decision op /\ Bot.decision_cooldown b <= 0).
Proof.
  intros Hb Hend. destruct op as [o | g w ox | player w].
  - left. unfold bot_after, apply_bot_op, Random.ret in *. cbn [fst snd] in *.
    rewrite as_player_inherited in *.
    destruct (player_op_ends_block o _ Hb Hend) as [Hu [H1 H0]]. auto.
  - left. rewrite bot_after_update in *.
    destruct (bot_update_cases g w ox b rs) as [_ [Hp | [o Hp]]];
      cbv zeta in Hp; rewrite Hp in *.
    + destruct (player_op_ends_block (op_update g w ox) _ Hb Hend)
        as [_ [H1 H0]].
      cbn. auto.
    + exfalso.
      destruct (Player.blocking (Player.update g w ox (Bot.as_player b)))
        eqn:Hupd.
      * rewrite block_keeps_blocking in Hend by assumption. discriminate.
      * destruct (player_op_ends_block (op_update g w ox) _ Hb Hupd)
          as [_ [_ H0]].
        cbn [apply_op] in H0.
        destruct (block_starts o (Player.update g w ox (Bot.as_player b)))
          as [Hstart _]; [lia | congruence].
  - right. split; [exact I |].
    unfold bot_after, apply_bot_op, Bot.make_decision in Hend.
    destruct (0 <? Bot.decision_cooldown b) eqn:E.
    + cbn in Hend. congruence.
    + apply Z.ltb_ge in E. exact E.
Qed.

(** ** The resolver *)

Lemma check_block_not_blocking (defender attacker : Player.t) :
  Player.blocking defender = false ->
  Game.check_block defender attacker = false.
Proof. intros H. unfold Game.check_block. now rewrite H. Qed.

Lemma check_block_iff (defender attacker : Player.t) :
  Game.check_block defender attacker = true <->
  Player.blocking defender = true
  /\ ((Player.attacking_with_right attacker = true
       /\ Player.block_direction defender = "right"
       /\ (Player.x attacker < Player.x defender)%Q)
      \/ (Player.attacking_with_right attacker = false
          /\ Player.block_direction defender = "left"
          /\ (Player.x defender < Player.x attacker)%Q)).
Proof.
  unfold Game.check_block.
  destruct (Player.blocking defender); cbn [negb].
  - destruct (Player.attacking_with_right attacker);
      rewrite andb_true_iff, String.eqb_eq, Qltb_lt; split.
    + intros [Hd Hx]. split; [reflexivity | left; auto].
    + intros [_ [[_ H] | [H _]]]; [exact H | discriminate].
    + intros [Hd Hx]. split; [reflexivity | right; auto].
    + intros [_ [[H _] | [_ H]]]; [discriminate | exact H].
  - split; [discriminate | intros [H _]; discriminate].
Qed.

(** A block on the wrong side is still a block for [take_damage]: the
    resolver then changes nothing and the swing stays live. *)
Lemma failed_block_still_negates (hit : bool) (attacker defender : Player.t) :
  Player.blocking defender = true ->
  Game.check_block defender attacker = false ->
  Game.resolve_attack hit attacker defender
  = (Returned, (attacker, defender)).
Proof.
  intros Hb Hc. unfold Game.resolve_attack, Player.take_damage.
  rewrite Hc, Hb. cbn [negb].
  destruct (Player.attacking attacker
            && negb (Player.already_hit_in_current_attack attacker) && hit);
    reflexivity.
Qed.

(** What one half of the resolver leaves alone: the attacker's health and
    the defender's swing mark. *)
Lemma resolve_attack_frame (hit : bool) (attacker defender : Player.t) :
  let r := Game.resolve_attack hit attacker defender in
  Player.health (fst (snd r)) = Player.health attacker
  /\ Player.already_hit_in_current_attack (snd (snd r))
     = Player.already_hit_in_current_attack defender.
Proof.
  unfold Game.resolve_attack, Player.take_damage. split_tests; auto.
Qed.

(** The second half of [check_collisions] changes neither the health of
    player 2 nor the swing mark of player 1. *)
Lemma check_collisions_first_half
      (hit12 hit21 : bool) (player1 player2 : Player.t) :
  let r1 := Game.resolve_attack hit12 player1 player2 in
  let r := Game.check_collisions hit12 hit21 player1 player2 in
  Player.health (snd (snd r)) = Player.health (snd (snd r1))
  /\ Player.already_hit_in_current_attack (fst (snd r))
     = Player.already_hit_in_current_attack (fst (snd r1)).
Proof.
  cbv zeta. unfold Game.check_collisions.
  destruct (Game.resolve_attack hit12 player1 player2)
    as [[| e] [p1 p2]]; cbn [fst snd]; auto.
  pose proof (resolve_attack_frame hit21 p2 p1) as H. cbv zeta in H.
  destruct (Game.resolve_attack hit21 p2 p1) as [o [p2' p1']].
  cbn [fst snd] in *. tauto.
Qed.

(** A landed hit: the defender's own default amount is applied, and the
    read of [defender.width] for the hit effect raises before the swing is
    marked. *)
Lemma landed_hit_raises (attacker defender : Player.t) :
  Player.attacking attacker = true ->
  Player.already_hit_in_current_attack attacker = false ->
  Player.blocking defender = false ->
  Game.resolve_attack true attacker defender
  = (Raised AttributeError,
     (attacker, snd (Player.take_damage None defender))).
Proof.
  intros Ha Hf Hb. unfold Game.resolve_attack.
  rewrite Ha, Hf, (check_block_not_blocking _ _ Hb).
  unfold Player.take_damage. rewrite Hb. reflexivity.
Qed.

(** ** One hit per swing *)

(** The monolithic implementation marks a swing on its first hit.  First
    the stages of its [update], attribute by attribute. *)
Lemma duelist_update_position_frame (g w : Z) (p : Duelist.Player.t) :
  let q := Duelist.Player.update_position g w p in
  Duelist.Player.health q = Duelist.Player.health p
  /\ Duelist.Player.blocking q = Duelist.Player.blocking p
  /\ Duelist.Player.block_cooldown q = Duelist.Player.block_cooldown p
  /\ Duelist.Player.attacking q = Duelist.Player.attacking p
  /\ Duelist.Player.attack_animation q = Duelist.Player.attack_animation p
  /\ Duelist.Player.already_hit_in_current_attack q
     = Duelist.Player.already_hit_in_current_attack p.
Proof.
  unfold Duelist.Player.update_position.
  split_tests; repeat split; congruence.
Qed.

Lemma duelist_update_attack_frame (p : Duelist.Player.t) :
  let q := Duelist.Player.update_attack p in
  Duelist.Player.health q = Duelist.Player.health p
  /\ Duelist.Player.blocking q = Duelist.Player.blocking p
  /\ Duelist.Player.block_cooldown q = Duelist.Player.block_cooldown p.
Proof.
  unfold Duelist.Player.update_attack.
  split_tests; repeat split; congruence.
Qed.

Lemma duelist_update_block_frame (p : Duelist.Player.t) :
  let q := Duelist.Player.update_block p in
  Duelist.Player.health q = Duelist.Player.health p
  /\ Duelist.Player.attacking q = Duelist.Player.attacking p
  /\ Duelist.Player.attack_animation q = Duelist.Player.attack_animation p
  /\ Duelist.Player.already_hit_in_current_attack q
     = Duelist.Player.already_hit_in_current_attack p.
Proof.
  unfold Duelist.Player.update_block.
  split_tests; repeat split; congruence.
Qed.

Lemma duelist_update_block_direction_frame
      (ox : option Q) (p : Duelist.Player.t) :
  let q := Duelist.Player.update_block_direction ox p in
  Duelist.Player.health q = Duelist.Player.health p
  /\ Duelist.Player.blocking q = Duelist.Player.blocking p
  /\ Duelist.Player.attacking q = Duelist.Player.attacking p
  /\ Duelist.Player.attack_animation q = Duelist.Player.attack_animation p
  /\ Duelist.Player.already_hit_in_current_attack q
     = Duelist.Player.already_hit_in_current_attack p.
Proof.
  unfold Duelist.Player.update_block_direction.
  destruct ox; split_tests; repeat split; congruence.
Qed.

(** The attack stage ends a swing or leaves its mark alone. *)
Lemma duelist_update_attack_spent (p : Duelist.Player.t) :
  duelist_swing_spent p -> duelist_swing_spent (Duelist.Player.update_attack p).
Proof.
  unfold duelist_swing_spent, Duelist.Player.update_attack.
  intros H. split_tests; intuition congruence.
Qed.

(** The attack stage on the first frame of a swing. *)
Lemma duelist_update_attack_first (p : Duelist.Player.t) :
  Duelist.Player.attacking p = true ->
  Duelist.Player.attack_animation p = 15 ->
  Duelist.Player.already_hit_in_current_attack p = false ->
  Duelist.Player.attacking (Duelist.Player.update_attack p) = true
  /\ Duelist.Player.already_hit_in_current_attack
       (Duelist.Player.update_attack p) = false.
Proof.
  intros Ha Hn Hf. unfold Duelist.Player.update_attack.
  rewrite Ha, Hn. cbn. split_tests; auto.
Qed.

(** The block stage never starts a block. *)
Lemma duelist_update_block_idle (p : Duelist.Player.t) :
  Duelist.Player.blocking p = false ->
  Duelist.Player.blocking (Duelist.Player.update_block p) = false.
Proof.
  unfold Duelist.Player.update_block. intros H. split_tests; auto.
Qed.

(** The four frames along one call of the monolithic [update]. *)
Ltac duelist_update_frames g w ox p :=
  unfold Duelist.Player.update;
  pose proof (duelist_update_position_frame g w p);
  pose proof (duelist_update_attack_frame
                (Duelist.Player.update_position g w p));
  pose proof (duelist_update_block_frame
                (Duelist.Player.update_attack
                   (Duelist.Player.update_position g w p)));
  pose proof (duelist_update_block_direction_frame ox
                (Duelist.Player.update_block
                   (Duelist.Player.update_attack
                      (Duelist.Player.update_position g w p))));
  cbv zeta in *; split_hyps.

Lemma duelist_update_frame (g w : Z) (ox : option Q) (p : Duelist.Player.t) :
  let q := Duelist.Player.update g w ox p in
  Duelist.Player.health q = Duelist.Player.health p
  /\ (Duelist.Player.blocking p = false ->
      Duelist.Player.blocking q = false)
  /\ (duelist_swing_spent p -> duelist_swing_spent q).
Proof.
  pose proof (duelist_update_block_idle
                (Duelist.Player.update_attack
                   (Duelist.Player.update_position g w p))) as Hidle.
  pose proof (duelist_update_attack_spent
                (Duelist.Player.update_position g w p)) as Hspent.
  unfold duelist_swing_spent in *.
  duelist_update_frames g w ox p.
  repeat split.
  - congruence.
  - intros Hb. rewrite_frames. apply Hidle. congruence.
  - intros Hs. rewrite_frames. apply Hspent. rewrite_frames. exact Hs.
Qed.

Lemma duelist_update_first (g w : Z) (ox : option Q) (ox0 : Q)
      (p : Duelist.Player.t) :
  Duelist.Player.attack_cooldown p <= 0 ->
  let q := Duelist.Player.update g w ox (Duelist.Player.attack ox0 p) in
  Duelist.Player.attacking q = true
  /\ Duelist.Player.already_hit_in_current_attack q = false.
Proof.
  intros H. apply Z.leb_le in H.
  assert (Hatk : Duelist.Player.attacking (Duelist.Player.attack ox0 p) = true
                 /\ Duelist.Player.attack_animation
                      (Duelist.Player.attack ox0 p) = 15
                 /\ Duelist.Player.already_hit_in_current_attack
                      (Duelist.Player.attack ox0 p) = false).
  { unfold Duelist.Player.attack. rewrite H. cbn. auto. }
  destruct Hatk as [Ha [Hn Hf]].
  set (a := Duelist.Player.attack ox0 p) in *. clearbody a.
  pose proof (duelist_update_attack_first
                (Duelist.Player.update_position g w a)) as Hfirst.
  duelist_update_frames g w ox a.
  rewrite_frames. apply Hfirst; congruence.
Qed.

(** The monolithic resolver: a spent swing is skipped. *)
Lemma duelist_resolve_spent (hit : bool) (a d : Duelist.Player.t)
      (e : list Duelist.Game.effect) :
  duelist_swing_spent a ->
  Duelist.Game.resolve_attack hit a d e = (a, d, e).
Proof.
  unfold duelist_swing_spent, Duelist.Game.resolve_attack.
  intros [H | H]; rewrite H; [reflexivity |].
  now rewrite andb_false_r.
Qed.

(** A live swing that meets an idle defender lands, takes 10 health and is
    marked. *)
Lemma duelist_resolve_hit (a d : Duelist.Player.t)
      (e : list Duelist.Game.effect) :
  Duelist.Player.attacking a = true ->
  Duelist.Player.already_hit_in_current_attack a = false ->
  Duelist.Player.blocking d = false ->
  let r := Duelist.Game.resolve_attack true a d e in
  duelist_swing_spent (fst (fst r))
  /\ Duelist.Player.health (snd (fst r))
     = Z.max 0 (Duelist.Player.health d - 10)
  /\ Duelist.Player.blocking (snd (fst r)) = false
  /\ List.length (snd r) = S (List.length e).
Proof.
  intros Ha Hf Hb.
  unfold duelist_swing_spent, Duelist.Game.resolve_attack,
    Duelist.Game.block_hit, Duelist.Player.take_damage,
    Duelist.Game.create_hit_effect.
  rewrite Ha, Hf, Hb. cbn. rewrite length_app. cbn.
  repeat split; auto. lia.
Qed.

(** What one half of the monolithic resolver leaves alone. *)
Lemma duelist_resolve_frame (hit : bool) (a d : Duelist.Player.t)
      (e : list Duelist.Game.effect) :
  let r := Duelist.Game.resolve_attack hit a d e in
  Duelist.Player.health (fst (fst r)) = Duelist.Player.health a
  /\ Duelist.Player.blocking (fst (fst r)) = Duelist.Player.blocking a
  /\ Duelist.Player.attacking (snd (fst r)) = Duelist.Player.attacking d
  /\ Duelist.Player.already_hit_in_current_attack (snd (fst r))
     = Duelist.Player.already_hit_in_current_attack d.
Proof.
  unfold Duelist.Game.resolve_attack, Duelist.Player.take_damage.
  split_tests; auto.
Qed.

(** The whole resolver, for the attack of player 1 on a player 2 who does
    not block: the second half touches neither the health of player 2 nor
    the swing of player 1. *)
Lemma duelist_check_collisions_second_half
      (hit12 hit21 : bool) (p1 p2 : Duelist.Player.t)
      (e : list Duelist.Game.effect) :
  let r1 := Duelist.Game.resolve_attack hit12 p1 p2 e in
  let r := Duelist.Game.check_collisions hit12 hit21 p1 p2 e in
  Duelist.Player.health (snd (fst r)) = Duelist.Player.health (snd (fst r1))
  /\ Duelist.Player.blocking (snd (fst r))
     = Duelist.Player.blocking (snd (fst r1))
  /\ (duelist_swing_spent (fst (fst r1)) -> duelist_swing_spent (fst (fst r))).
Proof.
  cbv zeta. unfold Duelist.Game.check_collisions.
  destruct (Duelist.Game.resolve_attack hit12 p1 p2 e) as [[q1 q2] e1].
  pose proof (duelist_resolve_frame hit21 q2 q1 e1) as H. cbv zeta in H.
  destruct (Duelist.Game.resolve_attack hit21 q2 q1 e1) as [[q2' q1'] e2].
  cbn [fst snd] in *. unfold duelist_swing_spent.
  destruct H as [Hh [Hb [Ha Hf]]]. rewrite Hh, Hb, Ha, Hf. auto.
Qed.

(** The players after a frame of a match that is not finished. *)
Lemma duelist_update_game_players (g w : Z) (hits : bool * bool)
      (s : Duelist.Game.t) :
  Duelist.Game.battle_finished s = false ->
  Duelist.Game.player1 (Duelist.Game.update_game g w hits s)
  = fst (fst (Duelist.Game.update_players g w hits
                (Duelist.Game.player1 s) (Duelist.Game.player2 s)
                (Duelist.Game.update_hit_effects
                   (Duelist.Game.hit_effects s))))
  /\ Duelist.Game.player2 (Duelist.Game.update_game g w hits s)
     = snd (fst (Duelist.Game.update_players g w hits
                   (Duelist.Game.player1 s) (Duelist.Game.player2 s)
                   (Duelist.Game.update_hit_effects
                      (Duelist.Game.hit_effects s)))).
Proof.
  intros Hrun. unfold Duelist.Game.update_game. rewrite Hrun.
  destruct (Duelist.Game.update_players _ _ _ _ _ _) as [[q1 q2] e'].
  split_tests; auto.
Qed.

(** A frame on a spent swing leaves the health of an idle player 2. *)
Lemma duelist_update_players_spent (g w : Z) (hits : bool * bool)
      (p1 p2 : Duelist.Player.t) (e : list Duelist.Game.effect) :
  duelist_swing_spent p1 ->
  Duelist.Player.blocking p2 = false ->
  let r := Duelist.Game.update_players g w hits p1 p2 e in
  Duelist.Player.health (snd (fst r)) = Duelist.Player.health p2
  /\ Duelist.Player.blocking (snd (fst r)) = false
  /\ duelist_swing_spent (fst (fst r)).
Proof.
  intros Hs Hb. cbv zeta. unfold Duelist.Game.update_players.
  set (q1 := Duelist.Player.update g w _ p1).
  set (q2 := Duelist.Player.update g w _ p2).
  destruct (duelist_update_frame g w (Some (Duelist.Player.x p2)) p1)
    as [_ [_ Hs1]].
  destruct (duelist_update_frame g w (Some (Duelist.Player.x q1)) p2)
    as [Hh2 [Hb2 _]].
  fold q1 in Hs1. fold q2 in Hh2, Hb2. clearbody q2. clearbody q1.
  destruct (duelist_check_collisions_second_half (fst hits) (snd hits)
              q1 q2 e) as [Eh [Eb Es]].
  rewrite (duelist_resolve_spent (fst hits) q1 q2 e (Hs1 Hs)) in Eh, Eb, Es.
  cbn [fst snd] in Eh, Eb, Es.
  rewrite Eh, Eb, Hh2. auto.
Qed.

(** The first frame of a swing lands the hit on an idle player 2. *)
Lemma duelist_update_players_first (g w : Z) (hit21 : bool) (ox : Q)
      (p1 p2 : Duelist.Player.t) (e : list Duelist.Game.effect) :
  Duelist.Player.attack_cooldown p1 <= 0 ->
  Duelist.Player.blocking p2 = false ->
  let r := Duelist.Game.update_players g w (true, hit21)
             (Duelist.Player.attack ox p1) p2 e in
  Duelist.Player.health (snd (fst r))
  = Z.max 0 (Duelist.Player.health p2 - 10)
  /\ Duelist.Player.blocking (snd (fst r)) = false
  /\ duelist_swing_spent (fst (fst r)).
Proof.
  intros Hcd Hb. cbv zeta. unfold Duelist.Game.update_players.
  cbn [fst snd].
  set (q1 := Duelist.Player.update g w _ (Duelist.Player.attack ox p1)).
  set (q2 := Duelist.Player.update g w _ p2).
  destruct (duelist_update_first g w (Some (Duelist.Player.x p2)) ox p1 Hcd)
    as [Ha Hf].
  fold q1 in Ha, Hf.
  destruct (duelist_update_frame g w (Some (Duelist.Player.x q1)) p2)
    as [Hh2 [Hb2 _]].
  fold q2 in Hh2, Hb2. clearbody q2. clearbody q1.
  destruct (duelist_check_collisions_second_half true hit21 q1 q2 e)
    as [Eh [Eb Es]].
  destruct (duelist_resolve_hit q1 q2 e Ha Hf (Hb2 Hb)) as [Rs [Rh [Rb _]]].
  rewrite Eh, Eb, Rh, Rb, Hh2. auto.
Qed.

(** Once the swing has landed, no frame changes the health of player 2. *)
Lemma duelist_after_hit_frame (g w h : Z) (hits : bool * bool)
      (s : Duelist.Game.t) :
  duelist_after_hit h s ->
  duelist_after_hit h (Duelist.Game.update_game g w hits s).
Proof.
  intros [Hh [Hb Hs]].
  destruct (Duelist.Game.battle_finished s) eqn:Hfin.
  - unfold Duelist.Game.update_game. rewrite Hfin. repeat split; assumption.
  - destruct (duelist_update_game_players g w hits s Hfin) as [E1 E2].
    destruct (duelist_update_players_spent g w hits _ _
                (Duelist.Game.update_hit_effects (Duelist.Game.hit_effects s))
                Hs Hb) as [Rh [Rb Rs]].
    unfold duelist_after_hit. rewrite E1, E2, Rh. auto.
Qed.

Lemma duelist_frames_cons (g w : Z) (hit : bool * bool)
      (rest : list (bool * bool)) (s : Duelist.Game.t) :
  Duelist.Game.frames g w (hit :: rest) s
  = Duelist.Game.frames g w rest (Duelist.Game.update_game g w hit s).
Proof. reflexivity. Qed.

Lemma duelist_after_hit_frames (g w h : Z) (hits : list (bool * bool)) :
  forall s : Duelist.Game.t,
    duelist_after_hit h s ->
    duelist_after_hit h (Duelist.Game.frames g w hits s).
Proof.
  induction hits as [| hit rest IH]; intros s Hs.
  - exact Hs.
  - rewrite duelist_frames_cons. apply IH.
    apply duelist_after_hit_frame. exact Hs.
Qed.

(** The first frame of the swing lands the hit. *)
Lemma duelist_first_frame_hits (g w : Z) (hit21 : bool) (ox : Q)
      (p1 p2 : Duelist.Player.t) (e : list Duelist.Game.effect) :
  Duelist.Player.attack_cooldown p1 <= 0 ->
  Duelist.Player.blocking p2 = false ->
  duelist_after_hit (Z.max 0 (Duelist.Player.health p2 - 10))
    (Duelist.Game.update_game g w (true, hit21) (duelist_swing ox p1 p2 e)).
Proof.
  intros Hcd Hb.
  destruct (duelist_update_game_players g w (true, hit21)
              (duelist_swing ox p1 p2 e) eq_refl) as [E1 E2].
  destruct (duelist_update_players_first g w hit21 ox p1 p2
              (Duelist.Game.update_hit_effects e) Hcd Hb) as [Rh [Rb Rs]].
  unfold duelist_after_hit. rewrite E1, E2.
  cbn [duelist_swing Duelist.Game.player1 Duelist.Game.player2
       Duelist.Game.hit_effects].
  auto.
Qed.

(** The promise of C2 in the monolithic game: after player 1 starts a
    swing, however many frames follow in which the rectangles intersect
    (first entry of each pair), a player 2 who does not block loses 10
    health exactly once. *)
Lemma duelist_swing_hits_once
      (g w : Z) (ox : Q) (p1 p2 : Duelist.Player.t)
      (e : list Duelist.Game.effect) (hit21 : bool)
      (rest : list (bool * bool)) :
  Duelist.Player.attack_cooldown p1 <= 0 ->
  Duelist.Player.blocking p2 = false ->
  Duelist.Player.health
    (Duelist.Game.player2
       (Duelist.Game.frames g w ((true, hit21) :: rest)
          (duelist_swing ox p1 p2 e)))
  = Z.max 0 (Duelist.Player.health p2 - 10).
Proof.
  intros Hcd Hb. rewrite duelist_frames_cons.
  destruct (duelist_after_hit_frames g w _ rest _
              (duelist_first_frame_hits g w hit21 ox p1 p2 e Hcd Hb))
    as [H _].
  exact H.
Qed.

(** ** The adaptation of the bot *)

Create HintDb vitals.

(** Closes a goal about kept weights or vitals once the tests are split. *)
Ltac kept :=
  unfold same_weights, same_vitals in *; cbn in *; intuition congruence.

Lemma same_vitals_refl (p : Player.t) : same_vitals p p.
Proof. kept. Qed.

Lemma same_vitals_trans (p q r : Player.t) :
  same_vitals p q -> same_vitals q r -> same_vitals p r.
Proof. kept. Qed.

Lemma same_weights_refl (b : Bot.t) : same_weights b b.
Proof. kept. Qed.

Lemma same_weights_trans (b c d : Bot.t) :
  same_weights b c -> same_weights c d -> same_weights b d.
Proof. kept. Qed.

(** The methods of [Player] that a decision calls keep the vitals. *)
Lemma move_left_vitals (p : Player.t) : same_vitals p (Player.move_left p).
Proof. unfold Player.move_left. kept. Qed.

Lemma move_right_vitals (p : Player.t) : same_vitals p (Player.move_right p).
Proof. unfold Player.move_right. kept. Qed.

Lemma stop_moving_vitals (p : Player.t) :
  same_vitals p (Player.stop_moving p).
Proof. unfold Player.stop_moving. split_tests; kept. Qed.

Lemma attack_vitals (ox : Q) (p : Player.t) :
  same_vitals p (Player.attack ox p).
Proof.
  unfold Player.attack, Player.determine_attack_hand.
  split_tests; kept.
Qed.

Lemma block_vitals (ox : Q) (p : Player.t) :
  same_vitals p (Player.block ox p).
Proof. unfold Player.block. split_tests; kept. Qed.

Lemma update_vitals (g w : Z) (ox : option Q) (p : Player.t) :
  same_vitals p (Player.update g w ox p).
Proof. unfold same_vitals. apply update_health. Qed.

Lemma set_attacking_vitals (v : bool) (p : Player.t) :
  same_vitals p (Player.set_attacking v p).
Proof. kept. Qed.

Lemma set_blocking_vitals (v : bool) (p : Player.t) :
  same_vitals p (Player.set_blocking v p).
Proof. kept. Qed.

(** The assignments on the bot that keep its weights. *)
Lemma inherited_weights (f : Player.t -> Player.t) (b : Bot.t) :
  same_vitals (Bot.as_player b) (f (Bot.as_player b)) ->
  same_weights b (Bot.inherited f b).
Proof. kept. Qed.

Lemma set_last_action_weights (v : string) (b c : Bot.t) :
  same_weights b c -> same_weights b (Bot.set_last_action v c).
Proof. kept. Qed.

Lemma set_decision_cooldown_weights (v : Z) (b c : Bot.t) :
  same_weights b c -> same_weights b (Bot.set_decision_cooldown v c).
Proof. kept. Qed.

Lemma move_by_weights (player_is_left : bool) (b : Bot.t) :
  same_weights b (Bot.move_by player_is_left b).
Proof.
  unfold Bot.move_by. destruct player_is_left; apply inherited_weights;
    [apply move_left_vitals | apply move_right_vitals].
Qed.

#[export] Hint Resolve
  same_weights_refl move_by_weights inherited_weights
  set_last_action_weights set_decision_cooldown_weights
  move_left_vitals move_right_vitals stop_moving_vitals attack_vitals
  block_vitals update_vitals set_attacking_vitals set_blocking_vitals
  : vitals.

(** Each band of the decision keeps the weights, whatever is drawn. *)
Ltac band_keeps_weights :=
  intros; unfold Random.bind, Random.random, Random.ret;
  split_tests; auto with vitals.

Lemma decide_very_close_weights
      (px : Q) (left : bool) (b : Bot.t) (rs : Random.source) :
  same_weights b (fst (Bot.decide_very_close px left b rs)).
Proof. unfold Bot.decide_very_close. band_keeps_weights. Qed.

Lemma decide_close_weights
      (px : Q) (left : bool) (b : Bot.t) (rs : Random.source) :
  same_weights b (fst (Bot.decide_close px left b rs)).
Proof. unfold Bot.decide_close. band_keeps_weights. Qed.

Lemma decide_medium_weights
      (px : Q) (left : bool) (b : Bot.t) (rs : Random.source) :
  same_weights b (fst (Bot.decide_medium px left b rs)).
Proof. unfold Bot.decide_medium. band_keeps_weights. Qed.

Lemma decide_far_weights (left : bool) (b : Bot.t) (rs : Random.source) :
  same_weights b (fst (Bot.decide_far left b rs)).
Proof. unfold Bot.decide_far. band_keeps_weights. Qed.

Lemma adapt_to_opponent_weights
      (player : Bot.fighter) (left : bool) (b : Bot.t) (rs : Random.source) :
  same_weights b (fst (Bot.adapt_to_opponent player left b rs)).
Proof.
  unfold Bot.adapt_to_opponent.
  destruct (Bot.fighter_last_action player); band_keeps_weights.
Qed.




(** What [adapt_to_health] assigns, band by band. *)
Lemma adapt_to_health_weights (r : Q) (b : Bot.t) :
  let b' := Bot.adapt_to_health r b in
  Bot.as_player b' = Bot.as_player b
  /\ Bot.reaction_time b' = Bot.reaction_time b
  /\ Bot.aggression b'
     = (if Qltb r (3 # 10)
        then Qmin (95 # 100) (Bot.aggression b + (2 # 10))
        else if Qltb r (6 # 10)
             then Qmin (8 # 10) (Bot.aggression b + (1 # 10))
             else Bot.aggression b)
  /\ Bot.caution b'
     = (if Qltb r (3 # 10)
        then Qmax (5 # 100) (Bot.caution b - (1 # 10))
        else if Qltb r (6 # 10)
             then Qmax (2 # 10) (Bot.caution b - (5 # 100))
             else Bot.caution b).
Proof.
  unfold Bot.adapt_to_health. cbv zeta.
  destruct (Qltb r (3 # 10)); [| destruct (Qltb r (6 # 10))];
    repeat split; reflexivity.
Qed.




(** The band chosen by the distance keeps the weights. *)
Lemma band_weights (px : Q) (left : bool) (distance : Q) (b : Bot.t)
      (rs : Random.source) :
  same_weights b
    (fst ((if Qltb distance (inject_Z 80)
           then Bot.decide_very_close px left b
           else if Qltb distance (inject_Z 150)
                then Bot.decide_close px left b
                else if Qltb distance (inject_Z 250)
                     then Bot.decide_medium px left b
                     else Bot.decide_far left b) rs)).
Proof.
  destruct (Qltb distance (inject_Z 80));
    [apply decide_very_close_weights |].
  destruct (Qltb distance (inject_Z 150)); [apply decide_close_weights |].
  destruct (Qltb distance (inject_Z 250));
    [apply decide_medium_weights | apply decide_far_weights].
Qed.

(** The three resets that open a decision keep the weights. *)
Lemma decision_resets_weights (b : Bot.t) :
  same_weights b
    (Bot.inherited (Player.set_blocking false)
       (Bot.inherited (Player.set_attacking false)
          (Bot.inherited Player.stop_moving b))).
Proof.
  apply (same_weights_trans _
           (Bot.inherited (Player.set_attacking false)
              (Bot.inherited Player.stop_moving b)));
    [apply (same_weights_trans _ (Bot.inherited Player.stop_moving b)) |];
    auto with vitals.
Qed.

(** The end of a decision: the draw of the next decision cooldown. *)
Lemma decision_cooldown_weights (lo hi : Z) (b : Bot.t)
      (rs : Random.source) :
  same_weights b
    (snd (fst (Random.bind (Random.randint lo hi)
                 (fun cooldown =>
                    match cooldown with
                    | Some c =>
                        Random.ret (Returned, Bot.set_decision_cooldown c b)
                    | None => Random.ret (Raised ValueError, b)
                    end) rs))).
Proof.
  unfold Random.bind, Random.randint, Random.random, Random.ret.
  destruct (hi <? lo); cbn; auto with vitals.
Qed.




Lemma bot_update_weights (g w : Z) (ox : option Q) (b : Bot.t)
      (rs : Random.source) :
  same_weights b (fst (Bot.update g w ox b rs)).
Proof.
  assert (H1 : same_weights b (Bot.inherited (Player.update g w ox) b))
    by auto with vitals.
  unfold Bot.update, Random.bind, Random.random, Random.ret.
  destruct ox; split_tests; try exact H1.
  apply (same_weights_trans _ (Bot.inherited (Player.update g w (Some q)) b));
    auto with vitals.
Qed.


Lemma apply_bot_ops_cons (op : bot_op) (rest : list bot_op) (b : Bot.t)
      (rs : Random.source) :
  apply_bot_ops (op :: rest) b rs
  = match apply_bot_op op b rs with
    | ((Returned, b'), rs') => apply_bot_ops rest b' rs'
    | ((Raised e, b'), rs') => ((Raised e, b'), rs')
    end.
Proof.
  cbn [apply_bot_ops]. unfold Random.bind.
  destruct (apply_bot_op op b rs) as [[[| e] b'] rs']; reflexivity.
Qed.





(** ** The adaptation, band by band *)

(** Bots with the same weights and vitals adapt to the same weights. *)
Lemma adapt_to_health_same (b c : Bot.t) :
  same_weights b c ->
  same_weights (Bot.adapt_to_health (health_percentage b) b)
    (Bot.adapt_to_health (health_percentage c) c).
Proof.
  intros [Ea [Ec [Er [Eh [Em Ep]]]]].
  destruct (adapt_to_health_weights (health_percentage b) b)
    as [Bp [Br [Ba Bc]]].
  destruct (adapt_to_health_weights (health_percentage c) c)
    as [Cp [Cr [Ca Cc]]].
  unfold same_weights, same_vitals.
  rewrite Bp, Br, Ba, Bc, Cp, Cr, Ca, Cc.
  unfold health_percentage. rewrite Ea, Ec, Er, Eh, Em, Ep.
  repeat split; reflexivity.
Qed.

(** A decision that is taken by a bot with a maximum health other than 0
    leaves the weights that [adapt_to_health] assigns: no other part of
    the decision writes them. *)
Lemma taken_decision_weights
      (player : Bot.fighter) (w : Z) (b : Bot.t) (rs : Random.source) :
  Bot.decision_cooldown b <= 0 ->
  Player.max_health (Bot.as_player b) <> 0 ->
  same_weights (Bot.adapt_to_health (health_percentage b) b)
    (snd (fst (Bot.make_decision player w b rs))).
Proof.
  intros Hdc Hm. unfold Bot.make_decision.
  replace (0 <? Bot.decision_cooldown b) with false
    by (symmetry; apply Z.ltb_ge; exact Hdc).
  cbv zeta.
  pose proof (decision_resets_weights b) as Hreset.
  set (b0 := Bot.inherited (Player.set_blocking false) _) in *.
  clearbody b0.
  unfold Random.bind at 1.
  pose proof (band_weights (Bot.fighter_x player)
                (Qltb (Bot.fighter_x player) (Player.x (Bot.as_player b)))
                (Qabs (Player.x (Bot.as_player b) - Bot.fighter_x player))
                b0 rs) as Hband.
  match type of Hband with
  | same_weights _ (fst ?c) => destruct c as [b1 rs1]
  end.
  cbn [fst] in Hband.
  assert (H1 : same_weights b b1)
    by (apply (same_weights_trans _ b0); assumption).
  clear Hreset Hband.
  destruct (Player.max_health (Bot.as_player b1) =? 0) eqn:E0.
  - exfalso. apply Z.eqb_eq in E0.
    destruct H1 as [_ [_ [_ [_ [Em _]]]]]. congruence.
  - pose proof (adapt_to_health_same b b1 H1) as H02.
    fold (health_percentage b1).
    set (b2 := Bot.adapt_to_health (health_percentage b1) b1) in *.
    clearbody b2.
    unfold Random.bind at 1.
    pose proof (adapt_to_opponent_weights player
                  (Qltb (Bot.fighter_x player)
                        (Player.x (Bot.as_player b)))
                  b2 rs1) as Hopp.
    match type of Hopp with
    | same_weights _ (fst ?c) => destruct c as [b3 rs3]
    end.
    cbn [fst] in Hopp.
    pose proof (decision_cooldown_weights
                  (Z.max 5 (Bot.reaction_time b3 - 5))
                  (Z.min 30 (Bot.reaction_time b3 + 5)) b3 rs3) as Hend.
    set (b4 := snd (fst _)) in Hend |- *.
    clearbody b4.
    apply (same_weights_trans _ b2); [exact H02 |].
    apply (same_weights_trans _ b3); assumption.
Qed.

(** C9 on the code.  A decision that is taken adapts the weights by the
    band of [health / max_health] alone.  Below 0.3 the aggression becomes
    [min(0.95, aggression + 0.2)] and the caution [max(0.05, caution -
    0.1)]; from 0.3 to below 0.6 they become [min(0.8, aggression + 0.1)]
    and [max(0.2, caution - 0.05)]; from 0.6 on they stay.  The middle
    band therefore raises an aggression below 0.8, but lowers one above
    0.8 to 0.8, and it lowers a caution above 0.2, but raises one below
    0.2 to 0.2: for such a bot the adaptation goes the wrong way. *)
Theorem decision_adapts_by_band
        (player : Bot.fighter) (w : Z) (b : Bot.t) (rs : Random.source) :
  Bot.decision_cooldown b <= 0 ->
  Player.max_health (Bot.as_player b) <> 0 ->
  let b' := snd (fst (Bot.make_decision player w b rs)) in
  let a := Bot.aggression b in
  let c := Bot.caution b in
  ((health_percentage b < 3 # 10)%Q ->
   Bot.aggression b' = Qmin (95 # 100) (a + (2 # 10))
   /\ Bot.caution b' = Qmax (5 # 100) (c - (1 # 10)))
  /\ ((3 # 10 <= health_percentage b)%Q ->
      (health_percentage b < 6 # 10)%Q ->
      Bot.aggression b' = Qmin (8 # 10) (a + (1 # 10))
      /\ Bot.caution b' = Qmax (2 # 10) (c - (5 # 100))
      /\ ((a < 8 # 10)%Q -> (a < Bot.aggression b')%Q)
      /\ ((8 # 10 < a)%Q ->
          (Bot.aggression b' == 8 # 10)%Q /\ (Bot.aggression b' < a)%Q)
      /\ ((2 # 10 < c)%Q -> (Bot.caution b' < c)%Q)
      /\ ((c < 2 # 10)%Q ->
          (Bot.caution b' == 2 # 10)%Q /\ (c < Bot.caution b')%Q))
  /\ ((6 # 10 <= health_percentage b)%Q ->
      Bot.aggression b' = a /\ Bot.caution b' = c).
Proof.
  intros Hdc Hm b' a c.
  destruct (taken_decision_weights player w b rs Hdc Hm) as [Ea [Ec _]].
  fold b' in Ea, Ec.
  destruct (adapt_to_health_weights (health_percentage b) b)
    as [_ [_ [Aa Ac]]].
  rewrite Aa in Ea. rewrite Ac in Ec. clear Aa Ac.
  fold a in Ea. fold c in Ec.
  split; [| split].
  - intros Hlow. apply Qltb_lt in Hlow. rewrite Hlow in Ea, Ec. auto.
  - intros Hnot Hmid. apply Qltb_ge in Hnot. apply Qltb_lt in Hmid.
    rewrite Hnot, Hmid in Ea, Ec. rewrite Ea, Ec.
    split; [reflexivity | split; [reflexivity |]].
    destruct (Q.min_spec (8 # 10) (a + (1 # 10))) as [[H1 E1] | [H1 E1]];
      destruct (Q.max_spec (2 # 10) (c - (5 # 100)))
        as [[H2 E2] | [H2 E2]];
      rewrite E1, E2; repeat split; intros; lra.
  - intros Hhigh.
    assert (Hnot : Qltb (health_percentage b) (3 # 10) = false)
      by (apply Qltb_ge; lra).
    apply Qltb_ge in Hhigh. rewrite Hnot, Hhigh in Ea, Ec. auto.
Qed.

(** The bot of the highest difficulty (aggression 0.9, caution 0.1) at
    half health: its decision returns with the aggression at 0.8 and the
    caution at 0.2. *)
Lemma decision_adapts_by_band_witness :
  let r := Bot.make_decision (Bot.a_player athlete) screen_width
             insane_bot (Random.constant 0) in
  let b' := snd (fst r) in
  fst (fst r) = Returned
  /\ Bot.aggression insane_bot = 9 # 10
  /\ Bot.caution insane_bot = 1 # 10
  /\ (health_percentage insane_bot == 1 # 2)%Q
  /\ (Bot.aggression b' == 8 # 10)%Q
  /\ (Bot.aggression b' < Bot.aggression insane_bot)%Q
  /\ (Bot.caution b' == 2 # 10)%Q
  /\ (Bot.caution insane_bot < Bot.caution b')%Q.
Proof.
  intros r b'.
  assert (Hdc : Bot.decision_cooldown insane_bot <= 0) by (cbn; lia).
  assert (Hm : Player.max_health (Bot.as_player insane_bot) <> 0)
    by discriminate.
  assert (H3 : (3 # 10 <= health_percentage insane_bot)%Q)
    by (vm_compute; discriminate).
  assert (H6 : (health_percentage insane_bot < 6 # 10)%Q)
    by (vm_compute; reflexivity).
  destruct (proj1 (proj2 (decision_adapts_by_band (Bot.a_player athlete)
                            screen_width insane_bot (Random.constant 0)
                            Hdc Hm)) H3 H6)
    as [_ [_ [_ [Ha [_ Hc]]]]].
  destruct (Ha eq_refl) as [Ha1 Ha2].
  destruct (Hc eq_refl) as [Hc1 Hc2].
  split; [vm_compute; reflexivity |].
  split; [reflexivity | split; [reflexivity |]].
  split; [vm_compute; reflexivity |].
  split; [exact Ha1 | split; [exact Ha2 | split; [exact Hc1 | exact Hc2]]].
Defined.

(** * Further properties of the code *)

(** ** The attack and block windows over consecutive updates *)

Lemma update_attack_swing (p : Player.t) :
  let ends := Player.attacking p && (0 <? Player.attack_animation p)
              && (Player.attack_animation p - 1 <=? 0) in
  Player.attack_animation (Player.update_attack p)
  = (if Player.attacking p && (0 <? Player.attack_animation p)
     then Player.attack_animation p - 1
     else Player.attack_animation p)
  /\ Player.attacking (Player.update_attack p)
     = (if ends then false else Player.attacking p)
  /\ Player.already_hit_in_current_attack (Player.update_attack p)
     = (if ends then false else Player.already_hit_in_current_attack p).
Proof.
  unfold Player.update_attack.
  destruct (Player.attacking p) eqn:Ea; cbn [andb];
    [destruct (0 <? Player.attack_animation p) eqn:En; cbn [andb] |];
    split_tests; repeat split; congruence.
Qed.

Lemma update_swing (g w : Z) (ox : option Q) (p : Player.t) :
  let ends := Player.attacking p && (0 <? Player.attack_animation p)
              && (Player.attack_animation p - 1 <=? 0) in
  Player.attack_animation (Player.update g w ox p)
  = (if Player.attacking p && (0 <? Player.attack_animation p)
     then Player.attack_animation p - 1
     else Player.attack_animation p)
  /\ Player.attacking (Player.update g w ox p)
     = (if ends then false else Player.attacking p)
  /\ Player.already_hit_in_current_attack (Player.update g w ox p)
     = (if ends then false else Player.already_hit_in_current_attack p).
Proof.
  pose proof (update_attack_swing (Player.update_position g w p)) as Hs.
  update_frames g w ox p. rewrite_frames. auto.
Qed.

Lemma updates_snoc (args : list update_args) (a : update_args)
      (p : Player.t) :
  updates (args ++ [a]) p
  = Player.update (fst (fst a)) (snd (fst a)) (snd a) (updates args p).
Proof.
  unfold updates. rewrite fold_left_app. destruct a as [[g w] ox].
  reflexivity.
Qed.

(** The swing after [n] updates. *)
Lemma swing_after_updates (ox : Q) (p : Player.t) (args : list update_args) :
  Player.attack_cooldown p <= 0 ->
  let q := updates args (Player.attack ox p) in
  let n := Z.of_nat (List.length args) in
  Player.attacking q = (n <? 15)
  /\ Player.attack_animation q = Z.max 0 (15 - n)
  /\ Player.attack_cooldown q = Z.max 0 (30 - n)
  /\ Player.already_hit_in_current_attack q = false.
Proof.
  intros Hcd. cbv zeta.
  destruct (attack_starts_cooldown ox p Hcd) as [Hc [Hn [Ha Hf]]].
  induction args as [| a args IH] using rev_ind.
  - cbn. rewrite Ha, Hn, Hc, Hf. auto.
  - destruct IH as [IHa [IHn [IHc IHf]]].
    rewrite updates_snoc, length_app, Nat2Z.inj_add. cbn [List.length].
    set (q := updates args (Player.attack ox p)) in *.
    set (n := Z.of_nat (List.length args)) in *.
    assert (Hn0 : 0 <= n) by (subst n; lia).
    destruct (update_swing (fst (fst a)) (snd (fst a)) (snd a) q)
      as [En [Ea Ef]].
    rewrite update_attack_cooldown, En, Ea, Ef, IHa, IHn, IHc, IHf.
    clearbody q n.
    destruct (n <? 15) eqn:E15;
      [apply Z.ltb_lt in E15 | apply Z.ltb_ge in E15]; cbn [andb].
    + replace (0 <? Z.max 0 (15 - n)) with true
        by (symmetry; apply Z.ltb_lt; lia).
      replace (0 <? Z.max 0 (30 - n)) with true
        by (symmetry; apply Z.ltb_lt; lia).
      cbn [andb].
      destruct (Z.max 0 (15 - n) - 1 <=? 0) eqn:Eend;
        [apply Z.leb_le in Eend | apply Z.leb_gt in Eend];
        repeat split; try lia;
        symmetry; [apply Z.ltb_ge | apply Z.ltb_lt]; lia.
    + destruct (0 <? Z.max 0 (30 - n)) eqn:E30;
        [apply Z.ltb_lt in E30 | apply Z.ltb_ge in E30];
        repeat split; try lia;
        symmetry; apply Z.ltb_ge; lia.
Qed.

(** [attack] opens a window of 15 frames and a cooldown of 30 frames, both
    counted from the call.  For a fighter whose attack cooldown is over,
    after [attack] and [n] updates the fighter is attacking exactly when
    [n < 15], the animation counter is [max 0 (15 - n)], the cooldown
    [max 0 (30 - n)], and the swing is not marked as used. *)
Theorem attack_window (ox : Q) (p : Player.t) (args : list update_args) :
  Player.attack_cooldown p <= 0 ->
  let q := updates args (Player.attack ox p) in
  let n := Z.of_nat (List.length args) in
  Player.attacking q = (n <? 15)
  /\ Player.attack_animation q = Z.max 0 (15 - n)
  /\ Player.attack_cooldown q = Z.max 0 (30 - n)
  /\ Player.already_hit_in_current_attack q = false.
Proof. apply swing_after_updates. Qed.

Lemma attack_window_witness :
  let q := updates (repeat (ground_y, screen_width, None) 14)
             (Player.attack (inject_Z 500) athlete) in
  Player.attacking q = true /\ Player.attack_animation q = 1.
Proof.
  intro q.
  destruct (attack_window (inject_Z 500) athlete
              (repeat (ground_y, screen_width, None) 14))
    as [Ha [Hn _]].
  - cbn. lia.
  - split; [exact Ha | exact Hn].
Defined.

(** A new swing can start exactly when 30 updates have passed since the
    last one started: before that [attack] changes nothing, from then on it
    opens a new window. *)
Theorem attack_restarts_after_cooldown
        (ox ox' : Q) (p : Player.t) (args : list update_args) :
  Player.attack_cooldown p <= 0 ->
  let q := updates args (Player.attack ox p) in
  (Player.attack ox' q = q <-> (List.length args < 30)%nat)
  /\ ((30 <= List.length args)%nat ->
      Player.attacking (Player.attack ox' q) = true
      /\ Player.attack_animation (Player.attack ox' q) = 15
      /\ Player.attack_cooldown (Player.attack ox' q) = 30).
Proof.
  intros Hcd q.
  destruct (swing_after_updates ox p args Hcd) as [Ha [Hn [Hc Hf]]].
  fold q in Ha, Hn, Hc, Hf.
  assert (Hlate : (30 <= List.length args)%nat ->
                  Player.attacking (Player.attack ox' q) = true
                  /\ Player.attack_animation (Player.attack ox' q) = 15
                  /\ Player.attack_cooldown (Player.attack ox' q) = 30).
  { intros Hlen.
    destruct (attack_starts_cooldown ox' q) as [H1 [H2 [H3 _]]];
      [rewrite Hc; lia | auto]. }
  split; [| exact Hlate]. split.
  - intros Hsame.
    destruct (Nat.lt_ge_cases (List.length args) 30) as [Hlt | Hge];
      [exact Hlt | exfalso].
    destruct (Hlate Hge) as [H1 _]. rewrite Hsame, Ha in H1.
    apply Z.ltb_lt in H1. lia.
  - intros Hlt.
    unfold Player.attack.
    replace (Player.attack_cooldown q <=? 0) with false; [reflexivity |].
    symmetry. apply Z.leb_gt. rewrite Hc. lia.
Qed.

Lemma attack_restarts_after_cooldown_witness :
  let q := updates (repeat (ground_y, screen_width, None) 30)
             (Player.attack (inject_Z 500) athlete) in
  Player.attacking (Player.attack (inject_Z 40) q) = true.
Proof.
  intro q.
  destruct (attack_restarts_after_cooldown (inject_Z 500) (inject_Z 40)
              athlete (repeat (ground_y, screen_width, None) 30))
    as [_ Hlate].
  - cbn. lia.
  - apply Hlate. cbn. lia.
Defined.

(** The block after [n] updates. *)
Lemma block_after_updates (ox : Q) (p : Player.t) (args : list update_args) :
  Player.block_cooldown p <= 0 ->
  let q := updates args (Player.block ox p) in
  let n := Z.of_nat (List.length args) in
  Player.blocking q = (n <? 40)
  /\ Player.block_cooldown q = Z.max 0 (40 - n).
Proof.
  intros Hcd. cbv zeta.
  destruct (block_starts ox p Hcd) as [Hb [Hc _]].
  induction args as [| a args IH] using rev_ind.
  - cbn. rewrite Hb, Hc. auto.
  - destruct IH as [IHb IHc].
    rewrite updates_snoc, length_app, Nat2Z.inj_add. cbn [List.length].
    set (q := updates args (Player.block ox p)) in *.
    set (n := Z.of_nat (List.length args)) in *.
    assert (Hn0 : 0 <= n) by (subst n; lia).
    rewrite update_blocking, update_block_cooldown, IHb, IHc.
    clearbody q n.
    destruct (0 <? Z.max 0 (40 - n)) eqn:E40;
      [apply Z.ltb_lt in E40 | apply Z.ltb_ge in E40]; cbn [andb].
    + destruct (Z.max 0 (40 - n) - 1 <=? 0) eqn:Eend;
        [apply Z.leb_le in Eend | apply Z.leb_gt in Eend];
        split; try lia; symmetry.
      * apply Z.ltb_ge. lia.
      * replace (n <? 40) with true by (symmetry; apply Z.ltb_lt; lia).
        apply Z.ltb_lt. lia.
    + split; [| lia].
      replace (n <? 40) with false by (symmetry; apply Z.ltb_ge; lia).
      symmetry. apply Z.ltb_ge. lia.
Qed.

(** [block] opens a window of 40 frames that is also its cooldown.  For a
    fighter whose block cooldown is over, after [block] and [n] updates the
    fighter is blocking exactly when [n < 40] and the cooldown is
    [max 0 (40 - n)]; a further [block] changes nothing before 40 updates
    have passed and starts a new block from then on. *)
Theorem block_window (ox ox' : Q) (p : Player.t) (args : list update_args) :
  Player.block_cooldown p <= 0 ->
  let q := updates args (Player.block ox p) in
  let n := Z.of_nat (List.length args) in
  Player.blocking q = (n <? 40)
  /\ Player.block_cooldown q = Z.max 0 (40 - n)
  /\ (n < 40 -> Player.block ox' q = q)
  /\ (40 <= n ->
      Player.blocking (Player.block ox' q) = true
      /\ Player.block_cooldown (Player.block ox' q) = 40).
Proof.
  intros Hcd q n.
  destruct (block_after_updates ox p args Hcd) as [Hb Hc].
  fold q n in Hb, Hc.
  split; [exact Hb |]. split; [exact Hc |]. split.
  - intros Hn. apply block_on_cooldown_is_noop. rewrite Hc. lia.
  - intros Hn.
    destruct (block_starts ox' q) as [H1 [H2 _]]; [rewrite Hc; lia | auto].
Qed.

Lemma block_window_witness :
  let q := updates (repeat (ground_y, screen_width, None) 39)
             (Player.block (inject_Z 100) athlete) in
  Player.blocking q = true /\ Player.block (inject_Z 900) q = q.
Proof.
  intro q.
  destruct (block_window (inject_Z 100) (inject_Z 900) athlete
              (repeat (ground_y, screen_width, None) 39))
    as [Hb [_ [Hnoop _]]].
  - cbn. lia.
  - split; [exact Hb | apply Hnoop; cbn; lia].
Defined.

(** ** Movement flags, health range and the tracked block side *)

Create HintDb flags.

Lemma same_flags_one_direction (p q : Player.t) :
  same_flags p q -> one_direction p -> one_direction q.
Proof. unfold same_flags, one_direction. intros [-> ->]. auto. Qed.

Lemma attack_flags (ox : Q) (p : Player.t) : same_flags p (Player.attack ox p).
Proof.
  unfold same_flags, Player.attack, Player.determine_attack_hand.
  split_tests; auto.
Qed.

Lemma block_flags (ox : Q) (p : Player.t) : same_flags p (Player.block ox p).
Proof. unfold same_flags, Player.block. split_tests; auto. Qed.

Lemma update_flags (g w : Z) (ox : option Q) (p : Player.t) :
  same_flags p (Player.update g w ox p).
Proof.
  unfold same_flags. update_frames g w ox p. rewrite_frames. auto.
Qed.

Lemma take_damage_flags (d : option Z) (p : Player.t) :
  same_flags p (snd (Player.take_damage d p)).
Proof. unfold same_flags, Player.take_damage. split_tests; auto. Qed.

Lemma heal_flags (a : Z) (p : Player.t) : same_flags p (Player.heal a p).
Proof. unfold same_flags, Player.heal. cbn. auto. Qed.

Lemma move_left_one_direction (p : Player.t) :
  Player.moving_left (Player.move_left p) = true
  /\ Player.moving_right (Player.move_left p) = false.
Proof. unfold Player.move_left. cbn. auto. Qed.

Lemma move_right_one_direction (p : Player.t) :
  Player.moving_left (Player.move_right p) = false
  /\ Player.moving_right (Player.move_right p) = true.
Proof. unfold Player.move_right. cbn. auto. Qed.

Lemma stop_moving_one_direction (p : Player.t) :
  Player.moving_left (Player.stop_moving p) = false
  /\ Player.moving_right (Player.stop_moving p) = false.
Proof. unfold Player.stop_moving. split_tests; auto. Qed.

Lemma player_op_one_direction (op : player_op) (p : Player.t) :
  one_direction p -> one_direction (apply_op op p).
Proof.
  intros H. destruct op; cbn [apply_op].
  - unfold one_direction. now destruct (move_left_one_direction p) as [-> ->].
  - unfold one_direction. now destruct (move_right_one_direction p) as [-> ->].
  - unfold one_direction. now destruct (stop_moving_one_direction p) as [-> ->].
  - apply (same_flags_one_direction p); [apply attack_flags | exact H].
  - apply (same_flags_one_direction p); [apply block_flags | exact H].
  - apply (same_flags_one_direction p); [apply update_flags | exact H].
  - apply (same_flags_one_direction p); [apply take_damage_flags | exact H].
  - apply (same_flags_one_direction p); [apply heal_flags | exact H].
Qed.

(** The same for a bot: assignments and inherited calls. *)
Lemma inherited_one_direction (f : Player.t -> Player.t) (b : Bot.t) :
  one_direction (f (Bot.as_player b)) ->
  bot_one_direction (Bot.inherited f b).
Proof. auto. Qed.

Lemma set_last_action_one_direction (v : string) (b : Bot.t) :
  bot_one_direction b -> bot_one_direction (Bot.set_last_action v b).
Proof. auto. Qed.

Lemma set_decision_cooldown_one_direction (v : Z) (b : Bot.t) :
  bot_one_direction b -> bot_one_direction (Bot.set_decision_cooldown v b).
Proof. auto. Qed.

Lemma move_by_one_direction (left : bool) (b : Bot.t) :
  bot_one_direction (Bot.move_by left b).
Proof.
  unfold Bot.move_by. destruct left; apply inherited_one_direction;
    unfold one_direction.
  - now destruct (move_left_one_direction (Bot.as_player b)) as [-> ->].
  - now destruct (move_right_one_direction (Bot.as_player b)) as [-> ->].
Qed.

Lemma attack_one_direction (ox : Q) (b : Bot.t) :
  bot_one_direction b -> bot_one_direction (Bot.inherited (Player.attack ox) b).
Proof.
  intros H. apply inherited_one_direction.
  apply (same_flags_one_direction (Bot.as_player b));
    [apply attack_flags | exact H].
Qed.

Lemma block_one_direction (ox : Q) (b : Bot.t) :
  bot_one_direction b -> bot_one_direction (Bot.inherited (Player.block ox) b).
Proof.
  intros H. apply inherited_one_direction.
  apply (same_flags_one_direction (Bot.as_player b));
    [apply block_flags | exact H].
Qed.

#[export] Hint Resolve
  set_last_action_one_direction set_decision_cooldown_one_direction
  move_by_one_direction attack_one_direction block_one_direction : flags.

Ltac band_keeps_direction :=
  intros; unfold Random.bind, Random.random, Random.ret;
  split_tests; auto with flags.

Lemma decide_very_close_one_direction
      (px : Q) (left : bool) (b : Bot.t) (rs : Random.source) :
  bot_one_direction b ->
  bot_one_direction (fst (Bot.decide_very_close px left b rs)).
Proof. unfold Bot.decide_very_close. band_keeps_direction. Qed.

Lemma decide_close_one_direction
      (px : Q) (left : bool) (b : Bot.t) (rs : Random.source) :
  bot_one_direction b ->
  bot_one_direction (fst (Bot.decide_close px left b rs)).
Proof. unfold Bot.decide_close. band_keeps_direction. Qed.

Lemma decide_medium_one_direction
      (px : Q) (left : bool) (b : Bot.t) (rs : Random.source) :
  bot_one_direction b ->
  bot_one_direction (fst (Bot.decide_medium px left b rs)).
Proof. unfold Bot.decide_medium. band_keeps_direction. Qed.

Lemma decide_far_one_direction
      (left : bool) (b : Bot.t) (rs : Random.source) :
  bot_one_direction b ->
  bot_one_direction (fst (Bot.decide_far left b rs)).
Proof. unfold Bot.decide_far. band_keeps_direction. Qed.

Lemma adapt_to_opponent_one_direction
      (player : Bot.fighter) (left : bool) (b : Bot.t) (rs : Random.source) :
  bot_one_direction b ->
  bot_one_direction (fst (Bot.adapt_to_opponent player left b rs)).
Proof.
  unfold Bot.adapt_to_opponent.
  destruct (Bot.fighter_last_action player); band_keeps_direction.
Qed.

Lemma adapt_to_health_one_direction (r : Q) (b : Bot.t) :
  bot_one_direction b -> bot_one_direction (Bot.adapt_to_health r b).
Proof.
  unfold bot_one_direction.
  now destruct (adapt_to_health_weights r b) as [-> _].
Qed.

(** The rule of a decision: from a bot that satisfies [P0], a property [P]
    that holds after the countdown and after the three resets, and that
    every later part of the decision keeps, holds at the end, whichever
    way the decision ends. *)
Lemma make_decision_rule (P0 P : Bot.t -> Prop) :
  (forall b, P0 b -> 0 < Bot.decision_cooldown b ->
             P (Bot.set_decision_cooldown (Bot.decision_cooldown b - 1) b)) ->
  (forall b, P0 b -> Bot.decision_cooldown b <= 0 ->
             P (Bot.inherited (Player.set_blocking false)
                  (Bot.inherited (Player.set_attacking false)
                     (Bot.inherited Player.stop_moving b)))) ->
  (forall px left b rs, P b -> P (fst (Bot.decide_very_close px left b rs))) ->
  (forall px left b rs, P b -> P (fst (Bot.decide_close px left b rs))) ->
  (forall px left b rs, P b -> P (fst (Bot.decide_medium px left b rs))) ->
  (forall left b rs, P b -> P (fst (Bot.decide_far left b rs))) ->
  (forall r b, P b -> P (Bot.adapt_to_health r b)) ->
  (forall player left b rs,
      P b -> P (fst (Bot.adapt_to_opponent player left b rs))) ->
  (forall v b, P b -> P (Bot.set_decision_cooldown v b)) ->
  forall (player : Bot.fighter) (w : Z) (b : Bot.t) (rs : Random.source),
    P0 b -> P (snd (fst (Bot.make_decision player w b rs))).
Proof.
  intros Hwait Hreset H1 H2 H3 H4 Hhealth Hopp Hcd player w b rs Hb.
  unfold Bot.make_decision.
  destruct (0 <? Bot.decision_cooldown b) eqn:Edc.
  - cbn [Random.ret fst snd]. apply Hwait; [exact Hb |].
    now apply Z.ltb_lt.
  - cbv zeta. apply Hreset in Hb; [| now apply Z.ltb_ge].
    set (b0 := Bot.inherited (Player.set_blocking false) _) in *.
    clearbody b0.
    unfold Random.bind at 1.
    assert (Hband :
              P (fst ((if Qltb (Qabs (Player.x (Bot.as_player b)
                                      - Bot.fighter_x player))
                               (inject_Z 80)
                       then Bot.decide_very_close (Bot.fighter_x player)
                              (Qltb (Bot.fighter_x player)
                                    (Player.x (Bot.as_player b))) b0
                       else if Qltb (Qabs (Player.x (Bot.as_player b)
                                           - Bot.fighter_x player))
                                    (inject_Z 150)
                            then Bot.decide_close (Bot.fighter_x player)
                                   (Qltb (Bot.fighter_x player)
                                         (Player.x (Bot.as_player b))) b0
                            else if Qltb (Qabs (Player.x (Bot.as_player b)
                                                - Bot.fighter_x player))
                                         (inject_Z 250)
                                 then Bot.decide_medium
                                        (Bot.fighter_x player)
                                        (Qltb (Bot.fighter_x player)
                                              (Player.x (Bot.as_player b)))
                                        b0
                                 else Bot.decide_far
                                        (Qltb (Bot.fighter_x player)
                                              (Player.x (Bot.as_player b)))
                                        b0) rs))).
    { destruct (Qltb _ (inject_Z 80)); [now apply H1 |].
      destruct (Qltb _ (inject_Z 150)); [now apply H2 |].
      destruct (Qltb _ (inject_Z 250)); [now apply H3 | now apply H4]. }
    match type of Hband with
    | P (fst ?c) => destruct c as [b1 rs1]
    end.
    cbn [fst] in Hband. clear Hb.
    destruct (Player.max_health (Bot.as_player b1) =? 0).
    + cbn [Random.ret fst snd]. exact Hband.
    + apply (Hhealth (inject_Z (Player.health (Bot.as_player b1))
                      / inject_Z (Player.max_health (Bot.as_player b1)))%Q)
        in Hband.
      set (b2 := Bot.adapt_to_health _ b1) in *. clearbody b2.
      unfold Random.bind at 1.
      pose proof (Hopp player
                    (Qltb (Bot.fighter_x player)
                          (Player.x (Bot.as_player b)))
                    b2 rs1 Hband) as Hb3.
      match type of Hb3 with
      | P (fst ?c) => destruct c as [b3 rs3]
      end.
      cbn [fst] in Hb3.
      unfold Random.bind, Random.randint, Random.random, Random.ret.
      destruct (Z.min 30 (Bot.reaction_time b3 + 5)
                <? Z.max 5 (Bot.reaction_time b3 - 5));
        cbn [fst snd]; [exact Hb3 | apply Hcd; exact Hb3].
Qed.

(** A property of the bot that every part of a decision keeps is kept by
    the decision. *)
Lemma make_decision_preserves (P : Bot.t -> Prop) :
  (forall v b, P b -> P (Bot.set_decision_cooldown v b)) ->
  (forall b, P b ->
             P (Bot.inherited (Player.set_blocking false)
                  (Bot.inherited (Player.set_attacking false)
                     (Bot.inherited Player.stop_moving b)))) ->
  (forall px left b rs, P b -> P (fst (Bot.decide_very_close px left b rs))) ->
  (forall px left b rs, P b -> P (fst (Bot.decide_close px left b rs))) ->
  (forall px left b rs, P b -> P (fst (Bot.decide_medium px left b rs))) ->
  (forall left b rs, P b -> P (fst (Bot.decide_far left b rs))) ->
  (forall r b, P b -> P (Bot.adapt_to_health r b)) ->
  (forall player left b rs,
      P b -> P (fst (Bot.adapt_to_opponent player left b rs))) ->
  forall (player : Bot.fighter) (w : Z) (b : Bot.t) (rs : Random.source),
    P b -> P (snd (fst (Bot.make_decision player w b rs))).
Proof.
  intros Hcd Hreset H1 H2 H3 H4 Hhealth Hopp.
  apply (make_decision_rule P P); auto.
Qed.

(** Every call on a bot keeps the movement flags exclusive. *)
Lemma bot_op_one_direction (op : bot_op) (b : Bot.t) (rs : Random.source) :
  bot_one_direction b -> bot_one_direction (bot_after op b rs).
Proof.
  intros H. destruct op as [o | g w ox | player w].
  - unfold bot_after, apply_bot_op, Random.ret. cbn [fst snd].
    apply inherited_one_direction. apply player_op_one_direction. exact H.
  - rewrite bot_after_update.
    destruct (bot_update_cases g w ox b rs) as [_ [Hp | [o Hp]]];
      cbv zeta in Hp; unfold bot_one_direction; rewrite Hp.
    + apply (player_op_one_direction (op_update g w ox)). exact H.
    + apply (player_op_one_direction (op_block o)).
      apply (player_op_one_direction (op_update g w ox)). exact H.
  - unfold bot_after, apply_bot_op.
    apply (make_decision_preserves bot_one_direction);
      auto with flags.
    + intros c Hc. unfold bot_one_direction, one_direction.
      rewrite !as_player_inherited.
      cbn [Player.moving_left Player.moving_right Player.set_blocking
           Player.set_attacking].
      now destruct (stop_moving_one_direction (Bot.as_player c)) as [-> ->].
    + apply decide_very_close_one_direction.
    + apply decide_close_one_direction.
    + apply decide_medium_one_direction.
    + apply decide_far_one_direction.
    + apply adapt_to_health_one_direction.
    + apply adapt_to_opponent_one_direction.
Qed.

(** The movement flags are mutually exclusive.  [move_left], [move_right]
    and [stop_moving] set them to left only, right only and none, whatever
    they were; and no call on a fighter or on a bot, a decision included,
    sets both. *)
Theorem movement_flags_exclusive (p : Player.t) :
  (Player.moving_left (Player.move_left p) = true
   /\ Player.moving_right (Player.move_left p) = false)
  /\ (Player.moving_left (Player.move_right p) = false
      /\ Player.moving_right (Player.move_right p) = true)
  /\ (Player.moving_left (Player.move_right (Player.move_left p)) = false
      /\ Player.moving_right (Player.move_right (Player.move_left p)) = true)
  /\ (Player.moving_left (Player.stop_moving p) = false
      /\ Player.moving_right (Player.stop_moving p) = false)
  /\ (forall op : player_op,
        one_direction p -> one_direction (apply_op op p))
  /\ (forall (b : Bot.t) (op : bot_op) (rs : Random.source),
        Bot.as_player b = p ->
        one_direction p -> bot_one_direction (bot_after op b rs)).
Proof.
  split; [apply move_left_one_direction |].
  split; [apply move_right_one_direction |].
  split; [apply move_right_one_direction |].
  split; [apply stop_moving_one_direction |].
  split; [intros op; apply player_op_one_direction |].
  intros b op rs <-. apply bot_op_one_direction.
Qed.

Lemma movement_flags_exclusive_witness :
  bot_one_direction
    (bot_after (op_make_decision (Bot.a_player athlete) screen_width)
       weak_bot (Random.constant 0)).
Proof.
  apply (proj2 (proj2 (proj2 (proj2 (proj2
           (movement_flags_exclusive (Bot.as_player weak_bot))))))
           weak_bot);
    reflexivity.
Defined.

(** A decision keeps the vitals of the fighter. *)
Lemma make_decision_vitals
      (player : Bot.fighter) (w : Z) (b : Bot.t) (rs : Random.source) :
  same_vitals (Bot.as_player b)
    (Bot.as_player (snd (fst (Bot.make_decision player w b rs)))).
Proof.
  assert (Hstep : forall c c' : Bot.t,
             same_weights c c' ->
             same_vitals (Bot.as_player b) (Bot.as_player c) ->
             same_vitals (Bot.as_player b) (Bot.as_player c')).
  { intros c c' [_ [_ [_ H]]] Hc.
    apply (same_vitals_trans _ (Bot.as_player c)); assumption. }
  apply (make_decision_preserves
           (fun c => same_vitals (Bot.as_player b) (Bot.as_player c))).
  - intros v c. apply Hstep. auto with vitals.
  - intros c. apply Hstep. apply decision_resets_weights.
  - intros px left c rs'. apply Hstep. apply decide_very_close_weights.
  - intros px left c rs'. apply Hstep. apply decide_close_weights.
  - intros px left c rs'. apply Hstep. apply decide_medium_weights.
  - intros left c rs'. apply Hstep. apply decide_far_weights.
  - intros r c Hc.
    now destruct (adapt_to_health_weights r c) as [-> _].
  - intros pl left c rs'. apply Hstep. apply adapt_to_opponent_weights.
  - apply same_vitals_refl.
Qed.

Lemma heal_bounds (a : Z) (p : Player.t) :
  Player.health (Player.heal a p)
  = Z.min (Player.max_health p) (Player.health p + a)
  /\ Player.max_health (Player.heal a p) = Player.max_health p
  /\ Player.params (Player.heal a p) = Player.params p.
Proof. unfold Player.heal. cbn. auto. Qed.

Lemma player_op_health_in_range (op : player_op) (p : Player.t) :
  nonneg_amounts (op_inherited op) ->
  0 <= BodyParameters.damage (Player.params p) ->
  health_in_range p ->
  health_in_range (apply_op op p)
  /\ Player.max_health (apply_op op p) = Player.max_health p
  /\ Player.params (apply_op op p) = Player.params p.
Proof.
  unfold health_in_range. intros Hop Hd Hr.
  assert (Hsame : forall q, same_vitals p q ->
                    0 <= Player.health q <= Player.max_health q
                    /\ Player.max_health q = Player.max_health p
                    /\ Player.params q = Player.params p).
  { intros q [E1 [E2 E3]]. rewrite E1, E2, E3. auto. }
  destruct op; cbn [apply_op];
    try (apply Hsame; solve [auto with vitals]).
  - unfold Player.take_damage.
    destruct (Player.blocking p); cbn; [repeat split; lia |].
    destruct damage as [d |]; cbn in Hop |- *; repeat split; lia.
  - destruct (heal_bounds amount p) as [-> [-> ->]].
    cbn in Hop. repeat split; lia.
Qed.

(** The health stays between 0 and the maximum.  For a fighter or a bot
    whose body type deals a non-negative damage, every call with
    non-negative amounts keeps [0 <= health <= max_health] and leaves
    [max_health] as it was; [heal] in particular never lifts the health
    above the maximum and fills it up when the amount covers the gap. *)
Theorem health_stays_in_range (p : Player.t) :
  0 <= BodyParameters.damage (Player.params p) ->
  health_in_range p ->
  (forall op : player_op,
      nonneg_amounts (op_inherited op) ->
      health_in_range (apply_op op p)
      /\ Player.max_health (apply_op op p) = Player.max_health p)
  /\ (forall (b : Bot.t) (op : bot_op) (rs : Random.source),
        Bot.as_player b = p ->
        nonneg_amounts op ->
        health_in_range (Bot.as_player (bot_after op b rs))
        /\ Player.max_health (Bot.as_player (bot_after op b rs))
           = Player.max_health p)
  /\ (forall a : Z,
        Player.max_health p - Player.health p <= a ->
        Player.health (Player.heal a p) = Player.max_health p).
Proof.
  intros Hd Hr. split; [| split].
  - intros op Hop.
    destruct (player_op_health_in_range op p Hop Hd Hr) as [H1 [H2 _]]. auto.
  - intros b op rs <- Hop.
    assert (Hsame : forall q, same_vitals (Bot.as_player b) q ->
                      health_in_range q
                      /\ Player.max_health q
                         = Player.max_health (Bot.as_player b)).
    { unfold health_in_range in *. intros q [E1 [E2 _]].
      rewrite E1, E2. auto. }
    destruct op as [o | g w ox | player w].
    + unfold bot_after, apply_bot_op, Random.ret. cbn [fst snd].
      rewrite as_player_inherited.
      destruct (player_op_health_in_range o _ Hop Hd Hr) as [H1 [H2 _]].
      auto.
    + rewrite bot_after_update. apply Hsame.
      now destruct (bot_update_weights g w ox b rs) as [_ [_ [_ H]]].
    + apply Hsame. apply make_decision_vitals.
  - intros a Ha. destruct (heal_bounds a p) as [-> _].
    unfold health_in_range in Hr. lia.
Qed.

Lemma health_stays_in_range_witness :
  health_in_range (apply_op (op_heal 500) (damaged 30 athlete))
  /\ Player.health (Player.heal 500 (damaged 30 athlete)) = 100.
Proof.
  destruct (health_stays_in_range (damaged 30 athlete)) as [Hop [_ Hfull]].
  - cbn. lia.
  - unfold health_in_range. cbn. lia.
  - split.
    + apply (Hop (op_heal 500)). cbn. lia.
    + apply Hfull. cbn. lia.
Defined.

(** The last stage of [update] on a blocking fighter. *)
Lemma update_block_direction_tracks (ox : Q) (q : Player.t) :
  Player.blocking (Player.update_block_direction (Some ox) q) = true ->
  Player.block_direction (Player.update_block_direction (Some ox) q)
  = Player.side_of ox (Player.update_block_direction (Some ox) q).
Proof.
  unfold Player.update_block_direction.
  destruct (Player.blocking q) eqn:Hb; [| congruence].
  intros _. reflexivity.
Qed.

(** A fighter that still blocks after [update] faces the opponent's
    position it was given, measured from its own centre after the move. *)
Lemma update_tracks_opponent (g w : Z) (ox : Q) (p : Player.t) :
  Player.blocking (Player.update g w (Some ox) p) = true ->
  Player.block_direction (Player.update g w (Some ox) p)
  = Player.side_of ox (Player.update g w (Some ox) p).
Proof. apply update_block_direction_tracks. Qed.

Lemma side_of_right (ox : Q) (p : Player.t) :
  Player.side_of ox p = "right" -> (Player.center_x p <= ox)%Q.
Proof.
  unfold Player.side_of.
  destruct (Qltb ox (Player.center_x p)) eqn:E; [discriminate |].
  intros _. now apply Qltb_ge.
Qed.

Lemma side_of_left (ox : Q) (p : Player.t) :
  Player.side_of ox p = "left" -> (ox < Player.center_x p)%Q.
Proof.
  unfold Player.side_of.
  destruct (Qltb ox (Player.center_x p)) eqn:E; [| discriminate].
  intros _. now apply Qltb_lt.
Qed.

Lemma center_x_right_of_x (p : Player.t) :
  0 <= BodyParameters.width (Player.params p) ->
  (Player.x p <= Player.center_x p)%Q.
Proof.
  intros Hw. unfold Player.center_x.
  assert (H : (0 <= inject_Z (BodyParameters.width (Player.params p) / 2))%Q).
  { change 0%Q with (inject_Z 0). rewrite <- Zle_Qle.
    apply Z.div_pos; lia. }
  lra.
Qed.

(** The side test of the resolver against a defender whose block tracks
    the attacker.  When the defender has just been updated with the
    attacker's position and still blocks, [check_block] never succeeds
    against a right-hand strike, and succeeds against a left-hand strike
    only if the attacker's [x] lies strictly between the defender's [x] and
    the defender's centre. *)
Theorem tracked_block_needs_overlap
        (g w : Z) (attacker defender : Player.t) :
  0 <= BodyParameters.width (Player.params defender) ->
  let d := Player.update g w (Some (Player.x attacker)) defender in
  Game.check_block d attacker = true ->
  Player.attacking_with_right attacker = false
  /\ (Player.x d < Player.x attacker)%Q
  /\ (Player.x attacker < Player.center_x d)%Q.
Proof.
  intros Hw d Hc.
  apply check_block_iff in Hc. destruct Hc as [Hb Hside].
  pose proof (update_tracks_opponent g w (Player.x attacker) defender Hb)
    as Htrack.
  fold d in Htrack.
  assert (Hwd : 0 <= BodyParameters.width (Player.params d)).
  { subst d.
    now destruct (update_health g w (Some (Player.x attacker)) defender)
      as [_ [_ ->]]. }
  pose proof (center_x_right_of_x d Hwd) as Hcx.
  destruct Hside as [[_ [Hdir Hx]] | [Hhand [Hdir Hx]]].
  - exfalso. rewrite Htrack in Hdir. apply side_of_right in Hdir. lra.
  - rewrite Htrack in Hdir. apply side_of_left in Hdir. auto.
Qed.

Lemma tracked_block_needs_overlap_witness :
  let d := Player.update ground_y screen_width
             (Some (Player.x close_striker)) close_guard in
  Player.attacking_with_right close_striker = false
  /\ (Player.x d < Player.x close_striker)%Q
  /\ (Player.x close_striker < Player.center_x d)%Q.
Proof.
  apply (tracked_block_needs_overlap ground_y screen_width
           close_striker close_guard).
  - vm_compute. discriminate.
  - vm_compute. reflexivity.
Defined.

(** ** When the modular resolver raises *)

Lemma resolve_attack_outcome (hit : bool) (attacker defender : Player.t) :
  (resolves hit attacker defender = true ->
   fst (Game.resolve_attack hit attacker defender) = Raised AttributeError)
  /\ (resolves hit attacker defender = false ->
      Game.resolve_attack hit attacker defender
      = (Returned, (attacker, defender))).
Proof.
  unfold resolves, Game.resolve_attack, Player.take_damage.
  destruct (Player.attacking attacker
            && negb (Player.already_hit_in_current_attack attacker) && hit);
    cbn [andb]; [| split; [discriminate | reflexivity]].
  destruct (Game.check_block defender attacker); cbn [orb];
    [split; [reflexivity | discriminate] |].
  destruct (Player.blocking defender); cbn [negb];
    split; try reflexivity; discriminate.
Qed.

(** The modular resolver has no successful outcome.  Whenever one of the
    two attacks is resolved (a hit lands or a block succeeds)
    [check_collisions] raises [AttributeError], because it reads
    [width] on a [Player] that keeps its width in [params]; it returns
    normally exactly when neither attack is resolved, and then both
    fighters are as they were. *)
Theorem check_collisions_returns_only_unchanged
        (hit12 hit21 : bool) (player1 player2 : Player.t) :
  let r := Game.check_collisions hit12 hit21 player1 player2 in
  (fst r = Returned
   <-> resolves hit12 player1 player2 = false
       /\ resolves hit21 player2 player1 = false)
  /\ (fst r = Returned -> snd r = (player1, player2))
  /\ (forall e : exn, fst r = Raised e -> e = AttributeError).
Proof.
  cbv zeta. unfold Game.check_collisions.
  destruct (resolve_attack_outcome hit12 player1 player2) as [H1t H1f].
  destruct (resolve_attack_outcome hit21 player2 player1) as [H2t H2f].
  destruct (resolves hit12 player1 player2).
  - specialize (H1t eq_refl).
    destruct (Game.resolve_attack hit12 player1 player2) as [[| e] st];
      cbn [fst] in H1t; [discriminate |].
    injection H1t as ->. cbn [fst snd].
    repeat split; try discriminate.
    + intros [H _]. discriminate.
    + intros e He. congruence.
  - rewrite (H1f eq_refl).
    destruct (resolves hit21 player2 player1).
    + specialize (H2t eq_refl).
      destruct (Game.resolve_attack hit21 player2 player1)
        as [o [q2 q1]]; cbn [fst snd] in *. subst o.
      repeat split; try discriminate.
      * intros [_ H]. discriminate.
      * intros e He. congruence.
    + rewrite (H2f eq_refl). cbn [fst snd].
      repeat split; auto; discriminate.
Qed.

(** ** The decision cooldown of the bot *)

Lemma set_decision_cooldown_same (b : Bot.t) :
  Bot.set_decision_cooldown (Bot.decision_cooldown b) b = b.
Proof. destruct b. reflexivity. Qed.

Lemma set_decision_cooldown_twice (v v' : Z) (b : Bot.t) :
  Bot.set_decision_cooldown v' (Bot.set_decision_cooldown v b)
  = Bot.set_decision_cooldown v' b.
Proof. reflexivity. Qed.

Lemma make_decision_waits (player : Bot.fighter) (w : Z) (b : Bot.t)
      (rs : Random.source) :
  0 < Bot.decision_cooldown b ->
  Bot.make_decision player w b rs
  = ((Returned, Bot.set_decision_cooldown (Bot.decision_cooldown b - 1) b),
     rs).
Proof.
  intros H. unfold Bot.make_decision. apply Z.ltb_lt in H. now rewrite H.
Qed.

Lemma decisions_wait (ops : list bot_op) :
  forall (b : Bot.t) (rs : Random.source),
    Forall is_decision ops ->
    Z.of_nat (List.length ops) <= Bot.decision_cooldown b ->
    apply_bot_ops ops b rs
    = ((Returned,
        Bot.set_decision_cooldown
          (Bot.decision_cooldown b - Z.of_nat (List.length ops)) b),
       rs).
Proof.
  induction ops as [| op rest IH]; intros b rs Hops Hlen.
  - cbn. rewrite Z.sub_0_r, set_decision_cooldown_same. reflexivity.
  - inversion Hops as [| ? ? Hop Hrest]; subst.
    cbn [List.length] in Hlen |- *. rewrite Nat2Z.inj_succ in Hlen |- *.
    rewrite apply_bot_ops_cons.
    destruct op as [o | g w ox | player w]; try destruct Hop.
    cbn [apply_bot_op]. rewrite make_decision_waits by lia.
    rewrite IH; [| exact Hrest | cbn; lia].
    cbn [Bot.decision_cooldown Bot.set_decision_cooldown].
    rewrite set_decision_cooldown_twice. do 3 f_equal. lia.
Qed.

(** The decision cooldown is respected.  While it is positive,
    [make_decision] only counts it down: over as many consecutive calls as
    the cooldown allows, the bot is unchanged but for the counter, no
    command is issued, nothing is raised and no random draw is made. *)
Theorem decision_cooldown_respected
        (ops : list bot_op) (b : Bot.t) (rs : Random.source) :
  Forall is_decision ops ->
  Z.of_nat (List.length ops) <= Bot.decision_cooldown b ->
  apply_bot_ops ops b rs
  = ((Returned,
      Bot.set_decision_cooldown
        (Bot.decision_cooldown b - Z.of_nat (List.length ops)) b),
     rs).
Proof. apply decisions_wait. Qed.

Lemma decision_cooldown_respected_witness :
  bot_after_ops
    (repeat (op_make_decision (Bot.a_player athlete) screen_width) 25)
    (Bot.set_decision_cooldown 25 weak_bot) (Random.constant 0)
  = Bot.set_decision_cooldown 0 weak_bot.
Proof.
  unfold bot_after_ops.
  rewrite (decision_cooldown_respected
             (repeat (op_make_decision (Bot.a_player athlete) screen_width)
                     25)
             (Bot.set_decision_cooldown 25 weak_bot) (Random.constant 0)).
  - reflexivity.
  - repeat constructor.
  - cbn. lia.
Defined.

(** What is left of the source after each part of a decision. *)
Lemma rest_of_refl (rs : Random.source) : rest_of rs rs.
Proof. exists 0%nat. reflexivity. Qed.

Lemma rest_of_tail (rs : Random.source) : rest_of rs (fun n => rs (S n)).
Proof. exists 1%nat. reflexivity. Qed.

Lemma rest_of_tail2 (rs : Random.source) :
  rest_of rs (fun n => rs (S (S n))).
Proof. exists 2%nat. reflexivity. Qed.

Lemma rest_of_trans (rs1 rs2 rs3 : Random.source) :
  rest_of rs1 rs2 -> rest_of rs2 rs3 -> rest_of rs1 rs3.
Proof.
  intros [k1 H1] [k2 H2]. exists (k1 + k2)%nat. intros n.
  rewrite H2, H1. f_equal. lia.
Qed.

Lemma rest_of_unit_draws (rs rs' : Random.source) :
  rest_of rs rs' -> unit_draws rs -> unit_draws rs'.
Proof. intros [k H] Hu n. rewrite H. apply Hu. Qed.

#[export] Hint Resolve rest_of_refl rest_of_tail rest_of_tail2 : flags.

Ltac band_rest :=
  intros; unfold Random.bind, Random.random, Random.ret;
  split_tests; auto with flags.

Lemma decide_very_close_rest
      (px : Q) (left : bool) (b : Bot.t) (rs : Random.source) :
  rest_of rs (snd (Bot.decide_very_close px left b rs)).
Proof. unfold Bot.decide_very_close. band_rest. Qed.

Lemma decide_close_rest
      (px : Q) (left : bool) (b : Bot.t) (rs : Random.source) :
  rest_of rs (snd (Bot.decide_close px left b rs)).
Proof. unfold Bot.decide_close. band_rest. Qed.

Lemma decide_medium_rest
      (px : Q) (left : bool) (b : Bot.t) (rs : Random.source) :
  rest_of rs (snd (Bot.decide_medium px left b rs)).
Proof. unfold Bot.decide_medium. band_rest. Qed.

Lemma decide_far_rest (left : bool) (b : Bot.t) (rs : Random.source) :
  rest_of rs (snd (Bot.decide_far left b rs)).
Proof. unfold Bot.decide_far. band_rest. Qed.

Lemma adapt_to_opponent_rest
      (player : Bot.fighter) (left : bool) (b : Bot.t) (rs : Random.source) :
  rest_of rs (snd (Bot.adapt_to_opponent player left b rs)).
Proof.
  unfold Bot.adapt_to_opponent.
  destruct (Bot.fighter_last_action player); band_rest.
Qed.

(** The shape of a decision that is taken: unless the maximum health is 0,
    it ends with the draw of the next cooldown on a bot that kept its
    reaction time, from what is left of the source. *)
Lemma make_decision_taken
      (player : Bot.fighter) (w : Z) (b : Bot.t) (rs : Random.source) :
  Bot.decision_cooldown b <= 0 ->
  Player.max_health (Bot.as_player b) <> 0 ->
  exists (b3 : Bot.t) (rs3 : Random.source),
    Bot.reaction_time b3 = Bot.reaction_time b
    /\ rest_of rs rs3
    /\ Bot.make_decision player w b rs
       = Random.bind
           (Random.randint (cooldown_low (Bot.reaction_time b3))
                           (cooldown_high (Bot.reaction_time b3)))
           (fun cooldown =>
              match cooldown with
              | Some c => Random.ret (Returned, Bot.set_decision_cooldown c b3)
              | None => Random.ret (Raised ValueError, b3)
              end) rs3.
Proof.
  intros Hcd Hmax. unfold Bot.make_decision.
  apply Z.ltb_ge in Hcd. rewrite Hcd. cbv zeta.
  pose proof (decision_resets_weights b) as Hreset.
  set (b0 := Bot.inherited (Player.set_blocking false) _) in *.
  clearbody b0.
  unfold Random.bind at 1.
  pose proof (band_weights (Bot.fighter_x player)
                (Qltb (Bot.fighter_x player) (Player.x (Bot.as_player b)))
                (Qabs (Player.x (Bot.as_player b) - Bot.fighter_x player))
                b0 rs) as Hband.
  assert (Hrest1 :
            rest_of rs
              (snd ((if Qltb (Qabs (Player.x (Bot.as_player b)
                                    - Bot.fighter_x player)) (inject_Z 80)
                     then Bot.decide_very_close (Bot.fighter_x player)
                            (Qltb (Bot.fighter_x player)
                                  (Player.x (Bot.as_player b))) b0
                     else if Qltb (Qabs (Player.x (Bot.as_player b)
                                         - Bot.fighter_x player))
                                  (inject_Z 150)
                          then Bot.decide_close (Bot.fighter_x player)
                                 (Qltb (Bot.fighter_x player)
                                       (Player.x (Bot.as_player b))) b0
                          else if Qltb (Qabs (Player.x (Bot.as_player b)
                                              - Bot.fighter_x player))
                                       (inject_Z 250)
                               then Bot.decide_medium (Bot.fighter_x player)
                                      (Qltb (Bot.fighter_x player)
                                            (Player.x (Bot.as_player b))) b0
                               else Bot.decide_far
                                      (Qltb (Bot.fighter_x player)
                                            (Player.x (Bot.as_player b))) b0)
                      rs))).
  { destruct (Qltb _ (inject_Z 80)); [apply decide_very_close_rest |].
    destruct (Qltb _ (inject_Z 150)); [apply decide_close_rest |].
    destruct (Qltb _ (inject_Z 250));
      [apply decide_medium_rest | apply decide_far_rest]. }
  match type of Hband with
  | same_weights _ (fst ?c) => destruct c as [b1 rs1]
  end.
  cbn [fst snd] in Hband, Hrest1.
  assert (H1 : same_weights b b1)
    by (apply (same_weights_trans _ b0); assumption).
  clear Hreset Hband.
  destruct H1 as [_ [_ [Hrt [_ [Hm _]]]]].
  replace (Player.max_health (Bot.as_player b1) =? 0) with false
    by (symmetry; apply Z.eqb_neq; congruence).
  destruct (adapt_to_health_weights
              (inject_Z (Player.health (Bot.as_player b1))
               / inject_Z (Player.max_health (Bot.as_player b1)))%Q b1)
    as [_ [Hrt2 _]].
  set (b2 := Bot.adapt_to_health _ b1) in *. clearbody b2.
  unfold Random.bind at 1.
  pose proof (adapt_to_opponent_weights player
                (Qltb (Bot.fighter_x player) (Player.x (Bot.as_player b)))
                b2 rs1) as Hopp.
  pose proof (adapt_to_opponent_rest player
                (Qltb (Bot.fighter_x player) (Player.x (Bot.as_player b)))
                b2 rs1) as Hrest2.
  match type of Hopp with
  | same_weights _ (fst ?c) => destruct c as [b3 rs3]
  end.
  cbn [fst snd] in Hopp, Hrest2.
  destruct Hopp as [_ [_ [Hrt3 _]]].
  exists b3, rs3. split; [congruence |].
  split; [apply (rest_of_trans _ rs1); assumption |].
  reflexivity.
Qed.

(** [random.randint] stays within its bounds and fails on an empty range. *)
Lemma randint_in_range (lo hi : Z) (rs : Random.source) :
  unit_draws rs -> lo <= hi ->
  exists c : Z, fst (Random.randint lo hi rs) = Some c /\ lo <= c <= hi.
Proof.
  intros Hu Hle. unfold Random.randint.
  replace (hi <? lo) with false by (symmetry; apply Z.ltb_ge; exact Hle).
  unfold Random.bind, Random.random, Random.ret. cbn [fst].
  eexists. split; [reflexivity |].
  destruct (Hu 0%nat) as [H0 H1].
  set (u := rs 0%nat) in *. clearbody u.
  assert (Hm : (0 < inject_Z (hi - lo + 1))%Q).
  { change 0%Q with (inject_Z 0). rewrite <- Zlt_Qlt. lia. }
  assert (Hlow : 0 <= Qfloor (u * inject_Z (hi - lo + 1))).
  { rewrite <- (Qfloor_Z 0).
    apply Qfloor_resp_le. change (inject_Z 0) with 0%Q.
    apply Qmult_le_0_compat; [exact H0 | apply Qlt_le_weak; exact Hm]. }
  assert (Hhigh : Qfloor (u * inject_Z (hi - lo + 1)) < hi - lo + 1).
  { rewrite Zlt_Qlt.
    apply (Qle_lt_trans _ (u * inject_Z (hi - lo + 1))%Q);
      [apply Qfloor_le |].
    rewrite <- (Qmult_1_l (inject_Z (hi - lo + 1))) at 2.
    apply Qmult_lt_compat_r; assumption. }
  lia.
Qed.

Lemma randint_empty (lo hi : Z) (rs : Random.source) :
  hi < lo -> Random.randint lo hi rs = (None, rs).
Proof.
  intros H. unfold Random.randint.
  replace (hi <? lo) with true by (symmetry; apply Z.ltb_lt; exact H).
  reflexivity.
Qed.

(** The cooldown after a decision.  A decision that is taken by a bot with
    a reaction time between 0 and 35 (the medium, hard and insane presets)
    and a non-zero maximum health returns normally and sets the decision
    cooldown to a value between [max 5 (reaction_time - 5)] and
    [min 30 (reaction_time + 5)], hence between 5 and 30. *)
Theorem next_decision_cooldown_in_range
        (player : Bot.fighter) (w : Z) (b : Bot.t) (rs : Random.source) :
  unit_draws rs ->
  Bot.decision_cooldown b <= 0 ->
  Player.max_health (Bot.as_player b) <> 0 ->
  0 <= Bot.reaction_time b <= 35 ->
  let r := Bot.make_decision player w b rs in
  fst (fst r) = Returned
  /\ cooldown_low (Bot.reaction_time b)
     <= Bot.decision_cooldown (snd (fst r))
     <= cooldown_high (Bot.reaction_time b)
  /\ 5 <= Bot.decision_cooldown (snd (fst r)) <= 30.
Proof.
  intros Hu Hcd Hmax Hrt. cbv zeta.
  destruct (make_decision_taken player w b rs Hcd Hmax)
    as [b3 [rs3 [Ert [Hrest ->]]]].
  rewrite Ert.
  destruct (randint_in_range (cooldown_low (Bot.reaction_time b))
              (cooldown_high (Bot.reaction_time b)) rs3)
    as [c [Hc Hrange]].
  - apply (rest_of_unit_draws rs); assumption.
  - unfold cooldown_low, cooldown_high. lia.
  - unfold Random.bind.
    destruct (Random.randint _ _ rs3) as [cd rs4]. cbn [fst] in Hc.
    subst cd. cbn [Random.ret fst snd Bot.decision_cooldown
                   Bot.set_decision_cooldown].
    unfold cooldown_low, cooldown_high in *. repeat split; lia.
Qed.

Lemma next_decision_cooldown_in_range_witness :
  let r := Bot.make_decision (Bot.a_player athlete) screen_width weak_bot
             (Random.constant (1 # 2)) in
  fst (fst r) = Returned
  /\ 5 <= Bot.decision_cooldown (snd (fst r)) <= 30.
Proof.
  destruct (next_decision_cooldown_in_range (Bot.a_player athlete)
              screen_width weak_bot (Random.constant (1 # 2)))
    as [Hret [_ Hrange]].
  - intros n. split; [discriminate | reflexivity].
  - cbn. lia.
  - cbn. lia.
  - cbn. lia.
  - split; assumption.
Defined.

(** A slow reaction time breaks the decision.  For a bot whose reaction
    time exceeds 35 (the easy preset has 40) the bounds passed to
    [random.randint] are an empty range, so every decision that is taken
    raises [ValueError], after the chosen action was applied. *)
Theorem slow_reaction_raises_value_error
        (player : Bot.fighter) (w : Z) (b : Bot.t) (rs : Random.source) :
  Bot.decision_cooldown b <= 0 ->
  Player.max_health (Bot.as_player b) <> 0 ->
  35 < Bot.reaction_time b ->
  fst (fst (Bot.make_decision player w b rs)) = Raised ValueError.
Proof.
  intros Hcd Hmax Hrt.
  destruct (make_decision_taken player w b rs Hcd Hmax)
    as [b3 [rs3 [Ert [Hrest ->]]]].
  rewrite Ert. unfold Random.bind.
  rewrite randint_empty; [reflexivity |].
  unfold cooldown_low, cooldown_high. lia.
Qed.

Lemma slow_reaction_raises_value_error_witness :
  Bot.reaction_time easy_bot = 40
  /\ fst (fst (Bot.make_decision (Bot.a_player athlete) screen_width
                 easy_bot (Random.constant 0))) = Raised ValueError.
Proof.
  split; [reflexivity |].
  apply (slow_reaction_raises_value_error (Bot.a_player athlete)
           screen_width easy_bot (Random.constant 0)).
  - cbn. lia.
  - cbn. lia.
  - cbn. lia.
Defined.

(** ** What a decision does to the swing and to the position *)

Section CancelledSwing.

Variable animation cooldown : Z.
Variable used : bool.
Hypothesis on_cooldown : 0 < cooldown.

(** The swing is off, with its counters as they were. *)
Let cancelled (c : Bot.t) : Prop :=
  swing_of (Bot.as_player c) = (false, animation, cooldown, used).

Local Ltac swing_kept :=
  unfold cancelled, swing_of in *; cbn in *; congruence.

Lemma cancelled_attack (ox : Q) (c : Bot.t) :
  cancelled c -> cancelled (Bot.inherited (Player.attack ox) c).
Proof.
  intros H. unfold cancelled in *. rewrite as_player_inherited.
  unfold Player.attack.
  replace (Player.attack_cooldown (Bot.as_player c) <=? 0) with false;
    [exact H |].
  symmetry. apply Z.leb_gt. unfold swing_of in H. injection H as _ _ -> _.
  exact on_cooldown.
Qed.

Lemma cancelled_block (ox : Q) (c : Bot.t) :
  cancelled c -> cancelled (Bot.inherited (Player.block ox) c).
Proof.
  intros H. unfold cancelled in *. rewrite as_player_inherited.
  rewrite <- H. unfold swing_of, Player.block. split_tests; reflexivity.
Qed.

Lemma cancelled_move_by (left : bool) (c : Bot.t) :
  cancelled c -> cancelled (Bot.move_by left c).
Proof. intros H. unfold Bot.move_by. destruct left; swing_kept. Qed.

Lemma cancelled_set_last_action (v : string) (c : Bot.t) :
  cancelled c -> cancelled (Bot.set_last_action v c).
Proof. intros H. swing_kept. Qed.

Lemma cancelled_set_decision_cooldown (v : Z) (c : Bot.t) :
  cancelled c -> cancelled (Bot.set_decision_cooldown v c).
Proof. intros H. swing_kept. Qed.

Local Ltac band_cancelled :=
  intros; unfold Random.bind, Random.random, Random.ret;
  split_tests;
  auto using cancelled_attack, cancelled_block, cancelled_move_by,
    cancelled_set_last_action.

Lemma cancelled_decision
      (player : Bot.fighter) (w : Z) (b : Bot.t) (rs : Random.source) :
  Bot.decision_cooldown b <= 0 ->
  Player.attack_animation (Bot.as_player b) = animation ->
  Player.attack_cooldown (Bot.as_player b) = cooldown ->
  Player.already_hit_in_current_attack (Bot.as_player b) = used ->
  cancelled (snd (fst (Bot.make_decision player w b rs))).
Proof.
  intros Hdc Hn Hc Hu.
  apply (make_decision_rule
           (fun c => Bot.decision_cooldown c <= 0
                     /\ Player.attack_animation (Bot.as_player c)
                        = animation
                     /\ Player.attack_cooldown (Bot.as_player c) = cooldown
                     /\ Player.already_hit_in_current_attack
                          (Bot.as_player c) = used)
           cancelled).
  - intros c [H _] Hpos. lia.
  - intros c [_ [H1 [H2 H3]]] _. unfold cancelled, swing_of.
    rewrite !as_player_inherited. unfold Player.stop_moving.
    split_tests; congruence.
  - unfold Bot.decide_very_close. band_cancelled.
  - unfold Bot.decide_close. band_cancelled.
  - unfold Bot.decide_medium. band_cancelled.
  - unfold Bot.decide_far. band_cancelled.
  - intros r c H. unfold cancelled.
    now destruct (adapt_to_health_weights r c) as [-> _].
  - intros pl left c rs' H. unfold Bot.adapt_to_opponent.
    destruct (Bot.fighter_last_action pl); band_cancelled.
  - apply cancelled_set_decision_cooldown.
  - auto.
Qed.

End CancelledSwing.

(** Updates of a fighter that is not attacking leave the swing alone,
    apart from the attack cooldown. *)
Lemma updates_idle_swing (args : list update_args) :
  forall p : Player.t,
    Player.attacking p = false ->
    Player.attacking (updates args p) = false
    /\ Player.attack_animation (updates args p) = Player.attack_animation p
    /\ Player.already_hit_in_current_attack (updates args p)
       = Player.already_hit_in_current_attack p.
Proof.
  induction args as [| a args IH] using rev_ind; intros p Hidle.
  - cbn. auto.
  - rewrite updates_snoc.
    destruct (IH p Hidle) as [Ha [Hn Hf]].
    destruct (update_swing (fst (fst a)) (snd (fst a)) (snd a)
                (updates args p)) as [En [Ea Ef]].
    rewrite En, Ea, Ef, Ha. cbn [andb]. auto.
Qed.

(** A decision cuts a running swing short.  When a bot takes a decision
    while its attack cooldown is still positive, the decision leaves
    [attacking] false and the animation counter, the attack cooldown and
    the mark of the swing as they were; the updates that follow never
    count the animation down, because [update] does so only while
    attacking. *)
Theorem taken_decision_cancels_swing
        (player : Bot.fighter) (w : Z) (b : Bot.t) (rs : Random.source)
        (args : list update_args) :
  Bot.decision_cooldown b <= 0 ->
  0 < Player.attack_cooldown (Bot.as_player b) ->
  let p := Bot.as_player b in
  let p' := Bot.as_player (snd (fst (Bot.make_decision player w b rs))) in
  Player.attacking p' = false
  /\ Player.attack_animation p' = Player.attack_animation p
  /\ Player.attack_cooldown p' = Player.attack_cooldown p
  /\ Player.already_hit_in_current_attack p'
     = Player.already_hit_in_current_attack p
  /\ Player.attacking (updates args p') = false
  /\ Player.attack_animation (updates args p') = Player.attack_animation p.
Proof.
  intros Hdc Hcd p p'.
  pose proof (cancelled_decision (Player.attack_animation p)
                (Player.attack_cooldown p)
                (Player.already_hit_in_current_attack p) Hcd
                player w b rs Hdc eq_refl eq_refl eq_refl) as H.
  fold p' in H. unfold swing_of in H.
  injection H as Ha Hn Hc Hf.
  destruct (updates_idle_swing args p' Ha) as [Ua [Un _]].
  rewrite Un. auto 10.
Qed.

Lemma taken_decision_cancels_swing_witness :
  let p := Bot.as_player swinging_bot in
  let p' := Bot.as_player
              (snd (fst (Bot.make_decision (Bot.a_player athlete)
                           screen_width swinging_bot
                           (Random.constant 0)))) in
  Player.attacking p = true
  /\ Player.attack_animation p = 5
  /\ Player.attacking p' = false
  /\ Player.attack_animation
       (updates (repeat (ground_y, screen_width, None) 20) p') = 5.
Proof.
  intros p p'.
  destruct (taken_decision_cancels_swing (Bot.a_player athlete)
              screen_width swinging_bot (Random.constant 0)
              (repeat (ground_y, screen_width, None) 20))
    as [Ha [_ [_ [_ [_ Hn]]]]].
  - cbn. lia.
  - vm_compute. reflexivity.
  - split; [vm_compute; reflexivity |].
    split; [vm_compute; reflexivity |].
    split; [exact Ha | exact Hn].
Defined.

Section DecisionPlace.

Variable x0 : Q.
Variable y0 : Z.

(** The fighter of the bot stands at [(x0, y0)]. *)
Let stands (c : Bot.t) : Prop :=
  Player.x (Bot.as_player c) = x0 /\ Player.y (Bot.as_player c) = y0.

Lemma stands_attack (ox : Q) (c : Bot.t) :
  stands c -> stands (Bot.inherited (Player.attack ox) c).
Proof.
  unfold stands. rewrite as_player_inherited.
  unfold Player.attack, Player.determine_attack_hand.
  split_tests; auto.
Qed.

Lemma stands_block (ox : Q) (c : Bot.t) :
  stands c -> stands (Bot.inherited (Player.block ox) c).
Proof.
  unfold stands. rewrite as_player_inherited.
  unfold Player.block. split_tests; auto.
Qed.

Lemma stands_move_by (left : bool) (c : Bot.t) :
  stands c -> stands (Bot.move_by left c).
Proof. unfold stands, Bot.move_by. destruct left; cbn; auto. Qed.

Lemma stands_set_last_action (v : string) (c : Bot.t) :
  stands c -> stands (Bot.set_last_action v c).
Proof. unfold stands. cbn. auto. Qed.

Lemma stands_set_decision_cooldown (v : Z) (c : Bot.t) :
  stands c -> stands (Bot.set_decision_cooldown v c).
Proof. unfold stands. cbn. auto. Qed.

Local Ltac band_stands :=
  intros; unfold Random.bind, Random.random, Random.ret;
  split_tests;
  auto using stands_attack, stands_block, stands_move_by,
    stands_set_last_action.

Lemma stands_decision
      (player : Bot.fighter) (w : Z) (b : Bot.t) (rs : Random.source) :
  stands b -> stands (snd (fst (Bot.make_decision player w b rs))).
Proof.
  apply (make_decision_preserves stands).
  - apply stands_set_decision_cooldown.
  - intros c H. unfold stands. rewrite !as_player_inherited.
    unfold Player.stop_moving. split_tests; auto.
  - unfold Bot.decide_very_close. band_stands.
  - unfold Bot.decide_close. band_stands.
  - unfold Bot.decide_medium. band_stands.
  - unfold Bot.decide_far. band_stands.
  - intros r c H. unfold stands.
    now destruct (adapt_to_health_weights r c) as [-> _].
  - intros pl left c rs' H. unfold Bot.adapt_to_opponent.
    destruct (Bot.fighter_last_action pl); band_stands.
Qed.

End DecisionPlace.

(** A decision only issues commands.  Whatever the bot decides and however
    the call ends, [make_decision] leaves the position, the health, the
    maximum health and the body parameters of the fighter as they were:
    only [update] moves a fighter and only [take_damage] hurts it. *)
Theorem decision_moves_and_hurts_nothing
        (player : Bot.fighter) (w : Z) (b : Bot.t) (rs : Random.source) :
  let p' := Bot.as_player (snd (fst (Bot.make_decision player w b rs))) in
  same_place (Bot.as_player b) p' /\ same_vitals (Bot.as_player b) p'.
Proof.
  split.
  - apply (stands_decision (Player.x (Bot.as_player b))
             (Player.y (Bot.as_player b))).
    split; reflexivity.
  - apply make_decision_vitals.
Qed.

(** ** The difficulty presets *)

(** [set_difficulty] with a missing key.  A name that is none of the four
    presets gives the medium row; every name gives weights within [0, 1]
    and a reaction time between 8 and 40; and the call changes nothing
    else, not even the [difficulty] attribute that [__init__] recorded. *)
Theorem set_difficulty_falls_back_to_medium (name : string) (b : Bot.t) :
  let b' := Bot.set_difficulty name b in
  (name <> "easy" -> name <> "hard" -> name <> "insane" ->
   Bot.aggression b' = 6 # 10 /\ Bot.caution b' = 4 # 10
   /\ Bot.reaction_time b' = 25)
  /\ ((0 <= Bot.aggression b')%Q /\ (Bot.aggression b' <= 1)%Q
      /\ (0 <= Bot.caution b')%Q /\ (Bot.caution b' <= 1)%Q
      /\ 8 <= Bot.reaction_time b' <= 40)
  /\ (Bot.as_player b' = Bot.as_player b
      /\ Bot.difficulty b' = Bot.difficulty b
      /\ Bot.decision_cooldown b' = Bot.decision_cooldown b
      /\ Bot.last_action b' = Bot.last_action b).
Proof.
  cbv zeta. unfold Bot.set_difficulty, Bot.difficulty_settings.
  destruct (String.eqb name "easy") eqn:E1;
    [| destruct (String.eqb name "medium") eqn:E2;
       [| destruct (String.eqb name "hard") eqn:E3;
          [| destruct (String.eqb name "insane") eqn:E4]]];
    cbn;
    (split; [intros N1 N2 N3 |
             split; [repeat split; try lia; discriminate |
                     repeat split]]);
    try (repeat split; reflexivity);
    try (apply String.eqb_eq in E1; contradiction);
    try (apply String.eqb_eq in E3; contradiction);
    try (apply String.eqb_eq in E4; contradiction).
Qed.

Lemma set_difficulty_falls_back_to_medium_witness :
  Bot.reaction_time (Bot.set_difficulty "nightmare" easy_bot) = 25
  /\ Bot.difficulty (Bot.set_difficulty "nightmare" easy_bot) = "easy".
Proof.
  destruct (set_difficulty_falls_back_to_medium "nightmare" easy_bot)
    as [Hmed [_ [_ [Hname _]]]].
  split; [| exact Hname].
  apply Hmed; discriminate.
Defined.

(** ** The monolithic bot *)

Ltac duelist_band :=
  intros; unfold Random.bind, Random.random, Random.ret,
    duelist_same_weights, Duelist.Bot.move_by;
  split_tests; auto with flags.

Lemma duelist_decide_close_weights
      (px : Q) (left : bool) (b : Duelist.Bot.t) (rs : Random.source) :
  duelist_same_weights b (fst (Duelist.Bot.decide_close px left b rs))
  /\ rest_of rs (snd (Duelist.Bot.decide_close px left b rs)).
Proof. unfold Duelist.Bot.decide_close. duelist_band. Qed.

Lemma duelist_decide_medium_weights
      (px : Q) (left : bool) (b : Duelist.Bot.t) (rs : Random.source) :
  duelist_same_weights b (fst (Duelist.Bot.decide_medium px left b rs))
  /\ rest_of rs (snd (Duelist.Bot.decide_medium px left b rs)).
Proof. unfold Duelist.Bot.decide_medium. duelist_band. Qed.

Lemma duelist_decide_far_weights
      (left : bool) (b : Duelist.Bot.t) (rs : Random.source) :
  duelist_same_weights b (fst (Duelist.Bot.decide_far left b rs))
  /\ rest_of rs (snd (Duelist.Bot.decide_far left b rs)).
Proof. unfold Duelist.Bot.decide_far. duelist_band. Qed.

(** The adaptation of the monolithic bot within its caps. *)
Lemma duelist_adapt_within_caps (b : Duelist.Bot.t) :
  duelist_within_caps b ->
  let b' := Duelist.Bot.adapt_to_health b in
  duelist_within_caps b'
  /\ (Duelist.Bot.aggression b <= Duelist.Bot.aggression b')%Q
  /\ (Duelist.Bot.caution b' <= Duelist.Bot.caution b)%Q
  /\ Duelist.Bot.decision_cooldown b' = Duelist.Bot.decision_cooldown b.
Proof.
  unfold duelist_within_caps, Duelist.Bot.adapt_to_health.
  intros [Ha0 [Ha1 [Hc0 Hc1]]]. cbv zeta.
  destruct (Duelist.Player.health (Duelist.Bot.as_player b) <? 30).
  - cbn [Duelist.Bot.aggression Duelist.Bot.caution
         Duelist.Bot.decision_cooldown Duelist.Bot.set_aggression
         Duelist.Bot.set_caution].
    set (a := Duelist.Bot.aggression b) in *.
    set (c := Duelist.Bot.caution b) in *.
    destruct (Q.min_spec (9 # 10) (a + (1 # 10))) as [[H1 E1] | [H1 E1]];
      destruct (Q.max_spec (1 # 10) (c - (1 # 10))) as [[H2 E2] | [H2 E2]];
      set (a' := Qmin (9 # 10) (a + (1 # 10))) in *;
      set (c' := Qmax (1 # 10) (c - (1 # 10))) in *;
      clearbody a' c' a c; repeat split; lra.
  - repeat split; try assumption; lra.
Qed.

(** One monolithic decision, taken or not. *)
Lemma duelist_make_decision_within_caps
      (px : Q) (w : Z) (b : Duelist.Bot.t) (rs : Random.source) :
  duelist_within_caps b ->
  let b' := fst (Duelist.Bot.make_decision px w b rs) in
  duelist_within_caps b'
  /\ (Duelist.Bot.aggression b <= Duelist.Bot.aggression b')%Q
  /\ (Duelist.Bot.caution b' <= Duelist.Bot.caution b)%Q.
Proof.
  intros Hcaps. cbv zeta.
  set (R := fun b' : Duelist.Bot.t =>
              duelist_within_caps b'
              /\ (Duelist.Bot.aggression b <= Duelist.Bot.aggression b')%Q
              /\ (Duelist.Bot.caution b' <= Duelist.Bot.caution b)%Q).
  change (R (fst (Duelist.Bot.make_decision px w b rs))).
  unfold Duelist.Bot.make_decision.
  destruct (0 <? Duelist.Bot.decision_cooldown b).
  - cbn [Random.ret fst]. unfold R, duelist_within_caps in *. cbn.
    repeat split; try tauto; apply Qle_refl.
  - cbv zeta.
    set (b0 := Duelist.Bot.inherited (Duelist.Player.set_blocking false) _).
    assert (H0 : duelist_same_weights b b0) by (split; reflexivity).
    clearbody b0.
    unfold Random.bind at 1.
    assert (Hband :
              duelist_same_weights b0
                (fst ((if Qltb (Qabs (Duelist.Player.x
                                        (Duelist.Bot.as_player b) - px))
                               (inject_Z 100)
                       then Duelist.Bot.decide_close px
                              (Qltb px (Duelist.Player.x
                                          (Duelist.Bot.as_player b))) b0
                       else if Qltb (Qabs (Duelist.Player.x
                                             (Duelist.Bot.as_player b) - px))
                                    (inject_Z 250)
                            then Duelist.Bot.decide_medium px
                                   (Qltb px (Duelist.Player.x
                                               (Duelist.Bot.as_player b))) b0
                            else Duelist.Bot.decide_far
                                   (Qltb px (Duelist.Player.x
                                               (Duelist.Bot.as_player b)))
                                   b0) rs))).
    { destruct (Qltb _ (inject_Z 100));
        [apply duelist_decide_close_weights |].
      destruct (Qltb _ (inject_Z 250));
        [apply duelist_decide_medium_weights
        | apply duelist_decide_far_weights]. }
    match type of Hband with
    | duelist_same_weights _ (fst ?c) => destruct c as [b1 rs1]
    end.
    cbn [fst] in Hband.
    unfold Random.bind, Random.randint, Random.random, Random.ret.
    cbn [Z.ltb Z.compare Pos.compare Pos.compare_cont fst].
    unfold Random.bind. cbn [fst snd].
    set (b2 := Duelist.Bot.set_decision_cooldown _ b1).
    assert (H2 : duelist_same_weights b b2).
    { destruct H0 as [E1 E2]. destruct Hband as [E3 E4].
      split; cbn; congruence. }
    clearbody b2.
    assert (Hcaps2 : duelist_within_caps b2).
    { destruct H2 as [E1 E2]. unfold duelist_within_caps.
      rewrite E1, E2. exact Hcaps. }
    destruct (duelist_adapt_within_caps b2 Hcaps2) as [Hc [Ha [Hcc _]]].
    destruct H2 as [E1 E2]. unfold R. rewrite <- E1, <- E2. auto.
Qed.

Lemma duelist_decisions_within_caps (steps : list duelist_step) :
  forall (b : Duelist.Bot.t) (rs : Random.source),
    duelist_within_caps b ->
    let b' := fst (duelist_decisions steps b rs) in
    duelist_within_caps b'
    /\ (Duelist.Bot.aggression b <= Duelist.Bot.aggression b')%Q
    /\ (Duelist.Bot.caution b' <= Duelist.Bot.caution b)%Q.
Proof.
  induction steps as [| [[change px] w] rest IH]; intros b rs Hcaps.
  - cbn. split; [exact Hcaps | split; apply Qle_refl].
  - cbn [duelist_decisions]. unfold Random.bind.
    pose proof (duelist_make_decision_within_caps px w
                  (Duelist.Bot.inherited change b) rs Hcaps) as H1.
    cbv zeta in H1.
    destruct (Duelist.Bot.make_decision px w _ rs) as [b1 rs1].
    cbn [fst] in H1. destruct H1 as [Hc1 [Ha1 Hcc1]].
    destruct (IH b1 rs1 Hc1) as [Hc2 [Ha2 Hcc2]].
    cbn in Ha1, Hcc1.
    split; [exact Hc2 | split; eapply Qle_trans; eassumption].
Qed.

(** In the monolithic game the adaptation of the bot is monotone.  From
    the weights of [Bot.__init__] (0.6 and 0.4), or from any aggression in
    [0, 0.9] and caution in [0.1, 1], along every course of a match the
    aggression never decreases and stays at most 0.9, and the caution never
    increases and stays at least 0.1, whatever happens to the fighter
    between the decisions. *)
Theorem duelist_adaptation_monotone
        (steps1 steps2 : list duelist_step) (b : Duelist.Bot.t)
        (rs : Random.source) :
  duelist_within_caps b ->
  let r1 := duelist_decisions steps1 b rs in
  let b1 := fst r1 in
  let b2 := fst (duelist_decisions steps2 b1 (snd r1)) in
  (Duelist.Bot.aggression b <= Duelist.Bot.aggression b1)%Q
  /\ (Duelist.Bot.aggression b1 <= Duelist.Bot.aggression b2)%Q
  /\ (Duelist.Bot.aggression b2 <= 9 # 10)%Q
  /\ (Duelist.Bot.caution b1 <= Duelist.Bot.caution b)%Q
  /\ (Duelist.Bot.caution b2 <= Duelist.Bot.caution b1)%Q
  /\ (1 # 10 <= Duelist.Bot.caution b2)%Q.
Proof.
  intros Hcaps r1 b1 b2.
  destruct (duelist_decisions_within_caps steps1 b rs Hcaps)
    as [Hc1 [Ha1 Hcc1]].
  fold r1 b1 in Hc1, Ha1, Hcc1.
  destruct (duelist_decisions_within_caps steps2 b1 (snd r1) Hc1)
    as [Hc2 [Ha2 Hcc2]].
  fold b2 in Hc2, Ha2, Hcc2.
  destruct Hc2 as [_ [A1 [C0 _]]].
  repeat split; assumption.
Qed.

Lemma duelist_adaptation_monotone_witness :
  let b := Duelist.Bot.init (inject_Z 724) 530 false ATHLETIC in
  let steps := [(Duelist.Player.set_health 20, inject_Z 200, screen_width);
                (fun p => p, inject_Z 200, screen_width)] in
  let b1 := fst (duelist_decisions steps b (Random.constant 0)) in
  (Duelist.Bot.aggression b <= Duelist.Bot.aggression b1)%Q
  /\ (Duelist.Bot.caution b1 <= Duelist.Bot.caution b)%Q.
Proof.
  intros b steps b1.
  destruct (duelist_adaptation_monotone steps [] b (Random.constant 0))
    as [Ha [_ [_ [Hc _]]]].
  - unfold duelist_within_caps. cbn. repeat split; discriminate.
  - split; assumption.
Defined.

(** ** The direction of the monolithic bot *)

Lemma duelist_rests_heads (left : bool) (x0 : Q) (p : Duelist.Player.t) :
  duelist_rests x0 p -> duelist_heads left x0 p.
Proof.
  intros [Hx [Hl Hr]]. unfold duelist_heads. rewrite Hx, Hl, Hr.
  repeat split; discriminate.
Qed.

Lemma duelist_attack_rests (ox x0 : Q) (p : Duelist.Player.t) :
  duelist_rests x0 p -> duelist_rests x0 (Duelist.Player.attack ox p).
Proof.
  unfold duelist_rests, Duelist.Player.attack,
    Duelist.Player.determine_attack_hand.
  intros H. split_tests; exact H.
Qed.

Lemma duelist_block_rests (ox x0 : Q) (p : Duelist.Player.t) :
  duelist_rests x0 p -> duelist_rests x0 (Duelist.Player.block ox p).
Proof.
  unfold duelist_rests, Duelist.Player.block. intros H.
  split_tests; exact H.
Qed.

Lemma duelist_move_by_heads (left : bool) (x0 : Q) (b : Duelist.Bot.t) :
  duelist_rests x0 (Duelist.Bot.as_player b) ->
  duelist_heads left x0
    (Duelist.Bot.as_player (Duelist.Bot.move_by left b)).
Proof.
  intros [Hx _]. unfold duelist_heads, Duelist.Bot.move_by.
  destruct left; cbn; repeat split; try assumption; discriminate.
Qed.

Lemma duelist_decide_close_heads
      (px x0 : Q) (left : bool) (b : Duelist.Bot.t) (rs : Random.source) :
  duelist_rests x0 (Duelist.Bot.as_player b) ->
  duelist_heads left x0
    (Duelist.Bot.as_player (fst (Duelist.Bot.decide_close px left b rs))).
Proof.
  intros H. unfold Duelist.Bot.decide_close, Random.bind, Random.random,
    Random.ret.
  repeat match goal with
         | |- context [if Qltb ?a ?b then _ else _] => destruct (Qltb a b)
         end;
    cbn [fst Duelist.Bot.as_player Duelist.Bot.set_last_action
         Duelist.Bot.inherited Duelist.Bot.set_as_player];
    auto using duelist_move_by_heads, duelist_rests_heads,
      duelist_attack_rests, duelist_block_rests.
Qed.

Lemma duelist_decide_medium_heads
      (px x0 : Q) (left : bool) (b : Duelist.Bot.t) (rs : Random.source) :
  duelist_rests x0 (Duelist.Bot.as_player b) ->
  duelist_heads left x0
    (Duelist.Bot.as_player (fst (Duelist.Bot.decide_medium px left b rs))).
Proof.
  intros H. unfold Duelist.Bot.decide_medium, Random.bind, Random.random,
    Random.ret.
  repeat match goal with
         | |- context [if Qltb ?a ?b then _ else _] => destruct (Qltb a b)
         end;
    cbn [fst Duelist.Bot.as_player Duelist.Bot.set_last_action
         Duelist.Bot.inherited Duelist.Bot.set_as_player];
    auto using duelist_move_by_heads, duelist_rests_heads,
      duelist_attack_rests, duelist_block_rests.
Qed.

Lemma duelist_decide_far_heads
      (x0 : Q) (left : bool) (b : Duelist.Bot.t) (rs : Random.source) :
  duelist_rests x0 (Duelist.Bot.as_player b) ->
  duelist_heads left x0
    (Duelist.Bot.as_player (fst (Duelist.Bot.decide_far left b rs))).
Proof.
  intros H. unfold Duelist.Bot.decide_far, Random.bind, Random.random,
    Random.ret.
  repeat match goal with
         | |- context [if Qltb ?a ?b then _ else _] => destruct (Qltb a b)
         end;
    cbn [fst Duelist.Bot.as_player Duelist.Bot.set_last_action
         Duelist.Bot.inherited Duelist.Bot.set_as_player];
    auto using duelist_move_by_heads, duelist_rests_heads.
Qed.

Lemma duelist_adapt_as_player (b : Duelist.Bot.t) :
  Duelist.Bot.as_player (Duelist.Bot.adapt_to_health b)
  = Duelist.Bot.as_player b.
Proof.
  unfold Duelist.Bot.adapt_to_health.
  destruct (Duelist.Player.health (Duelist.Bot.as_player b) <? 30);
    reflexivity.
Qed.

(** What follows the band in a decision leaves the fighter alone. *)
Lemma duelist_decision_tail (c : Random.M Duelist.Bot.t)
      (rs : Random.source) :
  Duelist.Bot.as_player
    (fst (Random.bind c
            (fun self =>
               Random.bind (Random.randint 10 25)
                 (fun cooldown =>
                    Random.ret
                      (Duelist.Bot.adapt_to_health
                         match cooldown with
                         | Some v => Duelist.Bot.set_decision_cooldown v self
                         | None => self
                         end))) rs))
  = Duelist.Bot.as_player (fst (c rs)).
Proof.
  unfold Random.bind at 1. destruct (c rs) as [b1 rs1].
  unfold Random.bind, Random.randint, Random.random, Random.ret.
  cbn [Z.ltb Z.compare Pos.compare Pos.compare_cont fst snd].
  unfold Random.bind. cbn [fst snd].
  rewrite duelist_adapt_as_player. reflexivity.
Qed.

(** A decision that is taken: the fighter after it, in terms of the band
    that was chosen. *)
Lemma duelist_decision_fighter
      (px : Q) (w : Z) (b : Duelist.Bot.t) (rs : Random.source) :
  Duelist.Bot.decision_cooldown b <= 0 ->
  exists b0 : Duelist.Bot.t,
    duelist_rests (Duelist.Player.x (Duelist.Bot.as_player b))
      (Duelist.Bot.as_player b0)
    /\ let left := Qltb px (Duelist.Player.x (Duelist.Bot.as_player b)) in
       let p' :=
         Duelist.Bot.as_player (fst (Duelist.Bot.make_decision px w b rs)) in
       p' = Duelist.Bot.as_player
              (fst (Duelist.Bot.decide_close px left b0 rs))
       \/ p' = Duelist.Bot.as_player
                 (fst (Duelist.Bot.decide_medium px left b0 rs))
       \/ p' = Duelist.Bot.as_player
                 (fst (Duelist.Bot.decide_far left b0 rs)).
Proof.
  intros Hcd. unfold Duelist.Bot.make_decision.
  destruct (0 <? Duelist.Bot.decision_cooldown b) eqn:E;
    [apply Z.ltb_lt in E; lia |].
  cbv zeta.
  set (b0 := Duelist.Bot.inherited (Duelist.Player.set_blocking false) _).
  exists b0. split; [repeat split |].
  clearbody b0.
  destruct (Qltb _ (inject_Z 100)); [left | right].
  2: destruct (Qltb _ (inject_Z 250)); [left | right].
  all: apply duelist_decision_tail.
Qed.

(** The monolithic bot never moves away from the player.  After a decision
    that is taken the bot stands where it stood, and a movement flag it
    has set points at the player: to the left only if the player is to
    the left, to the right only if the player is not.  This holds for
    each of the actions it records, the one named "retreat" included. *)
Theorem duelist_bot_never_retreats
        (px : Q) (w : Z) (b : Duelist.Bot.t) (rs : Random.source) :
  Duelist.Bot.decision_cooldown b <= 0 ->
  let p := Duelist.Bot.as_player b in
  let p' :=
    Duelist.Bot.as_player (fst (Duelist.Bot.make_decision px w b rs)) in
  Duelist.Player.x p' = Duelist.Player.x p
  /\ (Duelist.Player.moving_left p' = true ->
      (px < Duelist.Player.x p)%Q
      /\ Duelist.Player.moving_right p' = false)
  /\ (Duelist.Player.moving_right p' = true ->
      (Duelist.Player.x p <= px)%Q
      /\ Duelist.Player.moving_left p' = false).
Proof.
  intros Hcd p p'.
  destruct (duelist_decision_fighter px w b rs Hcd) as [b0 [Hrest Hcase]].
  cbv zeta in Hcase. fold p p' in Hcase, Hrest.
  assert (H : duelist_heads (Qltb px (Duelist.Player.x p))
                (Duelist.Player.x p) p').
  { destruct Hcase as [E | [E | E]]; rewrite E.
    - apply duelist_decide_close_heads. exact Hrest.
    - apply duelist_decide_medium_heads. exact Hrest.
    - apply duelist_decide_far_heads. exact Hrest. }
  destruct H as [Hx [Hl Hr]].
  split; [exact Hx | split].
  - intros Hm. destruct (Hl Hm) as [E1 E2].
    split; [apply Qltb_lt; exact E1 | exact E2].
  - intros Hm. destruct (Hr Hm) as [E1 E2].
    split; [apply Qltb_ge; exact E1 | exact E2].
Qed.

Lemma duelist_bot_never_retreats_witness :
  let b := Duelist.Bot.init (inject_Z 724) 500 false ATHLETIC in
  let p' :=
    Duelist.Bot.as_player
      (fst (Duelist.Bot.make_decision (inject_Z 700) screen_width b
              (Random.of_list [1 # 2; 3 # 4]))) in
  Duelist.Player.moving_left p' = true
  /\ Duelist.Bot.last_action
       (fst (Duelist.Bot.make_decision (inject_Z 700) screen_width b
               (Random.of_list [1 # 2; 3 # 4]))) = Some "retreat"%string
  /\ (inject_Z 700 < inject_Z 724)%Q.
Proof.
  intros b p'.
  assert (Hm : Duelist.Player.moving_left p' = true) by reflexivity.
  split; [exact Hm | split; [reflexivity |]].
  destruct (duelist_bot_never_retreats (inject_Z 700) screen_width b
              (Random.of_list [1 # 2; 3 # 4])) as [_ [Hl _]].
  - cbn. lia.
  - exact (proj1 (Hl Hm)).
Defined.

(** ** Hit effects *)

Lemma duelist_update_hit_effects_cons
      (e : Duelist.Game.effect) (l : list Duelist.Game.effect) :
  Duelist.Game.update_hit_effects (e :: l)
  = if 1 <? Duelist.Game.timer e
    then aged 1 e :: Duelist.Game.update_hit_effects l
    else Duelist.Game.update_hit_effects l.
Proof.
  unfold Duelist.Game.update_hit_effects. cbn [map filter].
  cbn [Duelist.Game.timer].
  destruct (0 <? Duelist.Game.timer e - 1) eqn:E1;
    destruct (1 <? Duelist.Game.timer e) eqn:E2;
    try reflexivity;
    rewrite ?Z.ltb_lt, ?Z.ltb_ge in *; lia.
Qed.

Lemma faded_cons (n : Z) (e : Duelist.Game.effect)
      (l : list Duelist.Game.effect) :
  faded n (e :: l)
  = if n <? Duelist.Game.timer e then aged n e :: faded n l else faded n l.
Proof.
  unfold faded. cbn [filter].
  destruct (n <? Duelist.Game.timer e); reflexivity.
Qed.

Lemma aged_aged (n m : Z) (e : Duelist.Game.effect) :
  aged m (aged n e) = aged (n + m) e.
Proof. unfold aged. cbn. f_equal. lia. Qed.

Lemma duelist_update_faded (n : Z) (l : list Duelist.Game.effect) :
  0 <= n ->
  Duelist.Game.update_hit_effects (faded n l) = faded (n + 1) l.
Proof.
  intros Hn. induction l as [| e l IH]; [reflexivity |].
  rewrite !faded_cons.
  destruct (n <? Duelist.Game.timer e) eqn:E1;
    destruct (n + 1 <? Duelist.Game.timer e) eqn:E2;
    rewrite ?duelist_update_hit_effects_cons, ?IH; try reflexivity.
  - rewrite aged_aged.
    replace (1 <? Duelist.Game.timer (aged n e)) with true; [reflexivity |].
    symmetry. cbn. rewrite Z.ltb_lt in *. lia.
  - replace (1 <? Duelist.Game.timer (aged n e)) with false; [reflexivity |].
    symmetry. cbn. rewrite Z.ltb_ge. rewrite Z.ltb_ge in E2. lia.
  - rewrite Z.ltb_lt in E2. rewrite Z.ltb_ge in E1. lia.
Qed.

Lemma duelist_update_once (l : list Duelist.Game.effect) :
  Duelist.Game.update_hit_effects l = faded 1 l.
Proof.
  induction l as [| e l IH]; [reflexivity |].
  rewrite duelist_update_hit_effects_cons, faded_cons, IH. reflexivity.
Qed.

(** The life of the hit effects of the monolith in closed form: [n + 1]
    calls of [update_hit_effects] keep, in their order, exactly the
    effects whose timer was above [n + 1], each with its timer lowered by
    [n + 1].  An effect made by [create_hit_effect] (timer 15) is therefore
    in the list for the next 14 calls and is removed by the 15th. *)
Theorem duelist_hit_effects_fade
        (n : nat) (l : list Duelist.Game.effect) :
  Nat.iter (S n) Duelist.Game.update_hit_effects l
  = faded (Z.of_nat (S n)) l.
Proof.
  induction n as [| n IH].
  - apply duelist_update_once.
  - change (Nat.iter (S (S n)) Duelist.Game.update_hit_effects l)
      with (Duelist.Game.update_hit_effects
              (Nat.iter (S n) Duelist.Game.update_hit_effects l)).
    rewrite IH, duelist_update_faded by lia.
    f_equal. lia.
Qed.

Lemma hit_effect_update_cons (e : HitEffect.t) (l : list HitEffect.t) :
  Game.update_hit_effects (e :: l)
  = if 1 <? HitEffect.timer e
    then hit_effect_aged 1 e :: Game.update_hit_effects l
    else Game.update_hit_effects l.
Proof.
  unfold Game.update_hit_effects. cbn [flat_map].
  unfold HitEffect.update. cbn [HitEffect.timer].
  destruct (0 <? HitEffect.timer e - 1) eqn:E1;
    destruct (1 <? HitEffect.timer e) eqn:E2;
    try reflexivity;
    rewrite ?Z.ltb_lt, ?Z.ltb_ge in *; lia.
Qed.

Lemma hit_effects_faded_cons (n : Z) (e : HitEffect.t)
      (l : list HitEffect.t) :
  hit_effects_faded n (e :: l)
  = if n <? HitEffect.timer e
    then hit_effect_aged n e :: hit_effects_faded n l
    else hit_effects_faded n l.
Proof.
  unfold hit_effects_faded. cbn [filter].
  destruct (n <? HitEffect.timer e); reflexivity.
Qed.

Lemma hit_effect_aged_aged (n m : Z) (e : HitEffect.t) :
  hit_effect_aged m (hit_effect_aged n e) = hit_effect_aged (n + m) e.
Proof. unfold hit_effect_aged. cbn. f_equal. lia. Qed.

Lemma hit_effects_update_faded (n : Z) (l : list HitEffect.t) :
  0 <= n ->
  Game.update_hit_effects (hit_effects_faded n l)
  = hit_effects_faded (n + 1) l.
Proof.
  intros Hn. induction l as [| e l IH]; [reflexivity |].
  rewrite !hit_effects_faded_cons.
  destruct (n <? HitEffect.timer e) eqn:E1;
    destruct (n + 1 <? HitEffect.timer e) eqn:E2;
    rewrite ?hit_effect_update_cons, ?IH; try reflexivity.
  - rewrite hit_effect_aged_aged.
    replace (1 <? HitEffect.timer (hit_effect_aged n e)) with true;
      [reflexivity |].
    symmetry. cbn. rewrite Z.ltb_lt in *. lia.
  - replace (1 <? HitEffect.timer (hit_effect_aged n e)) with false;
      [reflexivity |].
    symmetry. cbn. rewrite Z.ltb_ge. rewrite Z.ltb_ge in E2. lia.
  - rewrite Z.ltb_lt in E2. rewrite Z.ltb_ge in E1. lia.
Qed.

Lemma hit_effects_update_once (l : list HitEffect.t) :
  Game.update_hit_effects l = hit_effects_faded 1 l.
Proof.
  induction l as [| e l IH]; [reflexivity |].
  rewrite hit_effect_update_cons, hit_effects_faded_cons, IH. reflexivity.
Qed.

(** The same closed form for the [HitEffect] objects of [game_state.py]:
    [n + 1] calls of [Game.update_hit_effects] keep exactly the effects
    whose timer was above [n + 1], in their order and with the timer
    lowered by [n + 1]; position, type, [max_timer] and size stay. *)
Theorem hit_effects_fade (n : nat) (l : list HitEffect.t) :
  Nat.iter (S n) Game.update_hit_effects l
  = hit_effects_faded (Z.of_nat (S n)) l.
Proof.
  induction n as [| n IH].
  - apply hit_effects_update_once.
  - change (Nat.iter (S (S n)) Game.update_hit_effects l)
      with (Game.update_hit_effects
              (Nat.iter (S n) Game.update_hit_effects l)).
    rewrite IH, hit_effects_update_faded by lia.
    f_equal. lia.
Qed.

(** ** The end of a monolithic match *)

Lemma duelist_update_game_finished (g w : Z) (hits : bool * bool)
      (s : Duelist.Game.t) :
  Duelist.Game.battle_finished s = true ->
  Duelist.Game.update_game g w hits s
  = Duelist.Game.mk (Duelist.Game.player1 s) (Duelist.Game.player2 s)
      (Duelist.Game.update_hit_effects (Duelist.Game.hit_effects s))
      (Duelist.Game.winner s) true.
Proof.
  intros H. unfold Duelist.Game.update_game. rewrite H. reflexivity.
Qed.

Lemma iter_shift {A : Type} (f : A -> A) (n : nat) (a : A) :
  Nat.iter n f (f a) = Nat.iter (S n) f a.
Proof. symmetry. apply Nat.iter_succ_r. Qed.

(** A finished match is frozen.  Once [battle_finished] is set, any number
    of further frames leaves both fighters and the winner as they are,
    whatever the rectangles do; only the hit effects go on fading, one
    call of [update_hit_effects] per frame. *)
Theorem finished_match_is_frozen
        (g w : Z) (hits : list (bool * bool)) (s : Duelist.Game.t) :
  Duelist.Game.battle_finished s = true ->
  Duelist.Game.frames g w hits s
  = Duelist.Game.mk (Duelist.Game.player1 s) (Duelist.Game.player2 s)
      (Nat.iter (List.length hits) Duelist.Game.update_hit_effects
         (Duelist.Game.hit_effects s))
      (Duelist.Game.winner s) true.
Proof.
  revert s. induction hits as [| h rest IH]; intros s Hfin.
  - destruct s as [p1 p2 e wn fin]. cbn in *. rewrite Hfin. reflexivity.
  - rewrite duelist_frames_cons.
    rewrite (duelist_update_game_finished g w h s Hfin).
    rewrite IH by reflexivity.
    cbn [Duelist.Game.player1 Duelist.Game.player2 Duelist.Game.winner
         Duelist.Game.hit_effects List.length].
    rewrite iter_shift. reflexivity.
Qed.

Lemma finished_match_is_frozen_witness :
  let s := Duelist.Game.mk
             (Duelist.Player.set_health 0
                (Duelist.Player.init (inject_Z 200) 548 true ATHLETIC))
             (Duelist.Player.init (inject_Z 724) 548 false SUMO)
             [Duelist.Game.mk_effect (inject_Z 226) 613 15]
             (Some Duelist.Game.PLAYER_2) true in
  Duelist.Game.frames 648 1024 [(true, true); (true, false)] s
  = Duelist.Game.mk (Duelist.Game.player1 s) (Duelist.Game.player2 s)
      [Duelist.Game.mk_effect (inject_Z 226) 613 13]
      (Some Duelist.Game.PLAYER_2) true.
Proof.
  intros s.
  rewrite (finished_match_is_frozen 648 1024 [(true, true); (true, false)] s
             eq_refl).
  reflexivity.
Defined.

(** The verdict after one frame of a match that is running. *)
Lemma duelist_update_game_verdict (g w : Z) (hits : bool * bool)
      (s : Duelist.Game.t) :
  Duelist.Game.battle_finished s = false ->
  Duelist.Game.winner s = None ->
  verdict_sound (Duelist.Game.update_game g w hits s).
Proof.
  intros Hrun Hw. unfold verdict_sound, Duelist.Game.update_game.
  rewrite Hrun.
  destruct (Duelist.Game.update_players _ _ _ _ _ _) as [[q1 q2] e'].
  destruct (Duelist.Player.health q1 <=? 0) eqn:E1;
    [| destruct (Duelist.Player.health q2 <=? 0) eqn:E2];
    cbn; rewrite ?Hw; rewrite ?Z.leb_le, ?Z.leb_gt in *;
    repeat split; auto; lia.
Qed.

Lemma verdict_sound_frame (g w : Z) (hits : bool * bool)
      (s : Duelist.Game.t) :
  verdict_sound s -> verdict_sound (Duelist.Game.update_game g w hits s).
Proof.
  intros H. destruct (Duelist.Game.battle_finished s) eqn:Hfin.
  - rewrite (duelist_update_game_finished g w hits s Hfin).
    unfold verdict_sound in *.
    cbn [Duelist.Game.player1 Duelist.Game.player2 Duelist.Game.winner
         Duelist.Game.battle_finished].
    rewrite Hfin in H.
    destruct (Duelist.Game.winner s) as [[|] |]; tauto.
  - apply duelist_update_game_verdict; [exact Hfin |].
    unfold verdict_sound in H. rewrite Hfin in H.
    destruct (Duelist.Game.winner s) as [[|] |];
      [destruct H; discriminate | destruct H; discriminate | reflexivity].
Qed.

(** Once the match is finished, further frames keep the winner. *)
Lemma finished_keeps_winner (g w : Z) (hits : list (bool * bool)) :
  forall s : Duelist.Game.t,
    Duelist.Game.battle_finished s = true ->
    Duelist.Game.winner (Duelist.Game.frames g w hits s)
    = Duelist.Game.winner s.
Proof.
  induction hits as [| h rest IH]; intros s Hfin.
  - reflexivity.
  - rewrite duelist_frames_cons.
    rewrite (duelist_update_game_finished g w h s Hfin).
    rewrite IH by reflexivity. reflexivity.
Qed.

Lemma duelist_frames_app (g w : Z) (hits later : list (bool * bool)) :
  forall s : Duelist.Game.t,
    Duelist.Game.frames g w (hits ++ later) s
    = Duelist.Game.frames g w later (Duelist.Game.frames g w hits s).
Proof.
  induction hits as [| h rest IH]; intros s.
  - reflexivity.
  - cbn [app]. rewrite !duelist_frames_cons. apply IH.
Qed.

(** The verdict of the monolithic match is sound along every course of
    frames.  Starting from a running match in which both fighters stand:
    while no winner is named both still stand and the match runs; when
    player 1 is named, player 1 stands and player 2 is down; when player 2
    is named, player 1 is down, and player 2 may be down as well: a double
    knockout within one frame goes to player 2.  The verdict is never
    taken back: a winner named after some frames is the winner after any
    further frames. *)
Theorem verdict_stays_sound
        (g w : Z) (hits later : list (bool * bool)) (s : Duelist.Game.t) :
  verdict_sound s ->
  verdict_sound (Duelist.Game.frames g w hits s)
  /\ forall wn : Duelist.Game.winner_name,
       Duelist.Game.winner (Duelist.Game.frames g w hits s) = Some wn ->
       Duelist.Game.winner (Duelist.Game.frames g w (hits ++ later) s)
       = Some wn.
Proof.
  intros H.
  assert (Hsound : verdict_sound (Duelist.Game.frames g w hits s)).
  { revert s H. induction hits as [| h rest IH]; intros s H.
    - exact H.
    - rewrite duelist_frames_cons. apply IH.
      apply verdict_sound_frame. exact H. }
  split; [exact Hsound |].
  intros wn Hw. rewrite duelist_frames_app.
  rewrite finished_keeps_winner; [exact Hw |].
  unfold verdict_sound in Hsound. rewrite Hw in Hsound.
  destruct wn; destruct Hsound as [Hfin _]; exact Hfin.
Qed.

(** The athlete swings at a sumo who has 10 health left: the frame on
    which the swing lands names player 1 the winner, and two more frames,
    on which the sumo's rectangle meets the athlete, do not change that. *)
Lemma verdict_stays_sound_witness :
  let p1 := Duelist.Player.init (inject_Z 200) 548 true ATHLETIC in
  let p2 := Duelist.Player.set_health 10
              (Duelist.Player.init (inject_Z 240) 548 false SUMO) in
  let s := duelist_swing (inject_Z 240) p1 p2 [] in
  Duelist.Game.winner s = None
  /\ Duelist.Game.winner (Duelist.Game.frames 648 1024 [(true, false)] s)
     = Some Duelist.Game.PLAYER_1
  /\ Duelist.Game.winner
       (Duelist.Game.frames 648 1024
          ([(true, false)] ++ [(false, true); (true, true)]) s)
     = Some Duelist.Game.PLAYER_1.
Proof.
  intros p1 p2 s.
  assert (Hs : verdict_sound s).
  { unfold verdict_sound. cbn. repeat split. }
  split; [reflexivity | split; [reflexivity |]].
  exact (proj2 (verdict_stays_sound 648 1024 [(true, false)]
                  [(false, true); (true, true)] s Hs)
           Duelist.Game.PLAYER_1 eq_refl).
Defined.

Lemma duelist_swing_hits_once_witness :
  let p1 := Duelist.Player.init (inject_Z 200) 548 true ATHLETIC in
  let p2 := Duelist.Player.init (inject_Z 240) 548 false SUMO in
  Duelist.Player.health
    (Duelist.Game.player2
       (Duelist.Game.frames 648 1024
          [(true, false); (true, false); (true, true)]
          (duelist_swing (inject_Z 240) p1 p2 [])))
  = Z.max 0 (Duelist.Player.health p2 - 10).
Proof.
  intros p1 p2.
  refine (duelist_swing_hits_once 648 1024 (inject_Z 240) p1 p2 [] false
            [(true, false); (true, true)] _ _).
  - cbn. lia.
  - reflexivity.
Defined.

(** ** A swing that was blocked *)

Lemma duelist_resolve_blocked (a d : Duelist.Player.t)
      (e : list Duelist.Game.effect) :
  Duelist.Player.attacking a = true ->
  Duelist.Player.already_hit_in_current_attack a = false ->
  Duelist.Game.block_hit a d = true ->
  Duelist.Game.resolve_attack true a d e
  = (Duelist.Player.set_already_hit_in_current_attack true a, d, e).
Proof.
  intros Ha Hf Hb. unfold Duelist.Game.resolve_attack.
  rewrite Ha, Hf, Hb. reflexivity.
Qed.

Lemma duelist_update_players_harmless (g w : Z) (hits : bool * bool)
      (p1 p2 : Duelist.Player.t) (e : list Duelist.Game.effect) :
  duelist_swing_spent p1 ->
  let r := Duelist.Game.update_players g w hits p1 p2 e in
  Duelist.Player.health (snd (fst r)) = Duelist.Player.health p2
  /\ duelist_swing_spent (fst (fst r)).
Proof.
  intros Hs. cbv zeta. unfold Duelist.Game.update_players.
  set (q1 := Duelist.Player.update g w _ p1).
  set (q2 := Duelist.Player.update g w _ p2).
  destruct (duelist_update_frame g w (Some (Duelist.Player.x p2)) p1)
    as [_ [_ Hs1]].
  destruct (duelist_update_frame g w (Some (Duelist.Player.x q1)) p2)
    as [Hh2 _].
  fold q1 in Hs1. fold q2 in Hh2. clearbody q2. clearbody q1.
  destruct (duelist_check_collisions_second_half (fst hits) (snd hits)
              q1 q2 e) as [Eh [_ Es]].
  rewrite (duelist_resolve_spent (fst hits) q1 q2 e (Hs1 Hs)) in Eh, Es.
  cbn [fst snd] in Eh, Es.
  rewrite Eh, Hh2. auto.
Qed.

Lemma duelist_harmless_frame (g w : Z) (hits : bool * bool)
      (s : Duelist.Game.t) :
  duelist_swing_spent (Duelist.Game.player1 s) ->
  duelist_swing_spent
    (Duelist.Game.player1 (Duelist.Game.update_game g w hits s))
  /\ Duelist.Player.health
       (Duelist.Game.player2 (Duelist.Game.update_game g w hits s))
     = Duelist.Player.health (Duelist.Game.player2 s).
Proof.
  intros Hs. destruct (Duelist.Game.battle_finished s) eqn:Hfin.
  - rewrite (duelist_update_game_finished g w hits s Hfin). cbn. auto.
  - destruct (duelist_update_game_players g w hits s Hfin) as [E1 E2].
    destruct (duelist_update_players_harmless g w hits _
                (Duelist.Game.player2 s)
                (Duelist.Game.update_hit_effects (Duelist.Game.hit_effects s))
                Hs) as [Rh Rs].
    rewrite E1, E2. auto.
Qed.

Lemma duelist_harmless_frames (g w : Z) (hits : list (bool * bool)) :
  forall s : Duelist.Game.t,
    duelist_swing_spent (Duelist.Game.player1 s) ->
    Duelist.Player.health
      (Duelist.Game.player2 (Duelist.Game.frames g w hits s))
    = Duelist.Player.health (Duelist.Game.player2 s).
Proof.
  induction hits as [| h rest IH]; intros s Hs; [reflexivity |].
  rewrite duelist_frames_cons.
  destruct (duelist_harmless_frame g w h s Hs) as [Hs1 Hh1].
  rewrite (IH _ Hs1). exact Hh1.
Qed.

(** A blocked swing is wasted.  In the monolith, when the resolver finds a
    live swing of player 1 blocked, it leaves the defender and the effects
    as they are and marks the swing as used; from then on no frame takes
    health from player 2 through that swing, whatever player 2 has become
    in the meantime (a defender who has dropped the block included) and
    however often the rectangles intersect. *)
Theorem blocked_swing_is_wasted
        (a d : Duelist.Player.t) (e : list Duelist.Game.effect) :
  Duelist.Player.attacking a = true ->
  Duelist.Player.already_hit_in_current_attack a = false ->
  Duelist.Game.block_hit a d = true ->
  let r := Duelist.Game.resolve_attack true a d e in
  snd (fst r) = d
  /\ snd r = e
  /\ forall (g w : Z) (hits : list (bool * bool)) (d' : Duelist.Player.t)
            (e' : list Duelist.Game.effect)
            (wn : option Duelist.Game.winner_name) (fin : bool),
       Duelist.Player.health
         (Duelist.Game.player2
            (Duelist.Game.frames g w hits
               (Duelist.Game.mk (fst (fst r)) d' e' wn fin)))
       = Duelist.Player.health d'.
Proof.
  intros Ha Hf Hb. cbv zeta.
  rewrite (duelist_resolve_blocked a d e Ha Hf Hb). cbn [fst snd].
  split; [reflexivity | split; [reflexivity |]].
  intros g w hits d' e' wn fin.
  apply (duelist_harmless_frames g w hits
           (Duelist.Game.mk
              (Duelist.Player.set_already_hit_in_current_attack true a)
              d' e' wn fin)).
  right. reflexivity.
Qed.

Lemma blocked_swing_is_wasted_witness :
  let a := Duelist.Player.attack (inject_Z 240)
             (Duelist.Player.init (inject_Z 250) 518 true ATHLETIC) in
  let d := Duelist.Player.block (inject_Z 250)
             (Duelist.Player.set_block_cooldown 0
                (Duelist.Player.init (inject_Z 240) 533 false SUMO)) in
  Duelist.Game.block_hit a d = true
  /\ Duelist.Player.health
       (Duelist.Game.player2
          (Duelist.Game.frames 648 1024 [(true, false); (true, false)]
             (Duelist.Game.mk
                (fst (fst (Duelist.Game.resolve_attack true a d [])))
                (Duelist.Player.set_blocking false d) [] None false)))
     = 150.
Proof.
  intros a d.
  assert (Hb : Duelist.Game.block_hit a d = true) by reflexivity.
  split; [exact Hb |].
  destruct (blocked_swing_is_wasted a d [] eq_refl eq_refl Hb)
    as [_ [_ H]].
  exact (H 648 1024 [(true, false); (true, false)]
           (Duelist.Player.set_blocking false d) [] None false).
Defined.

(** ** Menus of the monolith *)

Lemma getitem_in_range {A : Type} (l : list A) (i : Z) :
  0 <= i < Z.of_nat (List.length l) ->
  exists a : A, getitem l i = Some a /\ In a l.
Proof.
  intros Hi. unfold getitem.
  replace ((0 <=? i) && (i <? Z.of_nat (List.length l))) with true
    by (symmetry; apply andb_true_iff; split;
        [apply Z.leb_le | apply Z.ltb_lt]; lia).
  destruct (nth_error l (Z.to_nat i)) as [a |] eqn:E.
  - exists a. split; [reflexivity |]. eapply nth_error_In. exact E.
  - apply nth_error_None in E. lia.
Qed.

Lemma settings_menu_ok_window (m : Duelist.Game.menus)
      (st : Duelist.Settings.t) :
  0 <= Duelist.Game.settings_selection m
       < 3 + Z.of_nat (List.length (Duelist.Settings.available_resolutions st))
  ->
  settings_coherent st ->
  settings_menu_ok
    (Duelist.Game.init_screen (Duelist.Game.set_settings st m)).
Proof.
  intros Hsel Hst. unfold settings_menu_ok. cbn. auto.
Qed.

Lemma set_fullscreen_coherent (f : bool) (st : Duelist.Settings.t) :
  settings_coherent st ->
  settings_coherent (Duelist.Settings.set_fullscreen f st).
Proof.
  unfold settings_coherent. intros [_ [H2 H3]]. cbn.
  rewrite andb_false_r. auto.
Qed.

Lemma set_borderless_coherent (f : bool) (st : Duelist.Settings.t) :
  settings_coherent st ->
  settings_coherent (Duelist.Settings.set_borderless f st).
Proof.
  unfold settings_coherent. intros [_ [H2 H3]]. cbn. auto.
Qed.

Lemma set_resolution_coherent (wd ht : Z) (st : Duelist.Settings.t) :
  settings_coherent st ->
  In (wd, ht) (Duelist.Settings.available_resolutions st) ->
  settings_coherent (Duelist.Settings.set_resolution wd ht st).
Proof.
  unfold settings_coherent. intros [H1 _] Hin. cbn. auto.
Qed.

Lemma handle_settings_events_ok (e : event) (m : Duelist.Game.menus) :
  settings_menu_ok m ->
  exists m' : Duelist.Game.menus,
    Duelist.Game.handle_settings_events e m = Some m'
    /\ settings_menu_ok m'
    /\ Duelist.Settings.available_resolutions (Duelist.Game.settings m')
       = Duelist.Settings.available_resolutions (Duelist.Game.settings m).
Proof.
  intros Hok. pose proof Hok as [Hsel [Hst [Hscr Hg]]].
  set (items := 3 + Z.of_nat (List.length
                                (Duelist.Settings.available_resolutions
                                   (Duelist.Game.settings m)))) in *.
  assert (Hitems : 0 < items) by (unfold items; lia).
  assert (Hmove : forall v : Z,
             settings_menu_ok
               (Duelist.Game.set_settings_selection (v mod items) m)).
  { intros v. unfold settings_menu_ok. cbn. fold items.
    pose proof (Z.mod_pos_bound v items Hitems). auto. }
  assert (Hesc : settings_menu_ok (Duelist.Game.set_state MENU m)).
  { unfold settings_menu_ok. cbn. auto. }
  destruct e as [k | k |];
    [| exists m; auto | exists m; auto].
  unfold Duelist.Game.handle_settings_events. fold items.
  destruct k;
    try (eexists; split; [reflexivity | split; [apply Hmove | reflexivity]]);
    try (eexists; split; [reflexivity | split; [exact Hesc | reflexivity]]);
    try (exists m; split; [reflexivity | auto]).
  all: repeat match goal with
              | |- context [if ?b =? ?c then _ else _] =>
                  destruct (Z.eqb_spec b c)
              end.
  all: try solve
         [ eexists; split;
           [ reflexivity
           | split;
             [ apply settings_menu_ok_window;
               [ exact Hsel
               | auto using set_borderless_coherent,
                   set_fullscreen_coherent ]
             | reflexivity ] ] ].
  all: destruct (Duelist.Game.settings_selection m - 3 <? _) eqn:E3;
    [| exists m; auto].
  all: destruct (getitem_in_range
                   (Duelist.Settings.available_resolutions
                      (Duelist.Game.settings m))
                   (Duelist.Game.settings_selection m - 3))
    as [[wd ht] [Eg Hin]]; [apply Z.ltb_lt in E3; lia |].
  all: rewrite Eg; eexists; split; [reflexivity |];
    split; [| reflexivity];
    apply settings_menu_ok_window; [exact Hsel |];
    apply set_resolution_coherent; assumption.
Qed.

(** The settings menu of the monolith keeps its house in order.  From a
    coherent state (as [Game.__init__] leaves it), whatever keys are
    pressed in the menu: the table lookup never raises [IndexError], the
    selection stays an entry of the menu, fullscreen and borderless are
    never on together, the current resolution is an entry of the table and
    equals the stored width and height, and the window and the ground line
    are those of the settings. *)
Theorem settings_menu_stays_coherent (es : list event) :
  forall m : Duelist.Game.menus,
    settings_menu_ok m ->
    exists m' : Duelist.Game.menus,
      settings_events es m = Some m' /\ settings_menu_ok m'.
Proof.
  induction es as [| e rest IH]; intros m Hok.
  - exists m. split; [reflexivity | exact Hok].
  - destruct (handle_settings_events_ok e m Hok) as [m1 [E1 [Hok1 _]]].
    cbn [settings_events]. rewrite E1. apply IH. exact Hok1.
Qed.

Lemma settings_menu_stays_coherent_witness :
  exists m' : Duelist.Game.menus,
    settings_events
      [KEYDOWN K_UP; KEYDOWN K_RETURN; KEYDOWN K_s; KEYDOWN K_s;
       KEYDOWN K_SPACE]
      (Duelist.Game.init_menus Duelist.Settings.init) = Some m'
    /\ settings_menu_ok m'.
Proof.
  apply (settings_menu_stays_coherent
           [KEYDOWN K_UP; KEYDOWN K_RETURN; KEYDOWN K_s; KEYDOWN K_s;
            KEYDOWN K_SPACE]
           (Duelist.Game.init_menus Duelist.Settings.init)).
  unfold settings_menu_ok, settings_coherent. cbn.
  repeat split; auto; lia.
Defined.

(** Navigation of the main menu wraps around its five entries.  With the
    selection on an entry: the next key followed by the previous key
    comes back to the same state, five presses of the next key go once
    around, and after any event the selection is still an entry. *)
Theorem menu_navigation_wraps (m : Duelist.Game.menus) :
  0 <= Duelist.Game.menu_selection m < 5 ->
  Duelist.Game.handle_menu_events (KEYDOWN K_UP)
    (Duelist.Game.handle_menu_events (KEYDOWN K_DOWN) m) = m
  /\ Nat.iter 5 (Duelist.Game.handle_menu_events (KEYDOWN K_DOWN)) m = m
  /\ forall e : event,
       0 <= Duelist.Game.menu_selection
              (Duelist.Game.handle_menu_events e m) < 5.
Proof.
  intros Hsel.
  assert (Hcases : Duelist.Game.menu_selection m = 0
                   \/ Duelist.Game.menu_selection m = 1
                   \/ Duelist.Game.menu_selection m = 2
                   \/ Duelist.Game.menu_selection m = 3
                   \/ Duelist.Game.menu_selection m = 4) by lia.
  destruct m as [st ms ss cs p1 p1c sets scr gy].
  cbn [Duelist.Game.menu_selection] in *.
  split; [| split].
  - cbn. f_equal.
    destruct Hcases as [E | [E | [E | [E | E]]]]; subst ms; reflexivity.
  - destruct Hcases as [E | [E | [E | [E | E]]]]; subst ms; reflexivity.
  - intros [k | k |]; [| cbn; exact Hsel | cbn; exact Hsel].
    destruct k; cbn [Duelist.Game.handle_menu_events];
      try (cbn; apply Z.mod_pos_bound; lia);
      try (cbn; exact Hsel).
    all: destruct Hcases as [E | [E | [E | [E | E]]]]; subst ms; cbn; lia.
Qed.

Lemma menu_navigation_wraps_witness :
  let m := Duelist.Game.handle_menu_events (KEYDOWN K_UP)
             (Duelist.Game.init_menus Duelist.Settings.init) in
  Duelist.Game.menu_selection m = 4
  /\ Duelist.Game.handle_menu_events (KEYDOWN K_UP)
       (Duelist.Game.handle_menu_events (KEYDOWN K_DOWN) m) = m.
Proof.
  intros m. split; [reflexivity |].
  apply (menu_navigation_wraps m). cbn. lia.
Defined.

(** ** The table of resolutions of [settings.py] *)

Lemma index_found (current : Z * Z) (l : list (Z * Z)) :
  forall i : Z,
    Settings.index current l = Some i ->
    0 <= i < Z.of_nat (List.length l)
    /\ nth_error l (Z.to_nat i) = Some current.
Proof.
  induction l as [| r rest IH]; intros i H; [discriminate |].
  cbn [Settings.index] in H.
  destruct ((fst r =? fst current) && (snd r =? snd current)) eqn:E.
  - injection H as <-. apply andb_true_iff in E. destruct E as [E1 E2].
    apply Z.eqb_eq in E1, E2. destruct r, current. cbn in *. subst.
    split; [lia | reflexivity].
  - destruct (Settings.index current rest) as [j |] eqn:Ej;
      [| discriminate].
    injection H as <-. destruct (IH j eq_refl) as [Hj Hn].
    cbn [List.length]. split; [lia |].
    replace (Z.to_nat (j + 1)) with (S (Z.to_nat j)) by lia. exact Hn.
Qed.

Lemma index_missing (current : Z * Z) (l : list (Z * Z)) :
  Settings.index current l = None -> ~ In current l.
Proof.
  induction l as [| r rest IH]; intros H Hin; [exact Hin |].
  cbn [Settings.index] in H.
  destruct ((fst r =? fst current) && (snd r =? snd current)) eqn:E;
    [discriminate |].
  destruct (Settings.index current rest) eqn:Ej; [discriminate |].
  destruct Hin as [-> | Hin]; [| exact (IH eq_refl Hin)].
  rewrite !Z.eqb_refl in E. discriminate.
Qed.

(** The resolution and its index in [settings.py].  With the table of
    [Settings.__init__]: [set_resolution_by_index] accepts exactly the
    indices 0 to 6 and then [get_resolution_index] reads the same index
    back; any other index is refused and changes nothing.  In the other
    direction the round trip holds only for a listed resolution: writing
    back the index that [get_resolution_index] reports leaves the settings
    as they are exactly when the current resolution is in the table, since
    an unlisted resolution is reported as index 1. *)
Theorem resolution_index_round_trip (i : Z) (s : Settings.t) :
  listed s ->
  (0 <= i < 7 ->
   fst (Settings.set_resolution_by_index i s) = true
   /\ Settings.get_resolution_index
        (snd (Settings.set_resolution_by_index i s)) = i)
  /\ (~ 0 <= i < 7 -> Settings.set_resolution_by_index i s = (false, s))
  /\ (snd (Settings.set_resolution_by_index
             (Settings.get_resolution_index s) s) = s
      <-> In (VideoSettings.screen_width (Settings.video s),
              VideoSettings.screen_height (Settings.video s))
             (Settings.available_resolutions s)).
Proof.
  unfold listed. intros Htable.
  destruct s as [[wd ht fs bl vs fps] table].
  cbn [Settings.available_resolutions] in Htable. subst table.
  split; [| split].
  - intros Hi.
    assert (Hcases : i = 0 \/ i = 1 \/ i = 2 \/ i = 3 \/ i = 4 \/ i = 5
                     \/ i = 6) by lia.
    destruct Hcases as [E | [E | [E | [E | [E | [E | E]]]]]]; subst i;
      split; reflexivity.
  - intros Hi. unfold Settings.set_resolution_by_index.
    cbn [Settings.available_resolutions Settings.init List.length].
    destruct ((0 <=? i) && (i <? Z.of_nat 7)) eqn:E; [| reflexivity].
    apply andb_true_iff in E. destruct E as [E1 E2].
    apply Z.leb_le in E1. apply Z.ltb_lt in E2. lia.
  - unfold Settings.get_resolution_index.
    cbn [Settings.video Settings.available_resolutions
         VideoSettings.screen_width VideoSettings.screen_height].
    destruct (Settings.index (wd, ht)
                (Settings.available_resolutions Settings.init))
      as [j |] eqn:Ej.
    + destruct (index_found _ _ j Ej) as [Hj Hn].
      split; [intros _; eapply nth_error_In; exact Hn | intros _].
      unfold Settings.set_resolution_by_index, getitem.
      cbn [Settings.available_resolutions].
      replace ((0 <=? j)
               && (j <? Z.of_nat
                          (List.length
                             (Settings.available_resolutions Settings.init))))
        with true
        by (symmetry; apply andb_true_iff; split;
            [apply Z.leb_le | apply Z.ltb_lt]; lia).
      rewrite Hn. reflexivity.
    + apply index_missing in Ej. split; [| intros Hin; contradiction].
      intros H. cbn in H. injection H as E1 E2. subst wd ht.
      exfalso. apply Ej. cbn. auto.
Qed.

Lemma resolution_index_round_trip_witness :
  Settings.get_resolution_index
    (snd (Settings.set_resolution_by_index 5 Settings.init)) = 5.
Proof.
  destruct (resolution_index_round_trip 5 Settings.init eq_refl)
    as [H _].
  apply H. lia.
Defined.

(** ** Display modes of [settings.py] *)

Lemma apply_mode_call_one_mode (s : Settings.t) (c : mode_call) :
  one_mode (apply_mode_call s c)
  /\ (VideoSettings.screen_width (Settings.video (apply_mode_call s c)),
      VideoSettings.screen_height (Settings.video (apply_mode_call s c)))
     = (VideoSettings.screen_width (Settings.video s),
        VideoSettings.screen_height (Settings.video s))
  /\ Settings.available_resolutions (apply_mode_call s c)
     = Settings.available_resolutions s.
Proof.
  unfold one_mode. destruct c as [[|] | [|]]; cbn;
    repeat split; try reflexivity;
    first [apply andb_false_l | apply andb_false_r].
Qed.

(** Fullscreen and borderless exclude each other in [settings.py]: after
    any call of [set_fullscreen] or [set_borderless], with either
    argument, at most one of the two is on, even if both were on before;
    switching one of them off leaves the other as it was; and no sequence
    of such calls touches the resolution or the table of resolutions. *)
Theorem display_modes_exclusive (calls : list mode_call) (s : Settings.t) :
  calls <> [] \/ one_mode s ->
  let s' := apply_mode_calls calls s in
  one_mode s'
  /\ (VideoSettings.screen_width (Settings.video s'),
      VideoSettings.screen_height (Settings.video s'))
     = (VideoSettings.screen_width (Settings.video s),
        VideoSettings.screen_height (Settings.video s))
  /\ Settings.available_resolutions s' = Settings.available_resolutions s
  /\ VideoSettings.borderless
       (Settings.video (Settings.set_fullscreen false s))
     = VideoSettings.borderless (Settings.video s)
  /\ VideoSettings.fullscreen
       (Settings.video (Settings.set_borderless false s))
     = VideoSettings.fullscreen (Settings.video s).
Proof.
  intros H. cbv zeta.
  assert (Hall : (calls <> [] \/ one_mode s) ->
                 one_mode (apply_mode_calls calls s)
                 /\ (VideoSettings.screen_width
                       (Settings.video (apply_mode_calls calls s)),
                     VideoSettings.screen_height
                       (Settings.video (apply_mode_calls calls s)))
                    = (VideoSettings.screen_width (Settings.video s),
                       VideoSettings.screen_height (Settings.video s))
                 /\ Settings.available_resolutions
                      (apply_mode_calls calls s)
                    = Settings.available_resolutions s).
  { clear H. revert s. induction calls as [| c rest IH]; intros s H.
    - destruct H as [H | H]; [contradiction |]. cbn. auto.
    - unfold apply_mode_calls in *. cbn [fold_left].
      destruct (apply_mode_call_one_mode s c) as [H1 [H2 H3]].
      destruct (IH (apply_mode_call s c) (or_intror H1)) as [I1 [I2 I3]].
      rewrite I2, I3. auto. }
  destruct (Hall H) as [H1 [H2 H3]].
  repeat split; try assumption.
Qed.

Lemma display_modes_exclusive_witness :
  one_mode
    (apply_mode_calls
       [call_set_fullscreen true; call_set_borderless true;
        call_set_fullscreen false]
       Settings.init).
Proof.
  destruct (display_modes_exclusive
              [call_set_fullscreen true; call_set_borderless true;
               call_set_fullscreen false]
              Settings.init) as [H _].
  - left. discriminate.
  - exact H.
Defined.

(** ** The rhythm of the monolithic bot *)

Lemma duelist_make_decision_waits
      (px : Q) (w : Z) (b : Duelist.Bot.t) (rs : Random.source) :
  0 < Duelist.Bot.decision_cooldown b ->
  Duelist.Bot.make_decision px w b rs
  = (Duelist.Bot.set_decision_cooldown
       (Duelist.Bot.decision_cooldown b - 1) b, rs).
Proof.
  intros H. unfold Duelist.Bot.make_decision.
  replace (0 <? Duelist.Bot.decision_cooldown b) with true
    by (symmetry; apply Z.ltb_lt; exact H).
  reflexivity.
Qed.

(** While the cooldown lasts the decisions leave the bot to the frames. *)
Lemma duelist_decisions_wait (steps : list duelist_step) :
  forall (b : Duelist.Bot.t) (rs : Random.source),
    Z.of_nat (List.length steps) <= Duelist.Bot.decision_cooldown b ->
    duelist_decisions steps b rs
    = (Duelist.Bot.mk
         (duelist_changes steps (Duelist.Bot.as_player b))
         (Duelist.Bot.decision_cooldown b - Z.of_nat (List.length steps))
         (Duelist.Bot.aggression b) (Duelist.Bot.caution b)
         (Duelist.Bot.last_action b), rs).
Proof.
  induction steps as [| [[change px] w] rest IH]; intros b rs Hlen.
  - destruct b. cbn. rewrite Z.sub_0_r. reflexivity.
  - cbn [List.length] in Hlen.
    cbn [duelist_decisions]. unfold Random.bind.
    rewrite duelist_make_decision_waits
      by (cbn [Duelist.Bot.decision_cooldown Duelist.Bot.inherited
               Duelist.Bot.set_as_player]; lia).
    rewrite IH
      by (cbn [Duelist.Bot.decision_cooldown Duelist.Bot.inherited
               Duelist.Bot.set_as_player
               Duelist.Bot.set_decision_cooldown]; lia).
    cbn [Duelist.Bot.decision_cooldown Duelist.Bot.inherited
         Duelist.Bot.set_as_player Duelist.Bot.set_decision_cooldown
         Duelist.Bot.as_player Duelist.Bot.aggression Duelist.Bot.caution
         Duelist.Bot.last_action duelist_changes fold_left fst
         List.length].
    f_equal. f_equal. lia.
Qed.

Lemma duelist_decision_tail_cooldown (c : Random.M Duelist.Bot.t)
      (rs : Random.source) :
  unit_draws (snd (c rs)) ->
  10 <= Duelist.Bot.decision_cooldown
          (fst (Random.bind c
                  (fun self =>
                     Random.bind (Random.randint 10 25)
                       (fun cooldown =>
                          Random.ret
                            (Duelist.Bot.adapt_to_health
                               match cooldown with
                               | Some v =>
                                   Duelist.Bot.set_decision_cooldown v self
                               | None => self
                               end))) rs)) <= 25.
Proof.
  intros Hu. unfold Random.bind. destruct (c rs) as [b1 rs1].
  cbn [snd] in Hu.
  destruct (randint_in_range 10 25 rs1 Hu) as [v [Ev Hv]]; [lia |].
  destruct (Random.randint 10 25 rs1) as [cd rs2]. cbn [fst] in Ev.
  subst cd. cbn [Random.ret fst].
  assert (E : Duelist.Bot.decision_cooldown
                (Duelist.Bot.adapt_to_health
                   (Duelist.Bot.set_decision_cooldown v b1)) = v).
  { unfold Duelist.Bot.adapt_to_health.
    destruct (Duelist.Player.health _ <? 30); reflexivity. }
  rewrite E. exact Hv.
Qed.

Lemma duelist_decision_cooldown_range
      (px : Q) (w : Z) (b : Duelist.Bot.t) (rs : Random.source) :
  unit_draws rs ->
  Duelist.Bot.decision_cooldown b <= 0 ->
  10 <= Duelist.Bot.decision_cooldown
          (fst (Duelist.Bot.make_decision px w b rs)) <= 25.
Proof.
  intros Hu Hcd. unfold Duelist.Bot.make_decision.
  destruct (0 <? Duelist.Bot.decision_cooldown b) eqn:E;
    [apply Z.ltb_lt in E; lia |].
  cbv zeta.
  set (b0 := Duelist.Bot.inherited (Duelist.Player.set_blocking false) _).
  clearbody b0.
  apply duelist_decision_tail_cooldown.
  apply (rest_of_unit_draws rs); [| exact Hu].
  destruct (Qltb _ (inject_Z 100));
    [apply duelist_decide_close_weights |].
  destruct (Qltb _ (inject_Z 250));
    [apply duelist_decide_medium_weights
    | apply duelist_decide_far_weights].
Qed.

(** The monolithic bot holds its course.  A decision that is taken sets
    the cooldown to a value between 10 and 25, and during the next ten
    frames (or fewer) the calls of [make_decision] draw nothing and change
    nothing but that cooldown, one down per call: the fighter is moved by
    the frame updates alone, and the weights and the recorded action stay.
    So the bot acts at most once in eleven frames. *)
Theorem duelist_bot_holds_course
        (px : Q) (w : Z) (b : Duelist.Bot.t) (rs : Random.source)
        (steps : list duelist_step) :
  unit_draws rs ->
  Duelist.Bot.decision_cooldown b <= 0 ->
  (List.length steps <= 10)%nat ->
  let r1 := Duelist.Bot.make_decision px w b rs in
  let b1 := fst r1 in
  10 <= Duelist.Bot.decision_cooldown b1 <= 25
  /\ duelist_decisions steps b1 (snd r1)
     = (Duelist.Bot.mk
          (duelist_changes steps (Duelist.Bot.as_player b1))
          (Duelist.Bot.decision_cooldown b1 - Z.of_nat (List.length steps))
          (Duelist.Bot.aggression b1) (Duelist.Bot.caution b1)
          (Duelist.Bot.last_action b1), snd r1).
Proof.
  intros Hu Hcd Hlen r1 b1.
  pose proof (duelist_decision_cooldown_range px w b rs Hu Hcd) as Hrange.
  fold r1 b1 in Hrange.
  split; [exact Hrange |].
  apply duelist_decisions_wait. lia.
Qed.

Lemma duelist_bot_holds_course_witness :
  let b := Duelist.Bot.init (inject_Z 724) 548 false ATHLETIC in
  10 <= Duelist.Bot.decision_cooldown
          (fst (Duelist.Bot.make_decision (inject_Z 200) screen_width b
                  (Random.constant (1 # 2)))) <= 25.
Proof.
  intros b.
  refine (proj1 (duelist_bot_holds_course (inject_Z 200) screen_width b
                   (Random.constant (1 # 2))
                   [(Duelist.Player.update 648 1024 (Some (inject_Z 200)),
                     inject_Z 200, screen_width)] _ _ _)).
  - intros n. split; [discriminate | reflexivity].
  - cbn. lia.
  - cbn. lia.
Defined.

(** ** The claims on the resolver *)

(** At the positions [x = 100] and [x = 200] the fighters are out of
    reach: on every frame of the swing the attack rectangle ends at 190 or
    before, and the body starts at 200, so the two never meet. *)
Lemma far_swing_out_of_reach :
  Rect.left (Player.get_rect far_guard) = 200
  /\ forallb (fun p =>
                let r := Player.get_attack_rect p
                           (Player.update_body_parts p) in
                (Rect.left r + Rect.width r <=? 190)
                && negb (reaches p far_guard)) far_swing = true.
Proof. vm_compute. split; reflexivity. Qed.

(** The first half of the resolver, when its attacker's blow is not
    resolved, hands both fighters on as they are. *)
Lemma unresolved_half (hit : bool) (attacker defender : Player.t) :
  resolves hit attacker defender = false ->
  Game.resolve_attack hit attacker defender
  = (Returned, (attacker, defender)).
Proof. apply resolve_attack_outcome. Qed.

(** C1.  [check_block] succeeds exactly when the defender blocks and
    guards the side the blow comes from (right hand: direction right and
    attacker to the left; left hand: direction left and attacker to the
    right).  But when the defender blocks and the check fails, no damage
    lands: [take_damage] has a guard of its own on [blocking], so the half
    of the resolver that handles the blow returns both fighters unchanged.
    Whichever of the two players strikes, and whatever the other half
    does, the defender's health and the attacker's swing mark are after
    [check_collisions] what they were before. *)
Theorem check_block_side (defender attacker : Player.t) :
  (Game.check_block defender attacker = true <->
   Player.blocking defender = true
   /\ ((Player.attacking_with_right attacker = true
        /\ Player.block_direction defender = "right"
        /\ (Player.x attacker < Player.x defender)%Q)
       \/ (Player.attacking_with_right attacker = false
           /\ Player.block_direction defender = "left"
           /\ (Player.x defender < Player.x attacker)%Q)))
  /\ (Player.blocking defender = true ->
      Game.check_block defender attacker = false ->
      forall hit other : bool,
        Game.resolve_attack hit attacker defender
        = (Returned, (attacker, defender))
        /\ (let r := Game.check_collisions hit other attacker defender in
            Player.health (snd (snd r)) = Player.health defender
            /\ Player.already_hit_in_current_attack (fst (snd r))
               = Player.already_hit_in_current_attack attacker)
        /\ (let r := Game.check_collisions other hit defender attacker in
            Player.health (fst (snd r)) = Player.health defender
            /\ Player.already_hit_in_current_attack (snd (snd r))
               = Player.already_hit_in_current_attack attacker)).
Proof.
  split; [apply check_block_iff |].
  intros Hb Hc hit other.
  pose proof (failed_block_still_negates hit attacker defender Hb Hc)
    as Hhalf.
  split; [exact Hhalf | split].
  - cbv zeta.
    destruct (check_collisions_first_half hit other attacker defender)
      as [Hh Hf].
    rewrite Hh, Hf, Hhalf. auto.
  - cbv zeta. unfold Game.check_collisions.
    pose proof (resolve_attack_frame other defender attacker) as Hframe.
    cbv zeta in Hframe.
    destruct (resolves other defender attacker) eqn:Eres.
    + destruct (resolve_attack_outcome other defender attacker)
        as [Hraise _].
      specialize (Hraise Eres).
      destruct (Game.resolve_attack other defender attacker)
        as [[| e] [q1 q2]]; cbn [fst snd] in *; [discriminate |].
      exact Hframe.
    + rewrite (unresolved_half other defender attacker Eres), Hhalf.
      cbn [fst snd]. auto.
Qed.

(** A wrong-side block within reach.  Player 1 at [x = 200] calls
    [attack(240)] and strikes with the right hand from the left; player 2
    at [x = 240] has called [block(200)] and guards the left, so the check
    fails.  After the updates of the frame the rectangles intersect, and
    the resolver returns with the health of player 2 still 100 and the
    swing unmarked. *)
Lemma check_block_side_witness :
  reaches striker guard = true
  /\ Player.attacking_with_right striker = true
  /\ (Player.x striker < Player.x guard)%Q
  /\ Player.blocking guard = true
  /\ Player.block_direction guard = "left"
  /\ Game.check_block guard striker = false
  /\ Game.pvp_frame ground_y screen_width
       (Player.attack (inject_Z 240) (fighter_at 200 ATHLETIC))
       (Player.block (inject_Z 200) (fighter_at 240 ATHLETIC))
     = Game.check_collisions (reaches striker guard)
         (reaches guard striker) striker guard
  /\ (let r := Game.check_collisions (reaches striker guard)
                 (reaches guard striker) striker guard in
      Player.health guard = 100
      /\ Player.health (snd (snd r)) = Player.health guard
      /\ Player.already_hit_in_current_attack (fst (snd r)) = false).
Proof.
  destruct (proj2 (check_block_side guard striker) eq_refl eq_refl
              (reaches striker guard) (reaches guard striker))
    as [_ [[Hh Hf] _]].
  do 6 (split; [reflexivity |]).
  split; [vm_compute; reflexivity |].
  cbv zeta. split; [reflexivity | split].
  - exact Hh.
  - exact (eq_trans Hf eq_refl).
Defined.

(** C2 on the modular resolver.  When a live, unmarked swing meets a
    defender who does not block, the defender loses its damage amount,
    and then the read of the defender's [width] for the hit effect raises
    [AttributeError]: [check_collisions] ends before it marks the swing.
    The attacker comes out exactly as it went in, attacking and unmarked,
    so a further run of the resolver on the same swing takes the amount a
    second time.  This is so for a swing of player 1, and for a swing of
    player 2 on a tick on which the blow of player 1 is not resolved. *)
Theorem modular_hit_raises_before_mark
        (hit : bool) (attacker defender : Player.t) :
  Player.attacking attacker = true ->
  Player.already_hit_in_current_attack attacker = false ->
  Player.blocking defender = false ->
  let d := BodyParameters.damage (Player.params defender) in
  (let r := Game.check_collisions true hit attacker defender in
   fst r = Raised AttributeError
   /\ fst (snd r) = attacker
   /\ Player.health (snd (snd r)) = Z.max 0 (Player.health defender - d)
   /\ forall hit' : bool,
        Player.health
          (snd (snd (Game.check_collisions true hit'
                       (fst (snd r)) (snd (snd r)))))
        = Z.max 0 (Z.max 0 (Player.health defender - d) - d))
  /\ (resolves hit defender attacker = false ->
      let r := Game.check_collisions hit true defender attacker in
      fst r = Raised AttributeError
      /\ snd (snd r) = attacker
      /\ Player.health (fst (snd r))
         = Z.max 0 (Player.health defender - d)).
Proof.
  intros Ha Hf Hb d.
  assert (Hd : Player.take_damage None defender
               = (true,
                  Player.set_animation_state HURT
                    (Player.set_health
                       (Z.max 0 (Player.health defender - d)) defender))).
  { unfold Player.take_damage. rewrite Hb. reflexivity. }
  split.
  - intros r.
    assert (Hr : r = (Raised AttributeError,
                      (attacker, snd (Player.take_damage None defender)))).
    { subst r. unfold Game.check_collisions.
      rewrite (landed_hit_raises attacker defender Ha Hf Hb).
      reflexivity. }
    rewrite Hr. cbn [fst snd]. rewrite Hd. cbn [snd].
    repeat split.
    intros hit'. unfold Game.check_collisions.
    rewrite (landed_hit_raises attacker _ Ha Hf) by exact Hb.
    cbn [snd]. unfold Player.take_damage. cbn. rewrite Hb. reflexivity.
  - intros Hres r. subst r. unfold Game.check_collisions.
    rewrite (unresolved_half hit defender attacker Hres).
    rewrite (landed_hit_raises attacker defender Ha Hf Hb).
    rewrite Hd. cbn [fst snd]. repeat split.
Qed.

(** The first tick of the swing of the example: after the updates of the
    frame the rectangles intersect, and the resolver raises with the
    health of player 2 at 90 and the swing of player 1 live and
    unmarked. *)
Lemma modular_hit_raises_before_mark_witness :
  let r := Game.pvp_frame ground_y screen_width
             (Player.attack (inject_Z 240) (fighter_at 200 ATHLETIC))
             (fighter_at 240 ATHLETIC) in
  reaches striker bystander = true
  /\ r = Game.check_collisions (reaches striker bystander)
           (reaches bystander striker) striker bystander
  /\ fst r = Raised AttributeError
  /\ Player.health bystander = 100
  /\ Player.health (snd (snd r)) = 90
  /\ Player.attacking (fst (snd r)) = true
  /\ Player.already_hit_in_current_attack (fst (snd r)) = false.
Proof.
  intros r.
  assert (Er : r = Game.check_collisions true (reaches bystander striker)
                     striker bystander)
    by (vm_compute; reflexivity).
  destruct (proj1 (modular_hit_raises_before_mark
                     (reaches bystander striker) striker bystander
                     eq_refl eq_refl eq_refl))
    as [Ho [Ep [Hh _]]].
  split; [reflexivity | split; [vm_compute; reflexivity |]].
  rewrite Er.
  split; [exact Ho | split; [reflexivity |]].
  split; [exact Hh |].
  rewrite Ep. split; reflexivity.
Defined.

(** What the frame function of the game does before all that: it reads
    [self.settings.screen_width], which the [Settings] of [settings.py]
    does not have, and raises with both fighters untouched. *)
Lemma update_pvp_mode_raises (settings : Settings.t) (g : Z)
      (player1 player2 : Player.t) :
  Game.update_pvp_mode settings g player1 player2
  = (Raised AttributeError, (player1, player2)).
Proof. reflexivity. Qed.

(** C7, as the code has it.  On an unblocked hit the resolver calls
    [take_damage()] with no amount, so the health of the fighter that is
    hit becomes [max 0 (health - d)] for the damage value [d] of its own
    body type, whatever the body type of the attacker: for player 1
    hitting player 2, and for player 2 hitting player 1 on a tick on
    which the blow of player 1 is not resolved (a resolved one raises and
    ends the resolver).  The health goes down by exactly [d] when at
    least [d] is left. *)
Theorem resolver_applies_defender_damage
        (hit12 hit21 : bool) (player1 player2 : Player.t) :
  let r := Game.check_collisions hit12 hit21 player1 player2 in
  let d1 := BodyParameters.damage (Player.params player1) in
  let d2 := BodyParameters.damage (Player.params player2) in
  (Player.attacking player1 = true ->
   Player.already_hit_in_current_attack player1 = false ->
   hit12 = true ->
   Player.blocking player2 = false ->
   Player.health (snd (snd r)) = Z.max 0 (Player.health player2 - d2)
   /\ (d2 <= Player.health player2 ->
       Player.health player2 - Player.health (snd (snd r)) = d2))
  /\ (resolves hit12 player1 player2 = false ->
      Player.attacking player2 = true ->
      Player.already_hit_in_current_attack player2 = false ->
      hit21 = true ->
      Player.blocking player1 = false ->
      Player.health (fst (snd r)) = Z.max 0 (Player.health player1 - d1)
      /\ (d1 <= Player.health player1 ->
          Player.health player1 - Player.health (fst (snd r)) = d1)).
Proof.
  intros r d1 d2. subst r. split.
  - intros Ha Hf -> Hb.
    assert (Hh : Player.health
                   (snd (snd (Game.check_collisions true hit21
                                player1 player2)))
                 = Z.max 0 (Player.health player2 - d2)).
    { unfold Game.check_collisions.
      rewrite (landed_hit_raises player1 player2 Ha Hf Hb).
      unfold Player.take_damage. rewrite Hb. reflexivity. }
    rewrite Hh. split; [reflexivity | lia].
  - intros Hres Ha Hf -> Hb.
    assert (Hh : Player.health
                   (fst (snd (Game.check_collisions hit12 true
                                player1 player2)))
                 = Z.max 0 (Player.health player1 - d1)).
    { unfold Game.check_collisions.
      rewrite (unresolved_half hit12 player1 player2 Hres).
      rewrite (landed_hit_raises player2 player1 Ha Hf Hb).
      unfold Player.take_damage. rewrite Hb. reflexivity. }
    rewrite Hh. split; [reflexivity | lia].
Qed.

(** A ninja (damage 8) within reach hits a fresh sumo (damage 15, health
    150): the sumo is left with 135. *)
Lemma resolver_applies_defender_damage_witness :
  reaches ninja_striker sumo = true
  /\ Player.health
       (snd (snd (Game.check_collisions (reaches ninja_striker sumo)
                    (reaches sumo ninja_striker) ninja_striker sumo)))
     = Z.max 0 (150 - 15).
Proof.
  split; [reflexivity |].
  exact (proj1 (proj1 (resolver_applies_defender_damage
                         (reaches ninja_striker sumo)
                         (reaches sumo ninja_striker) ninja_striker sumo)
                  eq_refl eq_refl eq_refl eq_refl)).
Defined.

(** C7 as stated fails for a defender with less health than its damage
    value: the same ninja hits the sumo that has 10 health left, and the
    health goes down by 10, not by the 15 of the sumo. *)
Lemma low_health_hit_takes_less :
  let r := Game.check_collisions (reaches ninja_striker weak_sumo)
             (reaches weak_sumo ninja_striker) ninja_striker weak_sumo in
  reaches ninja_striker weak_sumo = true
  /\ BodyParameters.damage (Player.params ninja_striker) = 8
  /\ BodyParameters.damage (Player.params weak_sumo) = 15
  /\ Player.blocking weak_sumo = false
  /\ Player.health weak_sumo = 10
  /\ Player.health (snd (snd r)) = 0
  /\ Player.health weak_sumo - Player.health (snd (snd r)) < 15.
Proof. vm_compute. repeat split. Qed.

(** ** What a decision does to a block *)

Section CancelledBlock.

Variable cooldown : Z.
Hypothesis on_cooldown : 0 < cooldown.

(** The block is off, with its cooldown as it was. *)
Let unblocked (c : Bot.t) : Prop :=
  Player.blocking (Bot.as_player c) = false
  /\ Player.block_cooldown (Bot.as_player c) = cooldown.

Lemma unblocked_attack (ox : Q) (c : Bot.t) :
  unblocked c -> unblocked (Bot.inherited (Player.attack ox) c).
Proof.
  unfold unblocked. rewrite as_player_inherited.
  unfold Player.attack, Player.determine_attack_hand.
  split_tests; auto.
Qed.

Lemma unblocked_block (ox : Q) (c : Bot.t) :
  unblocked c -> unblocked (Bot.inherited (Player.block ox) c).
Proof.
  intros H. unfold unblocked in *. rewrite as_player_inherited.
  rewrite block_on_cooldown_is_noop; [exact H |].
  destruct H as [_ ->]. exact on_cooldown.
Qed.

Lemma unblocked_move_by (left : bool) (c : Bot.t) :
  unblocked c -> unblocked (Bot.move_by left c).
Proof. unfold unblocked, Bot.move_by. destruct left; cbn; auto. Qed.

Lemma unblocked_set_last_action (v : string) (c : Bot.t) :
  unblocked c -> unblocked (Bot.set_last_action v c).
Proof. unfold unblocked. cbn. auto. Qed.

Lemma unblocked_set_decision_cooldown (v : Z) (c : Bot.t) :
  unblocked c -> unblocked (Bot.set_decision_cooldown v c).
Proof. unfold unblocked. cbn. auto. Qed.

Local Ltac band_unblocked :=
  intros; unfold Random.bind, Random.random, Random.ret;
  split_tests;
  auto using unblocked_attack, unblocked_block, unblocked_move_by,
    unblocked_set_last_action.

Lemma unblocked_decision
      (player : Bot.fighter) (w : Z) (b : Bot.t) (rs : Random.source) :
  Bot.decision_cooldown b <= 0 ->
  Player.block_cooldown (Bot.as_player b) = cooldown ->
  unblocked (snd (fst (Bot.make_decision player w b rs))).
Proof.
  intros Hdc Hc.
  apply (make_decision_rule
           (fun c => Bot.decision_cooldown c <= 0
                     /\ Player.block_cooldown (Bot.as_player c) = cooldown)
           unblocked).
  - intros c [H _] Hpos. lia.
  - intros c [_ H] _. unfold unblocked.
    rewrite !as_player_inherited. unfold Player.stop_moving.
    split_tests; auto.
  - unfold Bot.decide_very_close. band_unblocked.
  - unfold Bot.decide_close. band_unblocked.
  - unfold Bot.decide_medium. band_unblocked.
  - unfold Bot.decide_far. band_unblocked.
  - intros r c H. unfold unblocked.
    now destruct (adapt_to_health_weights r c) as [-> _].
  - intros pl left c rs' H. unfold Bot.adapt_to_opponent.
    destruct (Bot.fighter_last_action pl); band_unblocked.
  - apply unblocked_set_decision_cooldown.
  - auto.
Qed.

End CancelledBlock.

(** C5, as the code has it.  [block] does nothing while the block cooldown
    is positive and otherwise sets [blocking] and a cooldown of 40; the
    frame of [update] that takes the cooldown from 1 to 0 clears
    [blocking]; over every call on a fighter or a bot, [blocking] turns
    false either on that frame or in a [make_decision] that finds the
    decision cooldown at 0; and such a [make_decision], however it ends,
    does leave [blocking] false at every positive block cooldown, which it
    does not touch. *)
Theorem blocking_window (p : Player.t) (opponent_x : Q) :
  (0 < Player.block_cooldown p -> Player.block opponent_x p = p)
  /\ (Player.block_cooldown p <= 0 ->
      Player.blocking (Player.block opponent_x p) = true
      /\ Player.block_cooldown (Player.block opponent_x p) = 40)
  /\ (forall (g w : Z) (ox : option Q),
        Player.block_cooldown p = 1 ->
        Player.blocking (Player.update g w ox p) = false
        /\ Player.block_cooldown (Player.update g w ox p) = 0)
  /\ (forall op : player_op,
        Player.blocking p = true ->
        Player.blocking (apply_op op p) = false ->
        is_update (op_inherited op)
        /\ Player.block_cooldown p = 1
        /\ Player.block_cooldown (apply_op op p) = 0)
  /\ (forall (b : Bot.t) (op : bot_op) (rs : Random.source),
        Bot.as_player b = p ->
        Player.blocking p = true ->
        Player.blocking (Bot.as_player (bot_after op b rs)) = false ->
        (is_update op
         /\ Player.block_cooldown p = 1
         /\ Player.block_cooldown (Bot.as_player (bot_after op b rs)) = 0)
        \/ (is_decision op /\ Bot.decision_cooldown b <= 0))
  /\ (forall (b : Bot.t) (player : Bot.fighter) (w : Z)
             (rs : Random.source),
        Bot.as_player b = p ->
        Bot.decision_cooldown b <= 0 ->
        0 < Player.block_cooldown p ->
        let b' := snd (fst (Bot.make_decision player w b rs)) in
        Player.blocking (Bot.as_player b') = false
        /\ Player.block_cooldown (Bot.as_player b')
           = Player.block_cooldown p).
Proof.
  split; [apply block_on_cooldown_is_noop |].
  split; [intros H; destruct (block_starts opponent_x p H) as [? [? _]];
          auto |].
  split; [intros g w ox H;
          rewrite update_blocking, update_block_cooldown, H; cbn; auto |].
  split; [intros op; apply player_op_ends_block |].
  split; [intros b op rs <-; apply bot_op_ends_block |].
  intros b player w rs <- Hdc Hcd.
  exact (unblocked_decision (Player.block_cooldown (Bot.as_player b)) Hcd
           player w b rs Hdc eq_refl).
Qed.

(** A block of the athlete: a second [block] during the window does
    nothing, the fortieth update ends the block, and the weak bot that
    blocks with 40 on the cooldown has the block ended by its decision. *)
Lemma blocking_window_witness :
  let p := Player.block (inject_Z 100) athlete in
  let b' := snd (fst (Bot.make_decision (Bot.a_player athlete) screen_width
                        weak_bot_blocking (Random.constant 0))) in
  Player.block (inject_Z 900) p = p
  /\ Player.blocking p = true
  /\ Player.blocking
       (Player.update ground_y screen_width None
          (updates (repeat (ground_y, screen_width, None) 39) p)) = false
  /\ Player.blocking (Bot.as_player weak_bot_blocking) = true
  /\ Player.blocking (Bot.as_player b') = false
  /\ Player.block_cooldown (Bot.as_player b') = 40.
Proof.
  intros p b'.
  destruct (blocking_window p (inject_Z 900)) as [Hnoop _].
  destruct (blocking_window athlete (inject_Z 100)) as [_ [Hstart _]].
  destruct (blocking_window
              (updates (repeat (ground_y, screen_width, None) 39) p)
              (inject_Z 100)) as [_ [_ [Hend _]]].
  destruct (blocking_window (Bot.as_player weak_bot_blocking)
              (inject_Z 100)) as [_ [_ [_ [_ [_ Hdecision]]]]].
  split; [apply Hnoop; vm_compute; reflexivity |].
  split; [apply Hstart; vm_compute; discriminate |].
  split; [apply Hend; vm_compute; reflexivity |].
  split; [reflexivity |].
  apply (Hdecision weak_bot_blocking (Bot.a_player athlete) screen_width
           (Random.constant 0) eq_refl).
  - vm_compute. discriminate.
  - vm_compute. reflexivity.
Defined.

(** C5 as stated fails for a bot.  The weak bot starts a block in
    [Bot.update] (cooldown 40); the [make_decision] of the same frame finds
    the decision cooldown at 0 and clears [blocking], with the block
    cooldown still at 40 and no [update] in between. *)
Lemma decision_ends_block_early :
  let b' := snd (fst (Bot.make_decision (Bot.a_player athlete) screen_width
                        weak_bot_blocking (Random.constant 0))) in
  Player.blocking (Bot.as_player weak_bot_blocking) = true
  /\ Player.block_cooldown (Bot.as_player weak_bot_blocking) = 40
  /\ Player.blocking (Bot.as_player b') = false
  /\ Player.block_cooldown (Bot.as_player b') = 40.
Proof. vm_compute. auto. Qed.
